(** * Bridge session protocol of the node apps: model and properties

    The development embeds, function by function, the node side of the
    bridge protocol:

    - [Canvas]: [normalizeCanvasHostUrl] and [isLoopbackHost] of the Android
      [BridgeSession];
    - [Bridge]: the Android [BridgeSession] itself: the correlation table
      [pending], [request], [invokeErrorFromThrowable], [connectOnce] with its
      handshake, read loop and [finally] block, [runLoop] and [disconnect];
    - [IOS]: the command dispatcher [NodeAppModel.handleInvoke];
    - [Mac]: the command dispatcher [MacNodeRuntime.handleInvoke] and
      [encodeCanvasSnapshot];
    - [BridgeCalls]: [sendEvent] of the Android [BridgeSession];
    - [MacRuntime]: the remaining cases of [MacNodeRuntime.handleInvoke] with
      [handleA2UIReset], [handleA2UIPush], [ensureA2UIHost], [isA2UIReady],
      [resolveA2UIHostUrl], [handleSystemRun] and [handleSystemNotify];
    - [IOSRuntime]: the remaining cases of [NodeAppModel.handleInvoke] with
      [resolveA2UIHostURL], and [setScenePhase];
    - [IOSSupervisor]: the loop of [NodeAppModel.connectToBridge].

    Text is kept as the bytes of its UTF-8 encoding ([string]), cut into
    characters where a class of characters matters: [isWhitespace] and
    [isUpperCase] of Kotlin and the whitespace of Foundation are given on
    code points, [lowercase] on the letters A..Z, where the protocol's
    keywords, codes and host names live.  Code that belongs to libraries (java.net.URI, kotlinx.serialization, Foundation,
    AppKit, the capture services) enters as a parameter or as the outcome of
    the call, and every call of it is recorded in a trace. *)

From Stdlib Require Import ZArith Lia List String Ascii DecimalString QArith Qminmax
  Qpower.
From stdpp Require Import gmap strings list.

Open Scope string_scope.
Open Scope Z_scope.

(* ===================================================================== *)
(** ** Text helpers (kotlin.text on UTF-8 text)                            *)
(* ===================================================================== *)

Module Text.

Definition charCode (c : ascii) : nat := nat_of_ascii c.

(** Text is kept as the bytes of its UTF-8 encoding, the form in which it
    travels on the socket. A character is an ASCII byte, or a byte above the
    ASCII range with the continuation bytes (10xxxxxx) that follow it. *)
Definition byte (c : ascii) : N := N_of_ascii c.

Definition isAscii (c : ascii) : bool := (byte c <? 128)%N.

Definition isContinuation (c : ascii) : bool :=
  (128 <=? byte c)%N && (byte c <? 192)%N.

Definition startsInside (u : string) : bool :=
  match u with
  | String c _ => isContinuation c
  | EmptyString => false
  end.

(** The characters of a text, each as the bytes that encode it. *)
Fixpoint chars (s : string) : list string :=
  match s with
  | EmptyString => []
  | String c r =>
      if isAscii c then String c EmptyString :: chars r
      else
        match chars r with
        | u :: us =>
            if startsInside u then String c u :: us
            else String c EmptyString :: u :: us
        | [] => [String c EmptyString]
        end
  end.

Definition text (us : list string) : string := fold_right String.append EmptyString us.

(** The code point of a character of the Basic Multilingual Plane, which is
    one [Char] for Kotlin and one scalar for Swift. A character beyond it
    (four bytes) is a pair of surrogates for Kotlin: it has no code point
    here and belongs to no class below, as neither surrogate does. *)
Definition codePoint (u : string) : option N :=
  match u with
  | String a EmptyString => if isAscii a then Some (byte a) else None
  | String a (String b EmptyString) =>
      if (194 <=? byte a)%N && (byte a <? 224)%N && isContinuation b
      then Some ((byte a - 192) * 64 + (byte b - 128))%N
      else None
  | String a (String b (String c EmptyString)) =>
      let cp := (((byte a - 224) * 64 + (byte b - 128)) * 64 + (byte c - 128))%N in
      if (224 <=? byte a)%N && (byte a <? 240)%N
         && isContinuation b && isContinuation c && (2048 <=? cp)%N
      then Some cp
      else None
  | _ => None
  end.

(** A character of the class [p]. *)
Definition charIs (p : N -> bool) (u : string) : bool :=
  match codePoint u with
  | Some cp => p cp
  | None => false
  end.

(** [Char.isWhitespace]: the space, line and paragraph separators of
    Unicode (Zs, Zl, Zp) and the controls TAB..CR and FS..US. *)
Definition isWhitespace (cp : N) : bool :=
  ((9 <=? cp) && (cp <=? 13) || (28 <=? cp) && (cp <=? 32)
   || (cp =? 160) || (cp =? 5760) || (8192 <=? cp) && (cp <=? 8202)
   || (cp =? 8232) || (cp =? 8233) || (cp =? 8239) || (cp =? 8287)
   || (cp =? 12288))%N.

(** The upper case letters of the Basic Multilingual Plane (general
    category Lu and the property Other_Uppercase of the Unicode Character
    Database, version 14.0), as runs [(first, last, step)]. *)
Definition upperCaseRuns : list (N * N * N) :=
  (
  [(65, 90, 1); (192, 214, 1); (216, 222, 1); (256, 310, 2); (313, 327, 2);
   (330, 374, 2); (376, 377, 1); (379, 381, 2); (385, 386, 1); (388, 388, 1);
   (390, 391, 1); (393, 395, 1); (398, 401, 1); (403, 404, 1); (406, 408, 1);
   (412, 413, 1); (415, 416, 1); (418, 420, 2); (422, 423, 1); (425, 425, 1);
   (428, 428, 1); (430, 431, 1); (433, 435, 1); (437, 437, 1); (439, 440, 1);
   (444, 444, 1); (452, 452, 1); (455, 455, 1); (458, 458, 1); (461, 475, 2);
   (478, 494, 2); (497, 497, 1); (500, 500, 1); (502, 504, 1); (506, 562, 2);
   (570, 571, 1); (573, 574, 1); (577, 577, 1); (579, 582, 1); (584, 590, 2);
   (880, 882, 2); (886, 886, 1); (895, 895, 1); (902, 902, 1); (904, 906, 1);
   (908, 908, 1); (910, 911, 1); (913, 929, 1); (931, 939, 1); (975, 975, 1);
   (978, 980, 1); (984, 1006, 2); (1012, 1012, 1); (1015, 1015, 1);
   (1017, 1018, 1); (1021, 1071, 1); (1120, 1152, 2); (1162, 1214, 2);
   (1216, 1217, 1); (1219, 1229, 2); (1232, 1326, 2); (1329, 1366, 1);
   (4256, 4293, 1); (4295, 4295, 1); (4301, 4301, 1); (5024, 5109, 1);
   (7312, 7354, 1); (7357, 7359, 1); (7680, 7828, 2); (7838, 7934, 2);
   (7944, 7951, 1); (7960, 7965, 1); (7976, 7983, 1); (7992, 7999, 1);
   (8008, 8013, 1); (8025, 8031, 2); (8040, 8047, 1); (8120, 8123, 1);
   (8136, 8139, 1); (8152, 8155, 1); (8168, 8172, 1); (8184, 8187, 1);
   (8450, 8450, 1); (8455, 8455, 1); (8459, 8461, 1); (8464, 8466, 1);
   (8469, 8469, 1); (8473, 8477, 1); (8484, 8488, 2); (8490, 8493, 1);
   (8496, 8499, 1); (8510, 8511, 1); (8517, 8517, 1); (8544, 8559, 1);
   (8579, 8579, 1); (9398, 9423, 1); (11264, 11311, 1); (11360, 11360, 1);
   (11362, 11364, 1); (11367, 11371, 2); (11373, 11376, 1);
   (11378, 11378, 1); (11381, 11381, 1); (11390, 11392, 1);
   (11394, 11490, 2); (11499, 11501, 2); (11506, 11506, 1);
   (42560, 42604, 2); (42624, 42650, 2); (42786, 42798, 2);
   (42802, 42862, 2); (42873, 42875, 2); (42877, 42878, 1);
   (42880, 42886, 2); (42891, 42893, 2); (42896, 42898, 2);
   (42902, 42920, 2); (42922, 42926, 1); (42928, 42932, 1);
   (42934, 42946, 2); (42948, 42951, 1); (42953, 42953, 1);
   (42960, 42960, 1); (42966, 42968, 2); (42997, 42997, 1); (65313, 65338, 1)]
  )%N.

(** [Char.isUpperCase] *)
Definition isUpperCase (cp : N) : bool :=
  existsb (fun run : N * N * N =>
             let '(first, last, step) := run in
             (first <=? cp) && (cp <=? last) && ((cp - first) mod step =? 0))%N
    upperCaseRuns.

(** [String.lowercase()] on the letters A..Z; the characters outside ASCII
    are left as they are. *)
Definition lowerChar (c : ascii) : ascii :=
  if Nat.leb 65 (charCode c) && Nat.leb (charCode c) 90
  then ascii_of_nat (charCode c + 32) else c.

Fixpoint lowercase (s : string) : string :=
  match s with
  | EmptyString => EmptyString
  | String c r => String (lowerChar c) (lowercase r)
  end.

Definition isEmpty (s : string) : bool :=
  match s with EmptyString => true | _ => false end.

(** Every byte of [s] satisfies [p]. *)
Fixpoint all (p : ascii -> bool) (s : string) : bool :=
  match s with
  | EmptyString => true
  | String c r => p c && all p r
  end.

(** What [chars] yields: every character is an ASCII byte or a byte above
    ASCII with continuation bytes, and a continuation byte that follows a
    character above ASCII belongs to it. *)
Definition unitOk (u : string) : Prop :=
  match u with
  | EmptyString => False
  | String c t => if isAscii c then t = EmptyString else all isContinuation t = true
  end.

Definition closed (u : string) : bool :=
  match u with
  | String c _ => isAscii c
  | EmptyString => false
  end.

Fixpoint segmented (l : list string) : Prop :=
  match l with
  | [] => True
  | u :: r =>
      unitOk u
      /\ match r with
         | v :: _ => closed u = true \/ startsInside v = false
         | [] => True
         end
      /\ segmented r
  end.

(** [s.all { p(it) }] *)
Definition allChars (p : N -> bool) (s : string) : bool :=
  forallb (charIs p) (chars s).

Fixpoint dropWhile {A : Type} (p : A -> bool) (l : list A) : list A :=
  match l with
  | [] => []
  | x :: r => if p x then dropWhile p r else l
  end.

Definition isNil {A : Type} (l : list A) : bool :=
  match l with [] => true | _ => false end.

Fixpoint dropWhileEnd {A : Type} (p : A -> bool) (l : list A) : list A :=
  match l with
  | [] => []
  | x :: r =>
      let r' := dropWhileEnd p r in
      if p x && isNil r' then [] else x :: r'
  end.

(** Trimming the characters of a class at the start, at the end and at
    both ends. *)
Definition trimStartBy (p : N -> bool) (s : string) : string :=
  text (dropWhile (charIs p) (chars s)).

Definition trimEndBy (p : N -> bool) (s : string) : string :=
  text (dropWhileEnd (charIs p) (chars s)).

Definition trimBy (p : N -> bool) (s : string) : string :=
  text (dropWhileEnd (charIs p) (dropWhile (charIs p) (chars s))).

(** [isBlank], [trimStart], [trimEnd] and [trim] of kotlin.text *)
Definition isBlank (s : string) : bool := allChars isWhitespace s.
Definition isNotBlank (s : string) : bool := negb (isBlank s).

Definition trimStart (s : string) : string := trimStartBy isWhitespace s.
Definition trimEnd (s : string) : string := trimEndBy isWhitespace s.
Definition trim (s : string) : string := trimBy isWhitespace s.

Definition ifEmpty (s d : string) : string := if isEmpty s then d else s.
Definition ifBlank (s d : string) : string := if isBlank s then d else s.

(** [x?.f().orEmpty()] *)
Definition orEmpty (o : option string) : string :=
  match o with Some s => s | None => EmptyString end.

(** [x.takeIf { !it.isNullOrEmpty() }] *)
Definition takeIfNotEmpty (o : option string) : option string :=
  match o with
  | Some s => if isEmpty s then None else Some s
  | None => None
  end.

Definition startsWith (s p : string) : bool := String.prefix p s.

Fixpoint contains (s sub : string) : bool :=
  String.prefix sub s ||
  match s with
  | EmptyString => false
  | String _ r => contains r sub
  end.

(** The text before the first occurrence of [d], and the text after it
    when there is one. *)
Fixpoint cut (d : ascii) (s : string) : string * option string :=
  match s with
  | EmptyString => (EmptyString, None)
  | String c r =>
      if Ascii.eqb c d then (EmptyString, Some r)
      else let '(a, b) := cut d r in (String c a, b)
  end.

(** [d] does not occur in [s]. *)
Definition lacks (d : ascii) (s : string) : bool :=
  all (fun c => negb (Ascii.eqb c d)) s.

(** [s.split(d, limit = 2)] for a one-character delimiter. *)
Definition split2 (d : ascii) (s : string) : list string :=
  match cut d s with
  | (a, Some b) => [a; b]
  | (a, None) => [a]
  end.

(** [Int.toString()] and [Long.toString()]. *)
Definition Z_to_string (z : Z) : string :=
  NilZero.string_of_int (Z.to_int z).

Definition isDigit (c : ascii) : bool :=
  Nat.leb 48 (charCode c) && Nat.leb (charCode c) 57.

Fixpoint digitsValue (acc : Z) (s : string) : Z :=
  match s with
  | EmptyString => acc
  | String c r => digitsValue (10 * acc + Z.of_nat (charCode c - 48)) r
  end.

End Text.

(* ===================================================================== *)
(** ** Canvas host resolution (BridgeSession.kt, lines 305-334)           *)
(* ===================================================================== *)

Module Canvas.
Import Text.

(** What the code reads from a [java.net.URI]: [getScheme()], [getHost()]
    (both may be null) and [getPort()] (-1 when undefined). *)
Record URI := { scheme : option string; host : option string; port : Z }.

(** Modelled from the spec: the data class [BridgeEndpoint] is declared in
    another file of the app; its fields are those the code reads and section
    3 of the specification lists: [{host, port, lanHost?, tailnetDns?,
    canvasPort?}]. *)
Record BridgeEndpoint := {
  ep_host : string;
  ep_port : Z;
  lanHost : option string;
  tailnetDns : option string;
  canvasPort : option Z
}.

Definition isLoopbackHost (raw : option string) : bool :=
  let host := orEmpty (option_map (fun r => lowercase (trim r)) raw) in
  if isEmpty host then false
  else if String.eqb host "localhost" then true
  else if String.eqb host "::1" then true
  else if String.eqb host "0.0.0.0" || String.eqb host "::" then true
  else startsWith host "127.".

Section Resolution.

(** [runCatching { URI(it) }.getOrNull()]: [None] when the constructor
    throws. *)
Variable parseURI : string -> option URI.

Definition normalizeCanvasHostUrl (raw : option string)
    (endpoint : BridgeEndpoint) : option string :=
  let trimmed := orEmpty (option_map trim raw) in
  let parsed := if isNotBlank trimmed then parseURI trimmed else None in
  let host := orEmpty (option_map trim (parsed ≫= host)) in
  let port := match parsed with Some u => port u | None => -1 end in
  let scheme := ifBlank (orEmpty (option_map trim (parsed ≫= scheme))) "http" in
  if isNotBlank trimmed && negb (isLoopbackHost (Some host)) then Some trimmed
  else
    let fallbackHost :=
      match takeIfNotEmpty (option_map trim (tailnetDns endpoint)) with
      | Some h => h
      | None =>
          match takeIfNotEmpty (option_map trim (lanHost endpoint)) with
          | Some h => h
          | None => trim (ep_host endpoint)
          end
      end in
    if isEmpty fallbackHost then
      (if isBlank trimmed then None else Some trimmed)
    else
      let fallbackPort :=
        match canvasPort endpoint with
        | Some p => p
        | None => if 0 <? port then port else 18793
        end in
      let formattedHost :=
        if contains fallbackHost ":" then "[" ++ fallbackHost ++ "]"
        else fallbackHost in
      Some (scheme ++ "://" ++ formattedHost ++ ":" ++ Z_to_string fallbackPort).

(** *** The resolution rule in the words of the specification *)

Definition advertised (raw : option string) : string :=
  orEmpty (option_map trim raw).

Definition advertisedURI (raw : option string) : option URI :=
  if isNotBlank (advertised raw) then parseURI (advertised raw) else None.

Definition advertisedHost (raw : option string) : string :=
  orEmpty (option_map trim (advertisedURI raw ≫= host)).

(** "the advertised scheme or http if none" *)
Definition advertisedScheme (raw : option string) : string :=
  match option_map trim (advertisedURI raw ≫= scheme) with
  | Some s => if isBlank s then "http" else s
  | None => "http"
  end.

Definition advertisedPort (raw : option string) : option Z :=
  match advertisedURI raw with
  | Some u => if 0 <? port u then Some (port u) else None
  | None => None
  end.

(** The test of the code for "a non-empty, non-loopback URL" *)
Definition usable (raw : option string) : bool :=
  isNotBlank (advertised raw) && negb (isLoopbackHost (Some (advertisedHost raw))).

(** The host of the advertised URL as it is compared: trimmed and in lower
    case, empty when the URL has none. *)
Definition comparedHost (raw : option string) : string :=
  lowercase (advertisedHost raw).

End Resolution.

(** "loopback host": of the list of the specification, the hosts that are
    a name or an IPv4 address, [localhost], [127.*] and [0.0.0.0]. *)
Definition specLoopback (host : string) : bool :=
  String.eqb host "localhost" || String.eqb host "0.0.0.0"
  || startsWith host "127.".

(** An IPv6 literal is the only host that holds a colon. *)
Definition isIPv6Literal (host : string) : bool := contains host ":".

Definition nonEmptyTrimmed (o : option string) : option string :=
  match o with
  | Some s => if isEmpty (trim s) then None else Some (trim s)
  | None => None
  end.

(** "in priority order, the endpoint's tailnet DNS name, then its LAN host,
    then its raw connect host": the first candidate that is present and
    non-empty. *)
Definition firstNonEmpty (candidates : list (option string)) : option string :=
  match omap nonEmptyTrimmed candidates with
  | h :: _ => Some h
  | [] => None
  end.

Definition specFallbackHost (endpoint : BridgeEndpoint) : option string :=
  firstNonEmpty [tailnetDns endpoint; lanHost endpoint; Some (ep_host endpoint)].

(** An IPv6 literal goes between square brackets. *)
Definition bracketed (h : string) : string :=
  if contains h ":" then "[" ++ h ++ "]" else h.

(** *** A stand-in for java.net.URI

    Enough of the parser to evaluate URLs of the shape
    [scheme://host[:port][/path]] with a DNS name or an IPv4 address as
    host; used for the concrete cases only, the general statements hold for
    every parser. *)

Definition endsAuthority (c : ascii) : bool :=
  Ascii.eqb c "/" || Ascii.eqb c "?" || Ascii.eqb c "#".

Fixpoint takeAuthority (s : string) : string :=
  match s with
  | EmptyString => EmptyString
  | String c r => if endsAuthority c then EmptyString else String c (takeAuthority r)
  end.

Definition hierURI (s : string) : option URI :=
  match cut ":" s with
  | (sch, Some (String "/" (String "/" rest))) =>
      if isEmpty sch then None
      else
        match cut ":" (takeAuthority rest) with
        | (h, None) =>
            Some {| scheme := Some sch;
                    host := if isEmpty h then None else Some h;
                    port := -1 |}
        | (h, Some digits) =>
            if isEmpty h then None
            else if isEmpty digits then
              Some {| scheme := Some sch; host := Some h; port := -1 |}
            else if all isDigit digits then
              Some {| scheme := Some sch; host := Some h;
                      port := digitsValue 0 digits |}
            else Some {| scheme := Some sch; host := None; port := -1 |}
        end
  | _ => None
  end.

(** The port of the fallback: the endpoint's canvas port, else the port of
    the advertised URL when it has one, else 18793. *)
Definition specFallbackPort (parseURI : string -> option URI)
    (raw : option string) (endpoint : BridgeEndpoint) : Z :=
  match canvasPort endpoint with
  | Some p => p
  | None =>
      match advertisedPort parseURI raw with
      | Some p => p
      | None => 18793
      end
  end.

(** The endpoints of the concrete cases of the specification. *)
Definition endpointA : BridgeEndpoint :=
  {| ep_host := "203.0.113.9"; ep_port := 18790; lanHost := None;
     tailnetDns := Some "node1.ts.net"; canvasPort := Some 18793 |}.

Definition endpointB : BridgeEndpoint :=
  {| ep_host := "203.0.113.9"; ep_port := 18790; lanHost := None;
     tailnetDns := None; canvasPort := None |}.

End Canvas.

(* ===================================================================== *)
(** ** JSON values as the session reads them (BridgeSession.kt, 337-357)  *)
(* ===================================================================== *)

Module Json.
Import Text.

(** kotlinx.serialization's [JsonElement]. A [JsonObject] is a map; its
    fields are kept as the association list of its entries. *)
#[local] Unset Elimination Schemes.
Inductive JsonElement :=
| JsonNull
| JsonLiteral (content : string) (isString : bool)
| JsonArray (items : list JsonElement)
| JsonObject (fields : list (string * JsonElement)).
#[local] Set Elimination Schemes.

Definition Fields := list (string * JsonElement).

(** [obj[key]] *)
Fixpoint get (fields : Fields) (key : string) : option JsonElement :=
  match fields with
  | [] => None
  | (k, v) :: rest => if String.eqb k key then Some v else get rest key
  end.

(** [JsonPrimitive(String)], [JsonPrimitive(Boolean)] *)
Definition str (s : string) : JsonElement := JsonLiteral s true.
Definition boolean (b : bool) : JsonElement :=
  JsonLiteral (if b then "true" else "false") false.

Definition asObjectOrNull (e : JsonElement) : option Fields :=
  match e with
  | JsonObject fields => Some fields
  | _ => None
  end.

Definition asStringOrNull (e : option JsonElement) : option string :=
  match e with
  | Some JsonNull => None
  | Some (JsonLiteral content _) => Some content
  | _ => None
  end.

Definition equalsIgnoreCase (a b : string) : bool :=
  String.eqb (lowercase a) (lowercase b).

(** [JsonNull] is a [JsonPrimitive] whose content is ["null"]. *)
Definition asBooleanOrNull (e : option JsonElement) : option bool :=
  let decide_content (content : string) :=
    let c := trim content in
    if equalsIgnoreCase c "true" then Some true
    else if equalsIgnoreCase c "false" then Some false
    else None in
  match e with
  | Some JsonNull => decide_content "null"
  | Some (JsonLiteral content _) => decide_content content
  | _ => None
  end.

End Json.

(* ===================================================================== *)
(** ** The Android bridge session (BridgeSession.kt)                      *)
(* ===================================================================== *)

Module Bridge.
Import Text Json Canvas.

Record Hello := {
  nodeId : string;
  displayName : option string;
  token : option string;
  platform : option string;
  version : option string;
  deviceFamily : option string;
  modelIdentifier : option string;
  caps : option (list string);
  commands : option (list string)
}.

Record InvokeRequest := {
  req_id : string;
  req_command : string;
  req_paramsJson : option string
}.

Record ErrorShape := { code : string; message : string }.

Record InvokeResult := {
  ok : bool;
  payloadJson : option string;
  error : option ErrorShape
}.

Definition InvokeResult_ok (payload : option string) : InvokeResult :=
  {| ok := true; payloadJson := payload; error := None |}.

Definition InvokeResult_error (c m : string) : InvokeResult :=
  {| ok := false; payloadJson := None;
     error := Some {| code := c; message := m |} |}.

Record RpcResponse := {
  rid : string;
  rok : bool;
  rpayloadJson : option string;
  rerror : option ErrorShape
}.

(** What the session reads of a [Throwable]: [err.message] and
    [err::class.java.simpleName]. *)
Record Throwable := { simpleName : string; thr_message : option string }.

Definition IllegalStateException (msg : string) : Throwable :=
  {| simpleName := "IllegalStateException"; thr_message := Some msg |}.

(** *** invokeErrorFromThrowable (lines 170-181) *)

(** [it.isUpperCase() || it == '_'], on the code point of [it] *)
Definition isCodeChar (cp : N) : bool := isUpperCase cp || (cp =? 95)%N.

(** "non-empty and only uppercase letters and underscores" *)
Definition isErrorCode (c : string) : bool :=
  negb (isEmpty c) && allChars isCodeChar c.

Definition throwableText (err : Throwable) : string :=
  match takeIfNotEmpty (option_map trim (thr_message err)) with
  | Some m => m
  | None => simpleName err
  end.

Definition invokeErrorFromThrowable (err : Throwable) : InvokeResult :=
  let msg := throwableText err in
  let parts := split2 ":" msg in
  match parts with
  | [p0; p1] =>
      let code := trim p0 in
      let rest := trim p1 in
      if negb (isEmpty code) && allChars isCodeChar code
      then InvokeResult_error code (ifEmpty rest msg)
      else InvokeResult_error "UNAVAILABLE" msg
  | _ => InvokeResult_error "UNAVAILABLE" msg
  end.

(** *** Session state

    A [CompletableDeferred] is an object shared by the caller of [request]
    and by the table [pending]: the deferreds live in a store and both
    sides hold a handle, the index into the store. *)

Inductive DeferredState :=
| Active
| Completed (res : RpcResponse)
| Cancelled.

Record Connection := { remoteAddress : option string }.

(** Calls of the session's callbacks and of the socket, in order. *)
Inductive Effect :=
| OnConnected (serverName : string) (remote : option string)
| OnDisconnected (msg : string)
| OnEvent (event : string) (payload : option string)
| Sent (frame : JsonElement)
| SocketClosed
| Delay (ms : Z).

Record Session := {
  pending : gmap string nat;
  deferreds : list DeferredState;
  canvasHostUrl : option string;
  currentConnection : option Connection;
  desired : option (BridgeEndpoint * Hello);
  log : list Effect
}.

Definition initial : Session :=
  {| pending := ∅; deferreds := []; canvasHostUrl := None;
     currentConnection := None; desired := None; log := [] |}.

Definition emit (e : Effect) (s : Session) : Session :=
  {| pending := pending s; deferreds := deferreds s;
     canvasHostUrl := canvasHostUrl s;
     currentConnection := currentConnection s;
     desired := desired s; log := log s ++ [e] |}.

Definition setCanvasHostUrl (u : option string) (s : Session) : Session :=
  {| pending := pending s; deferreds := deferreds s;
     canvasHostUrl := u;
     currentConnection := currentConnection s;
     desired := desired s; log := log s |}.

Definition setCurrentConnection (c : option Connection) (s : Session) : Session :=
  {| pending := pending s; deferreds := deferreds s;
     canvasHostUrl := canvasHostUrl s;
     currentConnection := c;
     desired := desired s; log := log s |}.

Definition setDesired (d : option (BridgeEndpoint * Hello)) (s : Session) : Session :=
  {| pending := pending s; deferreds := deferreds s;
     canvasHostUrl := canvasHostUrl s;
     currentConnection := currentConnection s;
     desired := d; log := log s |}.

Definition setTable (p : gmap string nat) (ds : list DeferredState)
    (s : Session) : Session :=
  {| pending := p; deferreds := ds;
     canvasHostUrl := canvasHostUrl s;
     currentConnection := currentConnection s;
     desired := desired s; log := log s |}.

(** [conn.sendJson(obj)] *)
Definition sendJson (obj : Fields) (s : Session) : Session :=
  emit (Sent (JsonObject obj)) s.

(** *** connect (lines 71-76); the launch of [runLoop] is scheduling *)
Definition connect (endpoint : BridgeEndpoint) (hello : Hello)
    (s : Session) : Session :=
  setDesired (Some (endpoint, hello)) s.

(** *** request (lines 101-118)

    [request] suspends in [deferred.await()]; it is split at that point:
    [request_begin] runs up to the await with the id drawn by
    [UUID.randomUUID()], [request_await] is what the await delivers for a
    state of the deferred. *)

Definition optString (o : option string) : JsonElement :=
  match o with Some v => str v | None => JsonNull end.

Definition reqFrame (id method : string) (paramsJson : option string) : Fields :=
  [("type", str "req"); ("id", str id); ("method", str method);
   ("paramsJSON", optString paramsJson)].

Definition request_begin (id method : string) (paramsJson : option string)
    (s : Session) : Session * (nat + Throwable) :=
  match currentConnection s with
  | None => (s, inr (IllegalStateException "not connected"))
  | Some _ =>
      let h := length (deferreds s) in
      let s1 := setTable (<[id := h]> (pending s)) (deferreds s ++ [Active]) s in
      (sendJson (reqFrame id method paramsJson) s1, inl h)
  end.

Inductive AwaitOutcome :=
| Suspended
| Returns (payload : string)
| Throws (err : Throwable)
| ThrowsCancellation.

Definition request_await (d : DeferredState) : AwaitOutcome :=
  match d with
  | Active => Suspended
  | Completed res =>
      if rok res then Returns (orEmpty (rpayloadJson res))
      else
        let c := match rerror res with Some e => code e | None => "UNAVAILABLE" end in
        let m := match rerror res with Some e => message e | None => "request failed" end in
        Throws (IllegalStateException (c ++ ": " ++ m))
  | Cancelled => ThrowsCancellation
  end.

(** [deferred.complete(res)] and [deferred.cancel()] act on an active
    deferred only. *)
Definition completeDeferred (h : nat) (res : RpcResponse)
    (ds : list DeferredState) : list DeferredState :=
  match ds !! h with
  | Some Active => <[h := Completed res]> ds
  | _ => ds
  end.

Definition cancelDeferred (h : nat) (ds : list DeferredState)
    : list DeferredState :=
  match ds !! h with
  | Some Active => <[h := Cancelled]> ds
  | _ => ds
  end.

(** [for ((_, waiter) in pending) waiter.cancel()] *)
Definition cancelAll (p : gmap string nat) (ds : list DeferredState)
    : list DeferredState :=
  foldr (fun kv acc => cancelDeferred (snd kv) acc) ds (map_to_list p).

(** *** The [finally] block of connectOnce (lines 295-302) *)
Definition finallyBlock (s : Session) : Session :=
  emit SocketClosed
    (setTable ∅ (cancelAll (pending s) (deferreds s))
       (setCurrentConnection None s)).

Definition errorText (err : Throwable) : string :=
  match thr_message err with
  | Some m => m
  | None => simpleName err
  end.

Definition currentCanvasHostUrl (s : Session) : option string := canvasHostUrl s.

(** *** What arrives on the socket

    Each call of [reader.readLine()] is represented by its outcome, and a
    line by the outcome of [json.parseToJsonElement(line)], which belongs to
    kotlinx.serialization: the element it returns, or the
    [SerializationException] it throws on text that is not JSON. The end
    of the list is the end of the stream ([readLine()] returns null). *)
Inductive Incoming :=
| Frame (e : JsonElement)
| BadJson (err : Throwable)
| ReadFails (err : Throwable).

(** One attempt: whether [socket.connect] throws, the peer's address and
    what the peer sends. *)
Record Wire := {
  connectError : option Throwable;
  remote : option string;
  incoming : list Incoming
}.

(** What the peer does once [disconnect] was called: it sends nothing more
    and keeps the stream open, or it sends lines and the stream then ends
    (or a read fails, as the list says). Lines that arrive before a silence
    are, for the state of the session, lines read before the call. *)
Inductive Stream :=
| StaysSilent
| Delivers (lines : list Incoming).

(** How a block of code is left. *)
Inductive Exit :=
| Normal
| Threw (err : Throwable).

Definition optField (k : string) (o : option string) : Fields :=
  match o with Some v => [(k, str v)] | None => [] end.

Definition optListField (k : string) (o : option (list string)) : Fields :=
  match o with Some l => [(k, JsonArray (map str l))] | None => [] end.

Definition helloFrame (hello : Hello) : Fields :=
  ([("type", str "hello"); ("nodeId", str (nodeId hello))]
    ++ optField "displayName" (displayName hello)
    ++ optField "token" (token hello)
    ++ optField "platform" (platform hello)
    ++ optField "version" (version hello)
    ++ optField "deviceFamily" (deviceFamily hello)
    ++ optField "modelIdentifier" (modelIdentifier hello)
    ++ optListField "caps" (caps hello)
    ++ optListField "commands" (commands hello))%list.

Definition orElse (o : option string) (d : string) : string :=
  match o with Some v => v | None => d end.

(** *** The handshake reply (lines 212-234)

    The server name and the raw canvas host URL of a [hello-ok], or the
    exception thrown. *)
Definition handshake (first : option Incoming)
    : (string * option string) + Throwable :=
  match first with
  | None => inr (IllegalStateException "bridge closed connection")
  | Some (ReadFails err) => inr err
  | Some (BadJson err) => inr err
  | Some (Frame e) =>
      match asObjectOrNull e with
      | None => inr (IllegalStateException "unexpected bridge response")
      | Some first =>
          match asStringOrNull (get first "type") with
          | Some ty =>
              if String.eqb ty "hello-ok" then
                let name := orElse (asStringOrNull (get first "serverName")) "Bridge" in
                let rawCanvasUrl :=
                  takeIfNotEmpty
                    (option_map trim (asStringOrNull (get first "canvasHostUrl"))) in
                inl (name, rawCanvasUrl)
              else if String.eqb ty "error" then
                let code := orElse (asStringOrNull (get first "code")) "UNAVAILABLE" in
                let msg := orElse (asStringOrNull (get first "message")) "connect failed" in
                inr (IllegalStateException (code ++ ": " ++ msg))
              else inr (IllegalStateException "unexpected bridge response")
          | None => inr (IllegalStateException "unexpected bridge response")
          end
      end
  end.

(** *** The [res] branch (lines 249-261) *)

Definition decodeError (frame : Fields) : option ErrorShape :=
  match get frame "error" with
  | Some it =>
      match asObjectOrNull it with
      | None => None
      | Some obj =>
          Some {| code := orElse (asStringOrNull (get obj "code")) "UNAVAILABLE";
                  message := orElse (asStringOrNull (get obj "message")) "request failed" |}
      end
  | None => None
  end.

Definition decodeRes (id : string) (frame : Fields) : RpcResponse :=
  {| rid := id;
     rok := match asBooleanOrNull (get frame "ok") with Some b => b | None => false end;
     rpayloadJson := asStringOrNull (get frame "payloadJSON");
     rerror := decodeError frame |}.

(** [pending.remove(id)?.complete(res)] *)
Definition completePending (id : string) (res : RpcResponse) (s : Session) : Session :=
  match pending s !! id with
  | Some h => setTable (delete id (pending s)) (completeDeferred h res (deferreds s)) s
  | None => s
  end.

Definition invokeResFrame (id : string) (result : InvokeResult) : Fields :=
  ([("type", str "invoke-res"); ("id", str id); ("ok", boolean (ok result))]
    ++ optField "payloadJSON" (payloadJson result)
    ++ match error result with
       | Some e => [("error", JsonObject [("code", str (code e));
                                           ("message", str (message e))])]
       | None => []
       end)%list.

Definition pongFrame (id : string) : Fields :=
  [("type", str "pong"); ("id", str id)].

Section Connection.

Variable parseURI : string -> option URI.

(** The dispatcher given to the session: it returns a result or throws. *)
Variable onInvoke : InvokeRequest -> InvokeResult + Throwable.

Definition invokeResult (req : InvokeRequest) : InvokeResult :=
  match onInvoke req with
  | inl result => result
  | inr err => invokeErrorFromThrowable err
  end.

(** *** The read loop (lines 236-294); [scope.isActive] holds *)
Fixpoint readLoop (s : Session) (input : list Incoming) : Session * Exit :=
  match input with
  | [] => (s, Normal)
  | ReadFails err :: _ => (s, Threw err)
  | BadJson err :: _ => (s, Threw err)
  | Frame e :: rest =>
      match asObjectOrNull e with
      | None => readLoop s rest
      | Some frame =>
          match asStringOrNull (get frame "type") with
          | None => readLoop s rest
          | Some ty =>
              if String.eqb ty "event" then
                match asStringOrNull (get frame "event") with
                | None => (s, Normal)
                | Some event =>
                    readLoop
                      (emit (OnEvent event (asStringOrNull (get frame "payloadJSON"))) s)
                      rest
                end
              else if String.eqb ty "ping" then
                let id := orElse (asStringOrNull (get frame "id")) EmptyString in
                readLoop (sendJson (pongFrame id) s) rest
              else if String.eqb ty "res" then
                match asStringOrNull (get frame "id") with
                | None => readLoop s rest
                | Some id => readLoop (completePending id (decodeRes id frame) s) rest
                end
              else if String.eqb ty "invoke" then
                match asStringOrNull (get frame "id") with
                | None => readLoop s rest
                | Some id =>
                    let command := orElse (asStringOrNull (get frame "command")) EmptyString in
                    let params := asStringOrNull (get frame "paramsJSON") in
                    let result :=
                      invokeResult {| req_id := id; req_command := command;
                                      req_paramsJson := params |} in
                    readLoop (sendJson (invokeResFrame id result) s) rest
                end
              else readLoop s rest
          end
      end
  end.

(** *** The body of the [try] of connectOnce (lines 196-294) *)
Definition session (endpoint : BridgeEndpoint) (hello : Hello) (conn : Connection)
    (input : list Incoming) (s : Session) : Session * Exit :=
  let s1 := sendJson (helloFrame hello) s in
  match handshake (head input) with
  | inr err => (s1, Threw err)
  | inl (name, rawCanvasUrl) =>
      let s2 := setCanvasHostUrl (normalizeCanvasHostUrl parseURI rawCanvasUrl endpoint) s1 in
      let s3 := emit (OnConnected name (remoteAddress conn)) s2 in
      readLoop s3 (tail input)
  end.

(** *** connectOnce (lines 183-303) *)
Definition connectOnce (endpoint : BridgeEndpoint) (hello : Hello) (w : Wire)
    (s : Session) : Session * Exit :=
  match connectError w with
  | Some err => (s, Threw err)
  | None =>
      let conn := {| remoteAddress := remote w |} in
      let s1 := setCurrentConnection (Some conn) s in
      let '(s2, exit) := session endpoint hello conn (incoming w) s1 in
      (finallyBlock s2, exit)
  end.

(** *** disconnect (lines 78-86)

    [disconnect] puts [desired] to null and launches a coroutine that
    cancels the job of [runLoop], waits until that job has ended
    ([cancelAndJoin]) and then clears [canvasHostUrl] and reports
    "Offline". A job that sleeps in [delay] ends at once. A job inside
    [connectOnce] does not: the cancellation does not interrupt the blocking
    [readLine()], the socket has no read timeout (line 188) and
    [disconnect] does not close it, and the loop tests [scope.isActive],
    which the cancellation of the job leaves true. So the read loop goes on
    with the lines that still arrive; when it is left, the [finally] block
    runs, the [catch] of [runLoop] reports the exception [unwinding] with
    which [withContext] returns, and the [delay] after it ends the job. As
    long as the peer keeps the stream open and sends nothing, [readLine()]
    does not return and none of this happens. *)
Definition disconnect (unwinding : Throwable) (stream : Stream) (s : Session)
    : Session :=
  let s1 := setDesired None s in
  match currentConnection s1, stream with
  | None, _ => emit (OnDisconnected "Offline") (setCanvasHostUrl None s1)
  | Some _, StaysSilent => s1
  | Some _, Delivers lines =>
      let s2 := finallyBlock (fst (readLoop s1 lines)) in
      let s3 := emit (OnDisconnected ("Bridge error: " ++ errorText unwinding)) s2 in
      emit (OnDisconnected "Offline") (setCanvasHostUrl None s3)
  end.

(** *** runLoop (lines 145-168) *)

(** [Int] arithmetic wraps. *)
Definition wrap32 (z : Z) : Z := (z + 2 ^ 31) mod 2 ^ 32 - 2 ^ 31.

(** [(350.0 * Math.pow(1.7, attempt.toDouble())).toLong()]: the product
    350 * (17/10)^attempt, cut to a whole number. *)
Definition backoffProduct (attempt : Z) : Z :=
  if 0 <=? attempt then (350 * 17 ^ attempt) / 10 ^ attempt
  else (350 * 10 ^ (- attempt)) / 17 ^ (- attempt).

Definition sleepMs (attempt : Z) : Z := Z.min 8000 (backoffProduct attempt).

(** One turn of the [while] loop; [w] is what the network does if the
    turn dials. *)
Definition runLoopTurn (st : Session * Z) (w : Wire) : Session * Z :=
  let '(s, attempt) := st in
  match desired s with
  | None =>
      let s1 := match currentConnection s with
                | Some _ => emit SocketClosed s
                | None => s
                end in
      (emit (Delay 250) (setCurrentConnection None s1), attempt)
  | Some (endpoint, hello) =>
      let s1 := emit (OnDisconnected
                        (if attempt =? 0 then "Connecting…" else "Reconnecting…")) s in
      match connectOnce endpoint hello w s1 with
      | (s2, Normal) => (s2, 0)
      | (s2, Threw err) =>
          let attempt' := wrap32 (attempt + 1) in
          let s3 := emit (OnDisconnected ("Bridge error: " ++ errorText err)) s2 in
          (emit (Delay (sleepMs attempt')) s3, attempt')
      end
  end.

Definition runLoop (s : Session) (wires : list Wire) : Session * Z :=
  fold_left runLoopTurn wires (s, 0).

End Connection.

(** *** Frames as the gateway writes them, and sample data *)

Definition helloOkFrame (serverName : string) (canvasUrl : option string)
    : JsonElement :=
  JsonObject ([("type", str "hello-ok"); ("serverName", str serverName)]
                ++ optField "canvasHostUrl" canvasUrl)%list.

Definition pingFrame (id : string) : JsonElement :=
  JsonObject [("type", str "ping"); ("id", str id)].

Definition resFrame (res : RpcResponse) : JsonElement :=
  JsonObject ([("type", str "res"); ("id", str (rid res)); ("ok", boolean (rok res))]
                ++ optField "payloadJSON" (rpayloadJson res)
                ++ match rerror res with
                   | Some e => [("error", JsonObject [("code", str (code e));
                                                       ("message", str (message e))])]
                   | None => []
                   end)%list.

Definition sampleHello : Hello :=
  {| nodeId := "n1"; displayName := None; token := None; platform := None;
     version := None; deviceFamily := None; modelIdentifier := None;
     caps := None; commands := None |}.

Definition noInvoke (req : InvokeRequest) : InvokeResult + Throwable :=
  inl (InvokeResult_ok None).

Definition delays (l : list Effect) : list Z :=
  omap (fun e => match e with Delay ms => Some ms | _ => None end) l.

Definition connectedEvents (l : list Effect) : list Effect :=
  List.filter (fun e => match e with OnConnected _ _ => true | _ => false end) l.

(** *** The correlation table's invariant: every entry holds an active
    deferred, and no two ids share one. *)
Definition tableInv (s : Session) : Prop :=
  (forall id h, pending s !! id = Some h -> deferreds s !! h = Some Active)
  /\ (forall id1 id2 h,
        pending s !! id1 = Some h -> pending s !! id2 = Some h -> id1 = id2).

(** [request] called once per entry of [reqs] (id, method, params), up to
    the await: the session and the callers' handles. *)
Fixpoint registerAll (reqs : list (string * string * option string))
    (s : Session) : Session * list nat :=
  match reqs with
  | [] => (s, [])
  | (id, method, params) :: rest =>
      match request_begin id method params s with
      | (s1, inl h) => let '(s2, hs) := registerAll rest s1 in (s2, h :: hs)
      | (s1, inr _) => (s1, [])
      end
  end.

(** What [cancel()] makes of a deferred. *)
Definition cancelledState (d : DeferredState) : DeferredState :=
  match d with
  | Active => Cancelled
  | other => other
  end.

(** What the caller holding handle [h] gets from its await. *)
Definition awaitOf (s : Session) (h : nat) : option AwaitOutcome :=
  request_await <$> deferreds s !! h.

(** Every request in the table is still waiting. *)
Definition outstanding (s : Session) : Prop :=
  forall id h, pending s !! id = Some h -> awaitOf s h = Some Suspended.

(** A waiter of the table stays in the table, still waiting, or has been
    completed by a response. *)
Definition waiterKept (id : string) (h : nat) (s : Session) : Prop :=
  tableInv s
  /\ (pending s !! id = Some h
      \/ exists res, deferreds s !! h = Some (Completed res)).

(** The [res] branch of the read loop, once per response. *)
Definition completeAll (rs : list RpcResponse) (s : Session) : Session :=
  fold_left (fun acc r => completePending (rid r) r acc) rs s.

Definition requestIds (reqs : list (string * string * option string)) : list string :=
  map (fun q => fst (fst q)) reqs.

(** A connected session, and the same with two requests waiting. *)
Definition connectedSession : Session :=
  setCurrentConnection (Some {| remoteAddress := Some "10.0.0.2:18790" |}) initial.

Definition twoRequests : list (string * string * option string) :=
  [("a", "voicewake.get", Some "{}"); ("b", "voicewake.set", None)].

Definition twoPending : Session := fst (registerAll twoRequests connectedSession).

Definition responseFor (id payload : string) : RpcResponse :=
  {| rid := id; rok := true; rpayloadJson := Some payload; rerror := None |}.

(** *** Sample exceptions and sample behaviours of the network *)

Definition connectException : Throwable :=
  {| simpleName := "ConnectException"; thr_message := Some "Connection refused" |}.

Definition socketException : Throwable :=
  {| simpleName := "SocketException"; thr_message := Some "Connection reset" |}.

Definition cancellationException : Throwable :=
  {| simpleName := "JobCancellationException";
     thr_message := Some "StandaloneCoroutine was cancelled" |}.

Definition jsonDecodingException : Throwable :=
  {| simpleName := "JsonDecodingException";
     thr_message := Some "Unexpected JSON token at offset 0" |}.

Definition gatewayAddress : option string := Some "10.0.0.2:18790".

(** The gateway refuses the connection. *)
Definition wireRefused : Wire :=
  {| connectError := Some connectException; remote := None; incoming := [] |}.

(** The gateway answers [hello-ok], then the connection is reset. *)
Definition wireReset : Wire :=
  {| connectError := None; remote := gatewayAddress;
     incoming := [Frame (helloOkFrame "gw" (Some "http://10.0.0.5:18793"));
                  ReadFails socketException] |}.

(** The gateway answers [hello-ok], then sends a line that is not JSON,
    then a ping. *)
Definition wireBadLine : Wire :=
  {| connectError := None; remote := gatewayAddress;
     incoming := [Frame (helloOkFrame "gw" None);
                  BadJson jsonDecodingException;
                  Frame (pingFrame "p1")] |}.

(** The gateway answers [hello-ok], then closes the stream. *)
Definition wireClosed : Wire :=
  {| connectError := None; remote := gatewayAddress;
     incoming := [Frame (helloOkFrame "gw" None)] |}.

(** The gateway answers with an [error] frame. *)
Definition rejection : Fields :=
  [("type", str "error"); ("code", str "NOT_PAIRED");
   ("message", str "pairing required")].

Definition wireRejected : Wire :=
  {| connectError := None; remote := gatewayAddress;
     incoming := [Frame (JsonObject rejection)] |}.

(** A session that wants the endpoint of the specification's examples. *)
Definition desiredSession : Session := connect endpointB sampleHello initial.

Definition int32Max : Z := 2 ^ 31 - 1.

End Bridge.

(* ===================================================================== *)
(** ** Types shared by the Swift dispatchers (ClawdisKit)                 *)
(* ===================================================================== *)

Module Kit.

(** Modelled from the spec: the enum [ClawdisNodeErrorCode] is declared in
    ClawdisKit. Its cases here are the ones the dispatchers use; their wire
    names are the codes of section 7 of the specification. *)
Inductive ClawdisNodeErrorCode :=
| backgroundUnavailable
| invalidRequest
| unavailable.

Definition rawValue (c : ClawdisNodeErrorCode) : string :=
  match c with
  | backgroundUnavailable => "NODE_BACKGROUND_UNAVAILABLE"
  | invalidRequest => "INVALID_REQUEST"
  | unavailable => "UNAVAILABLE"
  end.

Record ClawdisNodeError := {
  code : ClawdisNodeErrorCode;
  message : string
}.

Record BridgeInvokeRequest := {
  id : string;
  command : string;
  paramsJSON : option string
}.

Record BridgeInvokeResponse := {
  res_id : string;
  ok : bool;
  payloadJSON : option string;
  error : option ClawdisNodeError
}.

Definition okResponse (req : BridgeInvokeRequest) (payload : option string)
    : BridgeInvokeResponse :=
  {| res_id := id req; ok := true; payloadJSON := payload; error := None |}.

Definition errorResponse (req : BridgeInvokeRequest)
    (c : ClawdisNodeErrorCode) (m : string) : BridgeInvokeResponse :=
  {| res_id := id req; ok := false; payloadJSON := None;
     error := Some {| code := c; message := m |} |}.

(** Modelled from the spec: the raw values of the command enums of
    ClawdisKit are the command names of section 6 of the specification. *)
Definition canvasHide : string := "canvas.hide".
Definition canvasSnapshot : string := "canvas.snapshot".
Definition cameraSnap : string := "camera.snap".
Definition cameraClip : string := "camera.clip".

Inductive ClawdisCanvasSnapshotFormat := png | jpeg.

(** [Double] values are compared and passed on, never computed with: they
    are modelled by the rationals they denote. *)
Record ClawdisCanvasSnapshotParams := {
  format : option ClawdisCanvasSnapshotFormat;
  maxWidth : option Z;
  quality : option Q
}.

Definition formatName (f : ClawdisCanvasSnapshotFormat) : string :=
  match f with jpeg => "jpeg" | png => "png" end.

Definition hasPrefix (s p : string) : bool := String.prefix p s.

(** Swift's [min(x, y)] is [y < x ? y : x], [max(x, y)] is
    [y >= x ? y : x]. *)
Definition swiftMin (x y : Q) : Q := if Qle_bool x y then x else y.
Definition swiftMax (x y : Q) : Q := if Qle_bool x y then y else x.

(** What the dispatchers read of a thrown [Error]: its
    [localizedDescription] and, for a [LocalizedError], its
    [errorDescription]. *)
Record SwiftError := {
  localizedDescription : string;
  errorDescription : option string
}.

Definition plainError (description : string) : SwiftError :=
  {| localizedDescription := description; errorDescription := None |}.

(** A value or the error thrown. *)
Definition Throwing (A : Type) : Type := A + SwiftError.


(** The code of the error of a response, as it goes on the wire. *)
Definition errorCodeName (r : BridgeInvokeResponse) : option string :=
  option_map (fun e => rawValue (code e)) (error r).

End Kit.

(* ===================================================================== *)
(** ** The iOS dispatcher (NodeAppModel.swift, lines 401-671)             *)
(* ===================================================================== *)

Module IOS.
Import Kit.

(** Calls the dispatcher makes, in order. *)
Inductive Call :=
| DecodeParams (json : option string)
| ShowCameraHUD (text : string)
| TriggerCameraFlash
| CameraSnap
| CameraClip
| SuspendVoiceWake
| ResumeVoiceWake (wasSuspended : bool)
| SnapshotBase64 (maxWidth : option Z) (fmt : ClawdisCanvasSnapshotFormat)
                 (quality : option Q)
| EncodePayload.

(** What the dispatcher encodes as [payloadJSON]. *)
Inductive Payload (Capture : Type) :=
| SnapshotPayload (fmt base64 : string)
| CapturePayload (res : Capture).
Arguments SnapshotPayload {Capture}.
Arguments CapturePayload {Capture}.


(** The model's state read by the dispatcher: [isBackgrounded] and the
    stored preference [camera.enabled] (absent until it is first set). *)
Record State := {
  isBackgrounded : bool;
  cameraEnabledPref : option bool
}.

(** What the dispatcher calls: the parameter types of ClawdisKit with
    their decoders ([JSONDecoder().decode]; [None] when it throws), the
    camera, the voice-wake manager, the screen and the payload encoder. *)
Record Services := {
  SnapParams : Type;
  ClipParams : Type;
  Capture : Type;
  defaultSnapParams : SnapParams;
  defaultClipParams : ClipParams;
  includeAudio : ClipParams -> option bool;
  decodeSnapshotParams : string -> option ClawdisCanvasSnapshotParams;
  decodeSnapParams : string -> option SnapParams;
  decodeClipParams : string -> option ClipParams;
  cameraSnapService : SnapParams -> Throwing Capture;
  cameraClipService : ClipParams -> Throwing Capture;
  suspendForExternalAudioCapture : bool;
  snapshotBase64 :
    option Z -> ClawdisCanvasSnapshotFormat -> option Q -> Throwing string;
  encodePayload : Payload Capture -> Throwing string;
  (** The cases of the [switch] for [canvas.present], [canvas.navigate],
      [canvas.evalJS], [canvas.a2ui.*] and [screen.record]; [None] for a
      command that is none of them. *)
  otherCases : BridgeInvokeRequest -> option (list Call * BridgeInvokeResponse)
}.

Section Dispatcher.

Variable sv : Services.
Variable st : State.

Definition isCameraEnabled : bool :=
  match cameraEnabledPref st with
  | None => true
  | Some b => b
  end.

(** [Self.decodeParams(_:from:)] (lines 648-655): it throws on a missing
    [paramsJSON] and when the decoder throws. *)
Definition decodeParams {T : Type} (decoder : string -> option T)
    (json : option string) : list Call * option T :=
  ([DecodeParams json],
   match json with
   | Some j => decoder j
   | None => None
   end).

(** The [catch] of handleInvoke (lines 636-645). *)
Definition caught (req : BridgeInvokeRequest) (calls : list Call)
    (err : SwiftError) : list Call * BridgeInvokeResponse :=
  let text := match errorDescription err with
              | Some d => d
              | None => localizedDescription err
              end in
  ((calls ++ if hasPrefix (command req) "camera."
             then [ShowCameraHUD text] else [])%list,
   errorResponse req unavailable (localizedDescription err)).

Definition snapshotCase (req : BridgeInvokeRequest)
    : list Call * BridgeInvokeResponse :=
  let '(c1, params) := decodeParams (decodeSnapshotParams sv) (paramsJSON req) in
  let fmt := match params ≫= format with Some f => f | None => jpeg end in
  let maxW : option Z :=
    match params ≫= maxWidth with
    | Some raw => if 0 <? raw then Some raw
                  else Some (match fmt with png => 900 | jpeg => 1600 end)
    | None => Some (match fmt with png => 900 | jpeg => 1600 end)
    end in
  let q := params ≫= quality in
  let c2 := (c1 ++ [SnapshotBase64 maxW fmt q])%list in
  match snapshotBase64 sv maxW fmt q with
  | inr e => caught req c2 e
  | inl base64 =>
      let c3 := (c2 ++ [EncodePayload])%list in
      match encodePayload sv (SnapshotPayload (formatName fmt) base64) with
      | inr e => caught req c3 e
      | inl payload => (c3, okResponse req (Some payload))
      end
  end.

Definition snapCase (req : BridgeInvokeRequest)
    : list Call * BridgeInvokeResponse :=
  let c0 := [ShowCameraHUD "Taking photo…"; TriggerCameraFlash] in
  let '(c1, decoded) := decodeParams (decodeSnapParams sv) (paramsJSON req) in
  let params := match decoded with Some p => p | None => defaultSnapParams sv end in
  let c2 := (c0 ++ c1 ++ [CameraSnap])%list in
  match cameraSnapService sv params with
  | inr e => caught req c2 e
  | inl res =>
      let c3 := (c2 ++ [EncodePayload])%list in
      match encodePayload sv (CapturePayload res) with
      | inr e => caught req c3 e
      | inl payload =>
          ((c3 ++ [ShowCameraHUD "Photo captured"])%list,
           okResponse req (Some payload))
      end
  end.

Definition clipCase (req : BridgeInvokeRequest)
    : list Call * BridgeInvokeResponse :=
  let '(c1, decoded) := decodeParams (decodeClipParams sv) (paramsJSON req) in
  let params := match decoded with Some p => p | None => defaultClipParams sv end in
  let wantsAudio := match includeAudio sv params with Some b => b | None => true end in
  let suspended := if wantsAudio then suspendForExternalAudioCapture sv else false in
  let c2 := (c1 ++ (if wantsAudio then [SuspendVoiceWake] else [])
               ++ [ShowCameraHUD "Recording…"; CameraClip])%list in
  (** [defer] runs when the [do] block is left, before the [catch]. *)
  let resume := [ResumeVoiceWake suspended] in
  match cameraClipService sv params with
  | inr e => caught req (c2 ++ resume)%list e
  | inl res =>
      let c3 := (c2 ++ [EncodePayload])%list in
      match encodePayload sv (CapturePayload res) with
      | inr e => caught req (c3 ++ resume)%list e
      | inl payload =>
          ((c3 ++ [ShowCameraHUD "Clip captured"] ++ resume)%list,
           okResponse req (Some payload))
      end
  end.

Definition handleInvoke (req : BridgeInvokeRequest)
    : list Call * BridgeInvokeResponse :=
  let command := command req in
  if (hasPrefix command "canvas." || hasPrefix command "camera."
      || hasPrefix command "screen.") && isBackgrounded st
  then
    ([], errorResponse req backgroundUnavailable
           "NODE_BACKGROUND_UNAVAILABLE: canvas/camera/screen commands require foreground")
  else if hasPrefix command "camera." && negb isCameraEnabled
  then
    ([], errorResponse req unavailable
           "CAMERA_DISABLED: enable Camera in iOS Settings → Camera → Allow Camera")
  else if String.eqb command canvasHide then ([], okResponse req None)
  else if String.eqb command canvasSnapshot then snapshotCase req
  else if String.eqb command cameraSnap then snapCase req
  else if String.eqb command cameraClip then clipCase req
  else
    match otherCases sv req with
    | Some r => r
    | None => ([], errorResponse req invalidRequest "INVALID_REQUEST: unknown command")
    end.

End Dispatcher.

(** Services for the examples: every capability succeeds. *)
Definition sampleServices : Services :=
  {| SnapParams := unit; ClipParams := unit; Capture := unit;
     defaultSnapParams := tt; defaultClipParams := tt;
     includeAudio := fun _ => None;
     decodeSnapshotParams := fun _ => None;
     decodeSnapParams := fun _ => Some tt;
     decodeClipParams := fun _ => Some tt;
     cameraSnapService := fun _ => inl tt;
     cameraClipService := fun _ => inl tt;
     suspendForExternalAudioCapture := true;
     snapshotBase64 := fun _ _ _ => inl "AAAA";
     encodePayload := fun _ => inl "{}";
     otherCases := fun _ => None |}.

Definition request (command : string) : BridgeInvokeRequest :=
  {| id := "1"; Kit.command := command; paramsJSON := Some "{}" |}.

(** *** The reconnection loop of connectToBridge (lines 200-259)

    One turn of the loop, given how [bridge.connect] ended: the status
    shown before dialling, the counter after the turn and the sleep in
    seconds (as an exact rational), [min(6.0, 0.35 * pow(1.7, attempt))]
    after a return and [min(8.0, 0.5 * pow(1.7, attempt))] after a throw. *)
Inductive ConnectEnd :=
| ConnectReturned
| ConnectThrew (err : SwiftError).

Definition superviseTurn (attempt : Z) (e : ConnectEnd) : string * Z * Q :=
  let status := if attempt =? 0 then "Connecting…" else "Reconnecting…" in
  let attempt' := attempt + 1 in
  match e with
  | ConnectReturned =>
      (status, attempt', swiftMin 6 ((35 # 100) * (17 # 10) ^ attempt'))
  | ConnectThrew _ =>
      (status, attempt', swiftMin 8 ((5 # 10) * (17 # 10) ^ attempt'))
  end.

End IOS.

(* ===================================================================== *)
(** ** The macOS dispatcher (MacNodeRuntime, handleInvoke and helpers)    *)
(* ===================================================================== *)

Module Mac.
Import Kit.

(** Calls the dispatcher makes, in order. *)
Inductive Call :=
| DecodeParams (json : option string)
| CanvasSnapshot
| ReadFile
| RemoveFile
| DecodeImage
| ScaleImage (maxWidth : option Z)
| BitmapRep
| Representation (fmt : ClawdisCanvasSnapshotFormat) (compressionFactor : option Q)
| CameraSnap
| CameraClip
| EncodePayload.

Inductive Payload (Capture : Type) :=
| SnapshotPayload (fmt base64 : string)
| CapturePayload (res : Capture).
Arguments SnapshotPayload {Capture}.
Arguments CapturePayload {Capture}.

(** The stored preferences read by [canvasEnabled()] and
    [cameraEnabled()] (lines 391-397); absent until first set. *)
Record State := {
  canvasEnabledPref : option bool;
  cameraEnabledPref : option bool
}.

(** What the dispatcher calls: the parameter types of ClawdisKit with
    their decoders ([None] when the decoder throws), CanvasManager, the
    file system, AppKit, the camera service and the payload encoder. *)
Record Services := {
  SnapParams : Type;
  ClipParams : Type;
  Capture : Type;
  Image : Type;
  Rep : Type;
  Data : Type;
  defaultSnapParams : SnapParams;
  defaultClipParams : ClipParams;
  decodeSnapshotParams : string -> option ClawdisCanvasSnapshotParams;
  decodeSnapParams : string -> option SnapParams;
  decodeClipParams : string -> option ClipParams;
  canvasSnapshotService : Throwing string;
  contentsOf : string -> Throwing Data;
  imageOfData : Data -> option Image;
  imageWidth : Image -> Q;
  drawScaled : Image -> Z -> Image;
  bitmapRep : Image -> option Rep;
  representation :
    Rep -> ClawdisCanvasSnapshotFormat -> option Q -> option Data;
  base64EncodedString : Data -> string;
  cameraSnapService : SnapParams -> Throwing Capture;
  cameraClipService : ClipParams -> Throwing (string * Capture);
  encodePayload : Payload Capture -> Throwing string;
  (** The cases of the [switch] for [canvas.present], [canvas.hide],
      [canvas.navigate], [canvas.evalJS], [canvas.a2ui.*], [screen.record],
      [system.run] and [system.notify]; [None] for a command that is none
      of them. *)
  otherCases : BridgeInvokeRequest -> option (list Call * BridgeInvokeResponse)
}.

Section Dispatcher.

Variable sv : Services.
Variable st : State.

Definition canvasEnabled : bool :=
  match canvasEnabledPref st with Some b => b | None => true end.

Definition cameraEnabled : bool :=
  match cameraEnabledPref st with Some b => b | None => false end.

Definition decodeParams {T : Type} (decoder : string -> option T)
    (json : option string) : list Call * option T :=
  ([DecodeParams json],
   match json with
   | Some j => decoder j
   | None => None
   end).

(** The [catch] of handleInvoke (lines 197-199). *)
Definition caught (req : BridgeInvokeRequest) (calls : list Call)
    (err : SwiftError) : list Call * BridgeInvokeResponse :=
  (calls, errorResponse req unavailable (localizedDescription err)).

(** scaleImage (lines 447-463) *)
Definition scaleImage (image : Image sv) (maxW : option Z) : Image sv :=
  match maxW with
  | Some w =>
      if 0 <? w then
        if negb (Qle_bool (imageWidth sv image) 0)
           && negb (Qle_bool (imageWidth sv image) (inject_Z w))
        then drawScaled sv image w
        else image
      else image
  | None => image
  end.

(** encodeCanvasSnapshot (lines 410-445) *)
Definition encodeCanvasSnapshot (image : Image sv)
    (fmt : ClawdisCanvasSnapshotFormat) (maxW : option Z) (q : Q)
    : list Call * Throwing (Data sv) :=
  let source := scaleImage image maxW in
  let c1 := [ScaleImage maxW; BitmapRep] in
  match bitmapRep sv source with
  | None => (c1, inr (plainError "snapshot encode failed"))
  | Some rep =>
      match fmt with
      | png =>
          ((c1 ++ [Representation png None])%list,
           match representation sv rep png None with
           | Some data => inl data
           | None => inr (plainError "png encode failed")
           end)
      | jpeg =>
          let clamped := swiftMin 1 (swiftMax (5 # 100) q) in
          ((c1 ++ [Representation jpeg (Some clamped)])%list,
           match representation sv rep jpeg (Some clamped) with
           | Some data => inl data
           | None => inr (plainError "jpeg encode failed")
           end)
      end
  end.

Definition snapshotCase (req : BridgeInvokeRequest)
    : list Call * BridgeInvokeResponse :=
  let '(c1, params) := decodeParams (decodeSnapshotParams sv) (paramsJSON req) in
  let fmt := match params ≫= format with Some f => f | None => jpeg end in
  let maxW : option Z :=
    match params ≫= maxWidth with
    | Some raw => if 0 <? raw then Some raw
                  else Some (match fmt with png => 900 | jpeg => 1600 end)
    | None => Some (match fmt with png => 900 | jpeg => 1600 end)
    end in
  let q := match params ≫= quality with Some v => v | None => 9 # 10 end in
  let c2 := (c1 ++ [CanvasSnapshot])%list in
  match canvasSnapshotService sv with
  | inr e => caught req c2 e
  | inl path =>
      (** from here on [defer] removes the file when the case is left *)
      let c3 := (c2 ++ [ReadFile])%list in
      match contentsOf sv path with
      | inr e => caught req (c3 ++ [RemoveFile])%list e
      | inl data =>
          let c4 := (c3 ++ [DecodeImage])%list in
          match imageOfData sv data with
          | None =>
              ((c4 ++ [RemoveFile])%list,
               errorResponse req unavailable "canvas snapshot decode failed")
          | Some image =>
              let '(ce, encoded) := encodeCanvasSnapshot image fmt maxW q in
              let c5 := (c4 ++ ce)%list in
              match encoded with
              | inr e => caught req (c5 ++ [RemoveFile])%list e
              | inl bytes =>
                  let c6 := (c5 ++ [EncodePayload])%list in
                  match encodePayload sv
                          (SnapshotPayload (formatName fmt)
                             (base64EncodedString sv bytes)) with
                  | inr e => caught req (c6 ++ [RemoveFile])%list e
                  | inl payload =>
                      ((c6 ++ [RemoveFile])%list, okResponse req (Some payload))
                  end
              end
          end
      end
  end.

Definition cameraDisabled (req : BridgeInvokeRequest) : BridgeInvokeResponse :=
  errorResponse req unavailable "CAMERA_DISABLED: enable Camera in Settings".

Definition snapCase (req : BridgeInvokeRequest)
    : list Call * BridgeInvokeResponse :=
  if negb cameraEnabled then ([], cameraDisabled req)
  else
    let '(c1, decoded) := decodeParams (decodeSnapParams sv) (paramsJSON req) in
    let params := match decoded with Some p => p | None => defaultSnapParams sv end in
    let c2 := (c1 ++ [CameraSnap])%list in
    match cameraSnapService sv params with
    | inr e => caught req c2 e
    | inl res =>
        let c3 := (c2 ++ [EncodePayload])%list in
        match encodePayload sv (CapturePayload res) with
        | inr e => caught req c3 e
        | inl payload => (c3, okResponse req (Some payload))
        end
    end.

Definition clipCase (req : BridgeInvokeRequest)
    : list Call * BridgeInvokeResponse :=
  if negb cameraEnabled then ([], cameraDisabled req)
  else
    let '(c1, decoded) := decodeParams (decodeClipParams sv) (paramsJSON req) in
    let params := match decoded with Some p => p | None => defaultClipParams sv end in
    let c2 := (c1 ++ [CameraClip])%list in
    match cameraClipService sv params with
    | inr e => caught req c2 e
    | inl (path, res) =>
        let c3 := (c2 ++ [ReadFile])%list in
        match contentsOf sv path with
        | inr e => caught req (c3 ++ [RemoveFile])%list e
        | inl _ =>
            let c4 := (c3 ++ [EncodePayload])%list in
            match encodePayload sv (CapturePayload res) with
            | inr e => caught req (c4 ++ [RemoveFile])%list e
            | inl payload => ((c4 ++ [RemoveFile])%list, okResponse req (Some payload))
            end
        end
    end.

Definition handleInvoke (req : BridgeInvokeRequest)
    : list Call * BridgeInvokeResponse :=
  let command := command req in
  if (hasPrefix command "canvas." || hasPrefix command "canvas.a2ui.")
     && negb canvasEnabled
  then
    ([], errorResponse req unavailable "CANVAS_DISABLED: enable Canvas in Settings")
  else if String.eqb command canvasSnapshot then snapshotCase req
  else if String.eqb command cameraSnap then snapCase req
  else if String.eqb command cameraClip then clipCase req
  else
    match otherCases sv req with
    | Some r => r
    | None => ([], errorResponse req invalidRequest "INVALID_REQUEST: unknown command")
    end.

End Dispatcher.

(** Services for the examples: every capability succeeds; the snapshot
    parameters are decoded from a fixed table (the keys stand for the JSON
    texts, written with single quotes). *)
Definition sampleParams (json : string) : option ClawdisCanvasSnapshotParams :=
  if String.eqb json "{}" then
    Some {| format := None; maxWidth := None; quality := None |}
  else if String.eqb json "{'format':'png','maxWidth':0}" then
    Some {| format := Some png; maxWidth := Some 0; quality := None |}
  else if String.eqb json "{'quality':7}" then
    Some {| format := None; maxWidth := None; quality := Some (7 # 1) |}
  else None.

Definition sampleServices : Services :=
  {| SnapParams := unit; ClipParams := unit; Capture := unit;
     Image := unit; Rep := unit; Data := unit;
     defaultSnapParams := tt; defaultClipParams := tt;
     decodeSnapshotParams := sampleParams;
     decodeSnapParams := fun _ => Some tt;
     decodeClipParams := fun _ => Some tt;
     canvasSnapshotService := inl "/tmp/snapshot.png";
     contentsOf := fun _ => inl tt;
     imageOfData := fun _ => Some tt;
     imageWidth := fun _ => 2000 # 1;
     drawScaled := fun _ _ => tt;
     bitmapRep := fun _ => Some tt;
     representation := fun _ _ _ => Some tt;
     base64EncodedString := fun _ => "AAAA";
     cameraSnapService := fun _ => inl tt;
     cameraClipService := fun _ => inl ("/tmp/clip.mp4", tt);
     encodePayload := fun _ => inl "{}";
     otherCases := fun _ => None |}.

Definition request (command : string) (params : option string)
    : BridgeInvokeRequest :=
  {| id := "1"; Kit.command := command; paramsJSON := params |}.

Definition defaults : State :=
  {| canvasEnabledPref := None; cameraEnabledPref := None |}.

End Mac.

(* ===================================================================== *)
(** ** The session's other entry points (BridgeSession.kt, lines 90-99)   *)
(* ===================================================================== *)

Module BridgeCalls.
Import Text Json Canvas Bridge.

Definition eventFrame (event : string) (payloadJson : option string) : Fields :=
  [("type", str "event"); ("event", str event);
   ("payloadJSON", optString payloadJson)].

(** sendEvent (lines 90-99) *)
Definition sendEvent (event : string) (payloadJson : option string)
    (s : Session) : Session :=
  match currentConnection s with
  | None => s
  | Some _ => sendJson (eventFrame event payloadJson) s
  end.

(** The effects a read loop may have: calls of [onEvent] and frames
    written. *)
Definition frameEffect (e : Effect) : Prop :=
  match e with
  | OnEvent _ _ | Sent _ => True
  | _ => False
  end.

Definition resolved (d : DeferredState) : Prop := d <> Active.

(** The sleeps of [runLoop]: the idle poll, or a backoff between the first
    step and the cap. *)
Definition supervisorDelay (ms : Z) : Prop := ms = 250 \/ 595 <= ms <= 8000.

End BridgeCalls.


(* ===================================================================== *)
(** ** Swift text and the effects of a dispatcher case                    *)
(* ===================================================================== *)

Module SwiftText.

(** [CharacterSet.whitespacesAndNewlines]: the separators of Unicode (Zs,
    Zl, Zp), TAB..CR and NEL (U+0085). *)
Definition isWhitespaceOrNewline (cp : N) : bool :=
  ((9 <=? cp) && (cp <=? 13) || (cp =? 32) || (cp =? 133)
   || (cp =? 160) || (cp =? 5760) || (8192 <=? cp) && (cp <=? 8202)
   || (cp =? 8232) || (cp =? 8233) || (cp =? 8239) || (cp =? 8287)
   || (cp =? 12288))%N.

(** [s.trimmingCharacters(in: .whitespacesAndNewlines)] *)
Definition trimmingWhitespace (s : string) : string :=
  Text.trimBy isWhitespaceOrNewline s.

(** [s.lowercased()] *)
Definition lowercased (s : string) : string := Text.lowercase s.

End SwiftText.

(** A case of a dispatcher calls the world and may throw. [Run A] is a
    computation that, given the calls made before it, makes calls of its
    own and returns a value or the error thrown; the world may answer a
    call according to what was done before. *)
Module Effects.
Import Kit.

Section Run.

Context {Call : Type}.

Definition Run (A : Type) : Type := list Call -> list Call * Throwing A.

Definition ret {A : Type} (a : A) : Run A := fun _ => ([], inl a).

Definition throw {A : Type} (e : SwiftError) : Run A := fun _ => ([], inr e).

Definition bind {A B : Type} (m : Run A) (f : A -> Run B) : Run B :=
  fun before =>
    match m before with
    | (c1, inl a) =>
        let '(c2, r) := f a (before ++ c1)%list in ((c1 ++ c2)%list, r)
    | (c1, inr e) => (c1, inr e)
    end.

(** A call, with the answer of the world. *)
Definition call {A : Type} (c : Call) (answer : list Call -> Throwing A) : Run A :=
  fun before => ([c], answer before).

(** A call that cannot throw. *)
Definition perform {A : Type} (c : Call) (answer : A) : Run A :=
  fun _ => ([c], inl answer).

(** [try? m] *)
Definition tryOptional {A : Type} (m : Run A) : Run (option A) :=
  fun before =>
    match m before with
    | (c, inl a) => (c, inl (Some a))
    | (c, inr _) => (c, inl None)
    end.

(** [do { m } catch { handler }] *)
Definition catching {A : Type} (m : Run A) (handler : SwiftError -> Run A) : Run A :=
  fun before =>
    match m before with
    | (c1, inl a) => (c1, inl a)
    | (c1, inr e) =>
        let '(c2, r) := handler e (before ++ c1)%list in ((c1 ++ c2)%list, r)
    end.

(** [defer { cleanup }; m]: the cleanup runs when [m] is left, by a return
    or by a throw. *)
Definition deferring {A : Type} (cleanup : list Call) (m : Run A) : Run A :=
  fun before => let '(c, r) := m before in ((c ++ cleanup)%list, r).

(** A value or error already at hand. *)
Definition lift {A : Type} (r : Throwing A) : Run A := fun _ => ([], r).

(** Every call a computation makes satisfies [Q]. *)
Definition callsAll {A : Type} (Q : Call -> Prop) (m : Run A) : Prop :=
  forall before, Forall Q (fst (m before)).

(** Every value a computation returns satisfies [P]. *)
Definition yields {A : Type} (P : A -> Prop) (m : Run A) : Prop :=
  forall before a, snd (m before) = inl a -> P a.

End Run.

Declare Scope run_scope.
Delimit Scope run_scope with run.
Notation "'let*' x := m 'in' k" := (bind m (fun x => k))
  (at level 10, x binder, m at level 100, k at level 200) : run_scope.

End Effects.

(* ===================================================================== *)
(** ** MacNodeRuntime: the whole dispatcher (lines 11-389)                *)
(* ===================================================================== *)

Module MacRuntime.
Import Kit SwiftText Effects.

(** Modelled from the spec: the raw values of the command enums, as
    section 6 of the specification lists the command surface. *)
Definition canvasPresent : string := "canvas.present".
Definition canvasNavigate : string := "canvas.navigate".
Definition canvasEvalJS : string := "canvas.evalJS".
Definition canvasA2UIReset : string := "canvas.a2ui.reset".
Definition canvasA2UIPush : string := "canvas.a2ui.push".
Definition canvasA2UIPushJSONL : string := "canvas.a2ui.pushJSONL".
Definition screenRecord : string := "screen.record".
Definition systemRun : string := "system.run".
Definition systemNotify : string := "system.notify".

(** The JavaScript texts the runtime hands to [CanvasManager.eval]: the
    readiness probe of isA2UIReady, the reset script, the script that
    applies [messagesJSON], and the text of a [canvas.evalJS] request. *)
Inductive Script :=
| ReadyProbe
| ResetScript
| ApplyMessages (messagesJSON : string)
| UserScript (javaScript : string).

(** The cases of [NotificationDelivery] of the [switch] of
    handleSystemNotify. *)
Inductive NotificationDelivery :=
| DeliverySystem
| DeliveryOverlay
| DeliveryAuto.

(** Calls the runtime makes, in order; [Base] for those of the cases
    embedded in [Mac]. *)
Inductive Call :=
| Base (c : Mac.Call)
| ShowDetailed (target : option string)
| Hide
| ShowPath (path : string)
| Evaluate (js : Script)
| CanvasHostUrl
| Sleep (nanoseconds : Z)
| ScreenRecord
| PermissionStatus
| RunDetailed (timeout : option Q)
| NotificationSend (title body : string)
| OverlayPresent (title body : string).

(** What the runtime calls besides the services of [Mac]: the parameter
    types of ClawdisKit with the fields the code reads and their decoders,
    CanvasManager, GatewayConnection, Foundation's URL, the clock of the
    polling loop, the screen recorder, PermissionManager, ShellExecutor,
    NotificationManager and the payload encoder. The answer to a script
    depends on what was done before: the page loads while the runtime
    waits. *)
Record Services := {
  base : Mac.Services;
  PresentParams : Type;
  ScreenRecordParams : Type;
  RunParams : Type;
  NotifyParams : Type;
  Messages : Type;
  Recording : Type;
  RunResult : Type;
  defaultPresentParams : PresentParams;
  defaultScreenRecordParams : ScreenRecordParams;
  presentUrl : PresentParams -> option string;
  recordFormat : ScreenRecordParams -> option string;
  commandIsEmpty : RunParams -> bool;
  needsScreenRecording : RunParams -> option bool;
  timeoutMs : RunParams -> option Z;
  notifyTitle : NotifyParams -> string;
  notifyBody : NotifyParams -> string;
  (** [params.delivery.flatMap { NotificationDelivery(rawValue: $0.rawValue) }] *)
  notifyDelivery : NotifyParams -> option NotificationDelivery;
  decodePresentParams : string -> Throwing PresentParams;
  decodeNavigateParams : string -> Throwing string;
  decodeEvalParams : string -> Throwing string;
  decodePushParams : string -> Throwing Messages;
  decodePushJSONLParams : string -> Throwing string;
  decodeScreenRecordParams : string -> Throwing ScreenRecordParams;
  decodeRunParams : string -> Throwing RunParams;
  decodeNotifyParams : string -> Throwing NotifyParams;
  decodeMessagesFromJSONL : string -> Throwing Messages;
  encodeMessagesJSONArray : Messages -> Throwing string;
  showDetailed : option string -> PresentParams -> Throwing unit;
  show : string -> Throwing unit;
  evalJS : list Call -> Script -> Throwing string;
  gatewayCanvasHostUrl : option string;
  (** [URL(string:)] ([None] when it is nil), then
      [appendingPathComponent("__clawdis__/a2ui/").absoluteString] *)
  appendingA2UIPath : string -> option string;
  (** How many times [Date() < deadline] holds in the polling loop of
      isA2UIReady before the six seconds are over. *)
  pollBudget : nat;
  record : ScreenRecordParams -> Throwing (string * Recording);
  screenRecordingStatus : option bool;
  runDetailed : RunParams -> option Q -> RunResult;
  notificationSend : string -> string -> NotifyParams -> bool;
  encodeEvalPayload : string -> Throwing string;
  encodeScreenPayload : ScreenRecordParams -> Recording -> string -> Throwing string;
  encodeRunPayload : RunResult -> Throwing string
}.

Section Dispatcher.

Variable sv : Services.
Variable st : Mac.State.

Open Scope run_scope.

(** [Self.decodeParams(_:from:)] (lines 372-379) *)
Definition decodeParams {T : Type} (decoder : string -> Throwing T)
    (json : option string) : Run T :=
  call (Base (Mac.DecodeParams json))
    (fun _ => match json with
              | Some j => decoder j
              | None => inr (plainError "INVALID_REQUEST: paramsJSON required")
              end).

(** [Self.encodePayload(_:)] (lines 381-389) *)
Definition encodePayload (encoded : Throwing string) : Run string :=
  call (Base Mac.EncodePayload) (fun _ => encoded).

(** isA2UIReady (lines 271-287): the loop probes, and sleeps 120 ms
    before the next probe as long as it polls and the deadline is ahead. *)
Fixpoint probeLoop (budget : nat) : Run bool :=
  let* ready := tryOptional (call (Evaluate ReadyProbe)
                               (fun before => evalJS sv before ReadyProbe)) in
  if match ready with
     | Some text => String.eqb (trimmingWhitespace text) "true"
     | None => false
     end
  then ret true
  else
    match budget with
    | O => ret false
    | S budget' =>
        let* _ := perform (Sleep 120000000) tt in
        probeLoop budget'
    end.

Definition isA2UIReady (poll : bool) : Run bool :=
  probeLoop (if poll then pollBudget sv else O).

(** resolveA2UIHostUrl (lines 264-269) *)
Definition resolveA2UIHostUrl : Run (option string) :=
  let* raw := perform CanvasHostUrl (gatewayCanvasHostUrl sv) in
  match raw with
  | None => ret None
  | Some raw =>
      let trimmed := trimmingWhitespace raw in
      if Text.isEmpty trimmed then ret None
      else
        match appendingA2UIPath sv trimmed with
        | None => ret None
        | Some absoluteString => ret (Some (absoluteString ++ "?platform=macos"))
        end
  end.

(** ensureA2UIHost (lines 248-262) *)
Definition ensureA2UIHost : Run unit :=
  let* ready := isA2UIReady false in
  if ready then ret tt
  else
    let* resolved := resolveA2UIHostUrl in
    match resolved with
    | None =>
        throw (plainError
                 "A2UI_HOST_NOT_CONFIGURED: gateway did not advertise canvas host")
    | Some a2uiUrl =>
        let* _ := call (ShowPath a2uiUrl) (fun _ => show sv a2uiUrl) in
        let* ready' := isA2UIReady true in
        if ready' then ret tt
        else throw (plainError "A2UI_HOST_UNAVAILABLE: A2UI host not reachable")
    end.

(** handleA2UIReset (lines 202-212) *)
Definition handleA2UIReset (req : BridgeInvokeRequest) : Run BridgeInvokeResponse :=
  let* _ := ensureA2UIHost in
  let* json := call (Evaluate ResetScript) (fun before => evalJS sv before ResetScript) in
  ret (okResponse req (Some json)).

Definition messagesFromJSONL (req : BridgeInvokeRequest) : Run (Messages sv) :=
  let* jsonl := decodeParams (decodePushJSONLParams sv) (paramsJSON req) in
  lift (decodeMessagesFromJSONL sv jsonl).

(** handleA2UIPush (lines 214-246) *)
Definition handleA2UIPush (req : BridgeInvokeRequest) : Run BridgeInvokeResponse :=
  let* messages :=
    if String.eqb (command req) canvasA2UIPushJSONL then messagesFromJSONL req
    else catching (decodeParams (decodePushParams sv) (paramsJSON req))
                  (fun _ => messagesFromJSONL req) in
  let* _ := ensureA2UIHost in
  let* messagesJSON := lift (encodeMessagesJSONArray sv messages) in
  let* resultJSON := call (Evaluate (ApplyMessages messagesJSON))
                       (fun before => evalJS sv before (ApplyMessages messagesJSON)) in
  ret (okResponse req (Some resultJSON)).

(** handleSystemRun (lines 289-331) *)
Definition handleSystemRun (req : BridgeInvokeRequest) : Run BridgeInvokeResponse :=
  let* params := decodeParams (decodeRunParams sv) (paramsJSON req) in
  if commandIsEmpty sv params
  then ret (errorResponse req invalidRequest "INVALID_REQUEST: command required")
  else
    let* authorized :=
      match needsScreenRecording sv params with
      | Some true =>
          let* status := perform PermissionStatus (screenRecordingStatus sv) in
          ret (match status with Some b => b | None => false end)
      | _ => ret true
      end in
    if negb authorized
    then ret (errorResponse req unavailable "PERMISSION_MISSING: screenRecording")
    else
      let timeoutSec :=
        option_map (fun ms => (inject_Z ms / 1000)%Q) (timeoutMs sv params) in
      let* result := perform (RunDetailed timeoutSec)
                       (runDetailed sv params timeoutSec) in
      let* payload := encodePayload (encodeRunPayload sv result) in
      ret (okResponse req (Some payload)).

(** handleSystemNotify (lines 333-370) *)
Definition handleSystemNotify (req : BridgeInvokeRequest) : Run BridgeInvokeResponse :=
  let* params := decodeParams (decodeNotifyParams sv) (paramsJSON req) in
  let title := trimmingWhitespace (notifyTitle sv params) in
  let body := trimmingWhitespace (notifyBody sv params) in
  if Text.isEmpty title && Text.isEmpty body
  then ret (errorResponse req invalidRequest "INVALID_REQUEST: empty notification")
  else
    let delivery := match notifyDelivery sv params with
                    | Some d => d
                    | None => DeliverySystem
                    end in
    match delivery with
    | DeliverySystem =>
        let* sent := perform (NotificationSend title body)
                       (notificationSend sv title body params) in
        if sent then ret (okResponse req None)
        else ret (errorResponse req unavailable "NOT_AUTHORIZED: notifications")
    | DeliveryOverlay =>
        let* _ := perform (OverlayPresent title body) tt in
        ret (okResponse req None)
    | DeliveryAuto =>
        let* sent := perform (NotificationSend title body)
                       (notificationSend sv title body params) in
        if sent then ret (okResponse req None)
        else
          let* _ := perform (OverlayPresent title body) tt in
          ret (okResponse req None)
    end.

(** The case [canvas.present] (lines 23-37) *)
Definition presentCase (req : BridgeInvokeRequest) : Run BridgeInvokeResponse :=
  let* decoded := tryOptional (decodeParams (decodePresentParams sv) (paramsJSON req)) in
  let params := match decoded with
                | Some p => p
                | None => defaultPresentParams sv
                end in
  let urlTrimmed := match presentUrl sv params with
                    | Some u => trimmingWhitespace u
                    | None => EmptyString
                    end in
  let url := if Text.isEmpty urlTrimmed then None else Some urlTrimmed in
  let* _ := call (ShowDetailed url) (fun _ => showDetailed sv url params) in
  ret (okResponse req None).

(** The case [canvas.hide] (lines 39-43) *)
Definition hideCase (req : BridgeInvokeRequest) : Run BridgeInvokeResponse :=
  let* _ := perform Hide tt in
  ret (okResponse req None).

(** The case [canvas.navigate] (lines 45-50) *)
Definition navigateCase (req : BridgeInvokeRequest) : Run BridgeInvokeResponse :=
  let* url := decodeParams (decodeNavigateParams sv) (paramsJSON req) in
  let* _ := call (ShowPath url) (fun _ => show sv url) in
  ret (okResponse req None).

(** The case [canvas.evalJS] (lines 52-58) *)
Definition evalCase (req : BridgeInvokeRequest) : Run BridgeInvokeResponse :=
  let* javaScript := decodeParams (decodeEvalParams sv) (paramsJSON req) in
  let* result := call (Evaluate (UserScript javaScript))
                   (fun before => evalJS sv before (UserScript javaScript)) in
  let* payload := encodePayload (encodeEvalPayload sv result) in
  ret (okResponse req (Some payload)).

(** The case [screen.record] (lines 154-186) *)
Definition recordCase (req : BridgeInvokeRequest) : Run BridgeInvokeResponse :=
  let* decoded :=
    tryOptional (decodeParams (decodeScreenRecordParams sv) (paramsJSON req)) in
  let params := match decoded with
                | Some p => p
                | None => defaultScreenRecordParams sv
                end in
  if match option_map lowercased (recordFormat sv params) with
     | Some format => negb (Text.isEmpty format) && negb (String.eqb format "mp4")
     | None => false
     end
  then ret (errorResponse req invalidRequest "INVALID_REQUEST: screen format must be mp4")
  else
    let* res := call ScreenRecord (fun _ => record sv params) in
    deferring [Base Mac.RemoveFile]
      (let* data := call (Base Mac.ReadFile)
                      (fun _ => Mac.contentsOf (base sv) (fst res)) in
       let* payload :=
         encodePayload
           (encodeScreenPayload sv params (snd res)
              (Mac.base64EncodedString (base sv) data)) in
       ret (okResponse req (Some payload))).

(** The [do] block of handleInvoke with its [catch] (lines 21, 197-199). *)
Definition run (req : BridgeInvokeRequest) (m : Run BridgeInvokeResponse)
    : list Call * BridgeInvokeResponse :=
  match m [] with
  | (calls, inl response) => (calls, response)
  | (calls, inr err) =>
      (calls, errorResponse req unavailable (localizedDescription err))
  end.

(** A case embedded in [Mac], with its calls. *)
Definition embedded (r : list Mac.Call * BridgeInvokeResponse)
    : list Call * BridgeInvokeResponse :=
  (map Base (fst r), snd r).

(** handleInvoke (lines 11-200) *)
Definition handleInvoke (req : BridgeInvokeRequest)
    : list Call * BridgeInvokeResponse :=
  let command := command req in
  if (hasPrefix command "canvas." || hasPrefix command "canvas.a2ui.")
     && negb (Mac.canvasEnabled st)
  then
    ([], errorResponse req unavailable "CANVAS_DISABLED: enable Canvas in Settings")
  else if String.eqb command canvasPresent then run req (presentCase req)
  else if String.eqb command canvasHide then run req (hideCase req)
  else if String.eqb command canvasNavigate then run req (navigateCase req)
  else if String.eqb command canvasEvalJS then run req (evalCase req)
  else if String.eqb command canvasSnapshot
  then embedded (Mac.snapshotCase (base sv) req)
  else if String.eqb command canvasA2UIReset then run req (handleA2UIReset req)
  else if String.eqb command canvasA2UIPush
          || String.eqb command canvasA2UIPushJSONL
  then run req (handleA2UIPush req)
  else if String.eqb command cameraSnap
  then embedded (Mac.snapCase (base sv) st req)
  else if String.eqb command cameraClip
  then embedded (Mac.clipCase (base sv) st req)
  else if String.eqb command screenRecord then run req (recordCase req)
  else if String.eqb command systemRun then run req (handleSystemRun req)
  else if String.eqb command systemNotify then run req (handleSystemNotify req)
  else ([], errorResponse req invalidRequest "INVALID_REQUEST: unknown command").

End Dispatcher.

(** The calls that touch a temporary file. *)
Definition fileCall (c : Call) : Prop :=
  c = Base Mac.ReadFile \/ c = Base Mac.RemoveFile.

(** Services for the examples: every capability succeeds; the page
    answers the readiness probe with [probeAnswer] and the gateway
    advertised [hostUrl]; the parameters of a screen recording are its
    format, read from the request as it is. *)
Definition servicesWith (probeAnswer : string) (hostUrl : option string)
    : Services :=
  {| base := Mac.sampleServices;
     PresentParams := unit; ScreenRecordParams := option string; RunParams := unit;
     NotifyParams := unit; Messages := unit; Recording := unit; RunResult := unit;
     defaultPresentParams := tt; defaultScreenRecordParams := None;
     presentUrl := fun _ => None; recordFormat := fun p => p;
     commandIsEmpty := fun _ => false; needsScreenRecording := fun _ => None;
     timeoutMs := fun _ => None;
     notifyTitle := fun _ => "t"; notifyBody := fun _ => "b";
     notifyDelivery := fun _ => None;
     decodePresentParams := fun _ => inl tt;
     decodeNavigateParams := fun _ => inl "index.html";
     decodeEvalParams := fun _ => inl "1+1";
     decodePushParams := fun _ => inl tt;
     decodePushJSONLParams := fun _ => inl EmptyString;
     decodeScreenRecordParams := fun json => inl (Some json);
     decodeRunParams := fun _ => inl tt;
     decodeNotifyParams := fun _ => inl tt;
     decodeMessagesFromJSONL := fun _ => inl tt;
     encodeMessagesJSONArray := fun _ => inl "[]";
     showDetailed := fun _ _ => inl tt;
     show := fun _ => inl tt;
     evalJS := fun _ _ => inl probeAnswer;
     gatewayCanvasHostUrl := hostUrl;
     appendingA2UIPath := fun url => Some (url ++ "/__clawdis__/a2ui/");
     pollBudget := 2%nat;
     record := fun _ => inl ("/tmp/screen.mp4", tt);
     screenRecordingStatus := None;
     runDetailed := fun _ _ => tt;
     notificationSend := fun _ _ _ => true;
     encodeEvalPayload := fun _ => inl "{}";
     encodeScreenPayload := fun _ _ _ => inl "{}";
     encodeRunPayload := fun _ => inl "{}" |}.

Definition sampleServices : Services := servicesWith "true" None.

End MacRuntime.

(* ===================================================================== *)
(** ** NodeAppModel: the whole dispatcher and the scene phase             *)
(* ===================================================================== *)

Module IOSRuntime.
Import Kit SwiftText Effects.

(** SwiftUI's [ScenePhase], with the [@unknown default] of the [switch]. *)
Inductive ScenePhase :=
| background
| active
| inactive
| unknownPhase.

(** setScenePhase (lines 170-179) *)
Definition setScenePhase (phase : ScenePhase) (st : IOS.State) : IOS.State :=
  {| IOS.isBackgrounded := match phase with
                           | background => true
                           | active | inactive => false
                           | unknownPhase => false
                           end;
     IOS.cameraEnabledPref := IOS.cameraEnabledPref st |}.

(** Calls the model makes, in order; [Base] for those of the cases
    embedded in [IOS]. The scripts are those of [MacRuntime.Script]. *)
Inductive Call :=
| Base (c : IOS.Call)
| ShowDefaultCanvas
| Navigate (url : string)
| Evaluate (js : MacRuntime.Script)
| CanvasHostUrl
| WaitForA2UIReady (timeoutMs : Z)
| SetScreenRecordActive (active : bool)
| ScreenRecord
| ReadFile
| RemoveFile.

(** What the model calls besides the services of [IOS]: the parameter
    types of ClawdisKit with the fields the code reads and their decoders,
    the screen, the bridge session, Foundation's URL, the screen recorder,
    the file system and the payload encoder. *)
Record Services := {
  base : IOS.Services;
  PresentParams : Type;
  ScreenRecordParams : Type;
  Messages : Type;
  Data : Type;
  defaultPresentParams : PresentParams;
  defaultScreenRecordParams : ScreenRecordParams;
  presentUrl : PresentParams -> option string;
  recordFormat : ScreenRecordParams -> option string;
  decodePresentParams : string -> Throwing PresentParams;
  decodeNavigateParams : string -> Throwing string;
  decodeEvalParams : string -> Throwing string;
  decodePushParams : string -> Throwing Messages;
  decodePushJSONLParams : string -> Throwing string;
  decodeScreenRecordParams : string -> Throwing ScreenRecordParams;
  decodeMessagesFromJSONL : string -> Throwing Messages;
  encodeMessagesJSONArray : Messages -> Throwing string;
  evalJS : MacRuntime.Script -> Throwing string;
  currentCanvasHostUrl : option string;
  (** [URL(string:)] ([None] when it is nil), then
      [appendingPathComponent("__clawdis__/a2ui/").absoluteString] *)
  appendingA2UIPath : string -> option string;
  waitForA2UIReady : Z -> bool;
  record : ScreenRecordParams -> Throwing string;
  contentsOf : string -> Throwing Data;
  base64EncodedString : Data -> string;
  encodeEvalPayload : string -> Throwing string;
  encodeScreenPayload : ScreenRecordParams -> string -> Throwing string
}.

Section Dispatcher.

Variable sv : Services.
Variable st : IOS.State.

Open Scope run_scope.

(** [Self.decodeParams(_:from:)] (lines 648-655) *)
Definition decodeParams {T : Type} (decoder : string -> Throwing T)
    (json : option string) : Run T :=
  call (Base (IOS.DecodeParams json))
    (fun _ => match json with
              | Some j => decoder j
              | None => inr (plainError "INVALID_REQUEST: paramsJSON required")
              end).

(** [Self.encodePayload(_:)] (lines 657-665) *)
Definition encodePayload (encoded : Throwing string) : Run string :=
  call (Base IOS.EncodePayload) (fun _ => encoded).

(** resolveA2UIHostURL (lines 149-154) *)
Definition resolveA2UIHostURL : Run (option string) :=
  let* raw := perform CanvasHostUrl (currentCanvasHostUrl sv) in
  match raw with
  | None => ret None
  | Some raw =>
      let trimmed := trimmingWhitespace raw in
      if Text.isEmpty trimmed then ret None
      else
        match appendingA2UIPath sv trimmed with
        | None => ret None
        | Some absoluteString => ret (Some (absoluteString ++ "?platform=ios"))
        end
  end.

(** The case [canvas.present] (lines 426-435) *)
Definition presentCase (req : BridgeInvokeRequest) : Run BridgeInvokeResponse :=
  let* decoded := tryOptional (decodeParams (decodePresentParams sv) (paramsJSON req)) in
  let params := match decoded with
                | Some p => p
                | None => defaultPresentParams sv
                end in
  let url := match presentUrl sv params with
             | Some u => trimmingWhitespace u
             | None => EmptyString
             end in
  let* _ := if Text.isEmpty url then perform ShowDefaultCanvas tt
            else perform (Navigate url) tt in
  ret (okResponse req None).

(** The case [canvas.navigate] (lines 440-443) *)
Definition navigateCase (req : BridgeInvokeRequest) : Run BridgeInvokeResponse :=
  let* url := decodeParams (decodeNavigateParams sv) (paramsJSON req) in
  let* _ := perform (Navigate url) tt in
  ret (okResponse req None).

(** The case [canvas.evalJS] (lines 445-449) *)
Definition evalCase (req : BridgeInvokeRequest) : Run BridgeInvokeResponse :=
  let* javaScript := decodeParams (decodeEvalParams sv) (paramsJSON req) in
  let* result := call (Evaluate (MacRuntime.UserScript javaScript))
                   (fun _ => evalJS sv (MacRuntime.UserScript javaScript)) in
  let* payload := encodePayload (encodeEvalPayload sv result) in
  ret (okResponse req (Some payload)).

(** The case [canvas.a2ui.reset] (lines 473-498) *)
Definition resetCase (req : BridgeInvokeRequest) : Run BridgeInvokeResponse :=
  let* resolved := resolveA2UIHostURL in
  match resolved with
  | None =>
      ret (errorResponse req unavailable
             "A2UI_HOST_NOT_CONFIGURED: gateway did not advertise canvas host")
  | Some a2uiUrl =>
      let* _ := perform (Navigate a2uiUrl) tt in
      let* ready := perform (WaitForA2UIReady 5000) (waitForA2UIReady sv 5000) in
      if negb ready
      then ret (errorResponse req unavailable
                  "A2UI_HOST_UNAVAILABLE: A2UI host not reachable")
      else
        let* json := call (Evaluate MacRuntime.ResetScript)
                       (fun _ => evalJS sv MacRuntime.ResetScript) in
        ret (okResponse req (Some json))
  end.

Definition messagesFromJSONL (req : BridgeInvokeRequest) : Run (Messages sv) :=
  let* jsonl := decodeParams (decodePushJSONLParams sv) (paramsJSON req) in
  lift (decodeMessagesFromJSONL sv jsonl).

(** The case [canvas.a2ui.push], [canvas.a2ui.pushJSONL] (lines 500-547) *)
Definition pushCase (req : BridgeInvokeRequest) : Run BridgeInvokeResponse :=
  let* messages :=
    if String.eqb (command req) MacRuntime.canvasA2UIPushJSONL
    then messagesFromJSONL req
    else catching (decodeParams (decodePushParams sv) (paramsJSON req))
                  (fun _ => messagesFromJSONL req) in
  let* resolved := resolveA2UIHostURL in
  match resolved with
  | None =>
      ret (errorResponse req unavailable
             "A2UI_HOST_NOT_CONFIGURED: gateway did not advertise canvas host")
  | Some a2uiUrl =>
      let* _ := perform (Navigate a2uiUrl) tt in
      let* ready := perform (WaitForA2UIReady 5000) (waitForA2UIReady sv 5000) in
      if negb ready
      then ret (errorResponse req unavailable
                  "A2UI_HOST_UNAVAILABLE: A2UI host not reachable")
      else
        let* messagesJSON := lift (encodeMessagesJSONArray sv messages) in
        let* resultJSON :=
          call (Evaluate (MacRuntime.ApplyMessages messagesJSON))
            (fun _ => evalJS sv (MacRuntime.ApplyMessages messagesJSON)) in
        ret (okResponse req (Some resultJSON))
  end.

(** The case [screen.record] (lines 594-628) *)
Definition recordCase (req : BridgeInvokeRequest) : Run BridgeInvokeResponse :=
  let* decoded :=
    tryOptional (decodeParams (decodeScreenRecordParams sv) (paramsJSON req)) in
  let params := match decoded with
                | Some p => p
                | None => defaultScreenRecordParams sv
                end in
  if match recordFormat sv params with
     | Some format => negb (String.eqb (lowercased format) "mp4")
     | None => false
     end
  then throw (plainError "INVALID_REQUEST: screen format must be mp4")
  else
    let* _ := perform (SetScreenRecordActive true) tt in
    deferring [SetScreenRecordActive false]
      (let* path := call ScreenRecord (fun _ => record sv params) in
       deferring [RemoveFile]
         (let* data := call ReadFile (fun _ => contentsOf sv path) in
          let* payload :=
            encodePayload
              (encodeScreenPayload sv params (base64EncodedString sv data)) in
          ret (okResponse req (Some payload)))).

(** The [do] block of handleInvoke with its [catch] (lines 424, 636-645). *)
Definition run (req : BridgeInvokeRequest) (m : Run BridgeInvokeResponse)
    : list Call * BridgeInvokeResponse :=
  match m [] with
  | (calls, inl response) => (calls, response)
  | (calls, inr err) =>
      let text := match errorDescription err with
                  | Some d => d
                  | None => localizedDescription err
                  end in
      ((calls ++ if hasPrefix (command req) "camera."
                 then [Base (IOS.ShowCameraHUD text)] else [])%list,
       errorResponse req unavailable (localizedDescription err))
  end.

(** A case embedded in [IOS], with its calls. *)
Definition embedded (r : list IOS.Call * BridgeInvokeResponse)
    : list Call * BridgeInvokeResponse :=
  (map Base (fst r), snd r).

(** handleInvoke (lines 401-646) *)
Definition handleInvoke (req : BridgeInvokeRequest)
    : list Call * BridgeInvokeResponse :=
  let command := command req in
  if (hasPrefix command "canvas." || hasPrefix command "camera."
      || hasPrefix command "screen.") && IOS.isBackgrounded st
  then
    ([], errorResponse req backgroundUnavailable
           "NODE_BACKGROUND_UNAVAILABLE: canvas/camera/screen commands require foreground")
  else if hasPrefix command "camera." && negb (IOS.isCameraEnabled st)
  then
    ([], errorResponse req unavailable
           "CAMERA_DISABLED: enable Camera in iOS Settings → Camera → Allow Camera")
  else if String.eqb command MacRuntime.canvasPresent then run req (presentCase req)
  else if String.eqb command canvasHide then ([], okResponse req None)
  else if String.eqb command MacRuntime.canvasNavigate then run req (navigateCase req)
  else if String.eqb command MacRuntime.canvasEvalJS then run req (evalCase req)
  else if String.eqb command canvasSnapshot
  then embedded (IOS.snapshotCase (base sv) req)
  else if String.eqb command MacRuntime.canvasA2UIReset then run req (resetCase req)
  else if String.eqb command MacRuntime.canvasA2UIPush
          || String.eqb command MacRuntime.canvasA2UIPushJSONL
  then run req (pushCase req)
  else if String.eqb command cameraSnap then embedded (IOS.snapCase (base sv) req)
  else if String.eqb command cameraClip then embedded (IOS.clipCase (base sv) req)
  else if String.eqb command MacRuntime.screenRecord then run req (recordCase req)
  else ([], errorResponse req invalidRequest "INVALID_REQUEST: unknown command").

End Dispatcher.

(** Services for the examples: every capability succeeds and the gateway
    advertised a canvas host. *)
Definition sampleServices : Services :=
  {| base := IOS.sampleServices;
     PresentParams := unit; ScreenRecordParams := option string;
     Messages := unit; Data := unit;
     defaultPresentParams := tt; defaultScreenRecordParams := None;
     presentUrl := fun _ => None;
     recordFormat := fun p => p;
     decodePresentParams := fun _ => inl tt;
     decodeNavigateParams := fun _ => inl "index.html";
     decodeEvalParams := fun _ => inl "1+1";
     decodePushParams := fun _ => inl tt;
     decodePushJSONLParams := fun _ => inl EmptyString;
     decodeScreenRecordParams := fun json => inl (Some json);
     decodeMessagesFromJSONL := fun _ => inl tt;
     encodeMessagesJSONArray := fun _ => inl "[]";
     evalJS := fun _ => inl "{}";
     currentCanvasHostUrl := Some "http://gw:18793";
     appendingA2UIPath := fun url => Some (url ++ "/__clawdis__/a2ui/");
     waitForA2UIReady := fun _ => true;
     record := fun _ => inl "/tmp/screen.mp4";
     contentsOf := fun _ => inl tt;
     base64EncodedString := fun _ => "AAAA";
     encodeEvalPayload := fun _ => inl "{}";
     encodeScreenPayload := fun _ _ => inl "{}" |}.

End IOSRuntime.

(* ===================================================================== *)
(** ** NodeAppModel.connectToBridge: the loop (lines 200-260)             *)
(* ===================================================================== *)

Module IOSSupervisor.

(** The turns of the loop, given how the successive calls of
    [bridge.connect] end, until the task is cancelled: the status shown
    before each call and the sleep after it. The counter [attempt] is a
    local variable of the task, set to 0 when the task starts. *)
Fixpoint superviseFrom (attempt : Z) (ends : list IOS.ConnectEnd)
    : list (string * Q) :=
  match ends with
  | [] => []
  | e :: rest =>
      let '(status, attempt', sleep) := IOS.superviseTurn attempt e in
      (status, sleep) :: superviseFrom attempt' rest
  end.

Definition connectToBridge (ends : list IOS.ConnectEnd) : list (string * Q) :=
  superviseFrom 0 ends.

(** The cap of the sleep after a turn. *)
Definition cap (e : IOS.ConnectEnd) : Q :=
  match e with
  | IOS.ConnectReturned => 6
  | IOS.ConnectThrew _ => 8
  end.

End IOSSupervisor.

(* ===================================================================== *)
(** ** What the properties say of responses and of calls                  *)
(* ===================================================================== *)

(** A response as the gateway expects it: it answers the request, and it
    is either a success without error or a failure with an error and no
    payload. *)
Definition wellFormed (req : Kit.BridgeInvokeRequest)
    (r : Kit.BridgeInvokeResponse) : Prop :=
  Kit.res_id r = Kit.id req
  /\ ((Kit.ok r = true /\ Kit.error r = None)
      \/ (Kit.ok r = false /\ Kit.payloadJSON r = None /\ Kit.error r <> None)).

(** The codes an error of the macOS runtime can carry. *)
Definition macCode (r : Kit.BridgeInvokeResponse) : Prop :=
  forall e, Kit.error r = Some e ->
    Kit.code e = Kit.invalidRequest \/ Kit.code e = Kit.unavailable.

(** The scripts that act on the A2UI host of the page. *)
Definition a2uiScript (js : MacRuntime.Script) : Prop :=
  js = MacRuntime.ResetScript \/ exists messagesJSON, js = MacRuntime.ApplyMessages messagesJSON.

(** The page answered the readiness probe with [true] after the calls
    [history]. *)
Definition answeredReady (sv : MacRuntime.Services) (history : list MacRuntime.Call) : Prop :=
  exists text,
    MacRuntime.evalJS sv history MacRuntime.ReadyProbe = inl text
    /\ SwiftText.trimmingWhitespace text = "true".

(** A call that is not the evaluation of an A2UI script. *)
Definition plainCall (c : MacRuntime.Call) : Prop :=
  forall js, c = MacRuntime.Evaluate js -> ~ a2uiScript js.

(** The calls of a polling loop that gives up: a probe, then [budget]
    times a sleep of 120 ms and a probe. *)
Fixpoint pollTrace (budget : nat) : list MacRuntime.Call :=
  match budget with
  | O => [MacRuntime.Evaluate MacRuntime.ReadyProbe]
  | S b =>
      MacRuntime.Evaluate MacRuntime.ReadyProbe :: MacRuntime.Sleep 120000000 :: pollTrace b
  end.

(** An error with the code NODE_BACKGROUND_UNAVAILABLE is given only while
    the app is in the background. *)
Definition iosCode (st : IOS.State) (r : Kit.BridgeInvokeResponse) : Prop :=
  forall e, Kit.error r = Some e ->
    Kit.code e = Kit.backgroundUnavailable -> IOS.isBackgrounded st = true.

(** The commands that need the app in the foreground. *)
Definition needsForeground (command : string) : bool :=
  Kit.hasPrefix command "canvas." || Kit.hasPrefix command "camera."
  || Kit.hasPrefix command "screen.".

(** The calls of the iOS model that belong to a screen recording: those on
    its file and those on the recording indicator. *)
Definition recordingCall (c : IOSRuntime.Call) : Prop :=
  c = IOSRuntime.ReadFile \/ c = IOSRuntime.RemoveFile
  \/ exists active, c = IOSRuntime.SetScreenRecordActive active.

(** A call of the iOS model that is not the evaluation of an A2UI
    script. *)
Definition plainCallIOS (c : IOSRuntime.Call) : Prop :=
  forall js, c = IOSRuntime.Evaluate js -> ~ a2uiScript js.

(* ===================================================================== *)
(** * Properties                                                          *)
(* ===================================================================== *)

(** ** Text *)

Section TextFacts.
Import Text.

(** *** Lists trimmed at their ends *)

Lemma isNil_dropWhileEnd {A : Type} (p : A -> bool) (l : list A) :
  isNil (dropWhileEnd p l) = forallb p l.
Proof.
  induction l as [|x r IH]; [reflexivity|].
  cbn [dropWhileEnd forallb]. rewrite IH.
  destruct (p x), (forallb p r); reflexivity.
Qed.

Lemma forallb_dropWhile {A : Type} (p : A -> bool) (l : list A) :
  forallb p (dropWhile p l) = forallb p l.
Proof.
  induction l as [|x r IH]; [reflexivity|].
  cbn [dropWhile forallb]. destruct (p x) eqn:Hx; [exact IH|].
  cbn [forallb]. rewrite Hx. reflexivity.
Qed.

Lemma dropWhileEnd_idem {A : Type} (p : A -> bool) (l : list A) :
  dropWhileEnd p (dropWhileEnd p l) = dropWhileEnd p l.
Proof.
  induction l as [|x r IH]; [reflexivity|].
  cbn [dropWhileEnd].
  destruct (p x && isNil (dropWhileEnd p r)) eqn:E; [reflexivity|].
  cbn [dropWhileEnd]. rewrite IH, E. reflexivity.
Qed.

Lemma dropWhile_idem {A : Type} (p : A -> bool) (l : list A) :
  dropWhile p (dropWhile p l) = dropWhile p l.
Proof.
  induction l as [|x r IH]; [reflexivity|].
  cbn [dropWhile]. destruct (p x) eqn:Hx; [exact IH|].
  cbn [dropWhile]. rewrite Hx. reflexivity.
Qed.

Lemma dropWhile_dropWhileEnd {A : Type} (p : A -> bool) (l : list A) :
  dropWhile p (dropWhileEnd p l) = dropWhileEnd p (dropWhile p l).
Proof.
  induction l as [|x r IH]; [reflexivity|].
  cbn [dropWhileEnd dropWhile]. destruct (p x) eqn:Hx.
  - cbn [andb]. rewrite <- IH.
    destruct (dropWhileEnd p r) as [|y r'] eqn:He; [reflexivity|].
    cbn [isNil dropWhile]. rewrite Hx. reflexivity.
  - cbn [andb dropWhile dropWhileEnd]. rewrite Hx. reflexivity.
Qed.

(** Nothing is dropped before an element that stays. *)
Lemma dropWhileEnd_middle {A : Type} (p : A -> bool) (l1 l2 : list A) (x : A) :
  p x = false ->
  dropWhileEnd p (l1 ++ x :: l2) = (l1 ++ x :: dropWhileEnd p l2)%list.
Proof.
  intros Hx. induction l1 as [|y r IH].
  - cbn [app dropWhileEnd]. rewrite Hx. reflexivity.
  - cbn [app dropWhileEnd]. rewrite IH.
    destruct r; cbn [app isNil]; rewrite andb_false_r; reflexivity.
Qed.

Lemma dropWhileEnd_none {A : Type} (p : A -> bool) (l : list A) :
  forallb (fun x => negb (p x)) l = true -> dropWhileEnd p l = l.
Proof.
  induction l as [|x r IH]; [reflexivity|].
  cbn [forallb dropWhileEnd]. intros [Hx%negb_true_iff Hr]%andb_prop.
  rewrite Hx, (IH Hr). reflexivity.
Qed.

Lemma dropWhileEnd_head {A : Type} (p : A -> bool) (l : list A) :
  dropWhileEnd p l = []
  \/ exists x r r', l = x :: r /\ dropWhileEnd p l = x :: r'.
Proof.
  destruct l as [|x r]; [left; reflexivity|].
  cbn [dropWhileEnd]. destruct (p x && isNil (dropWhileEnd p r)); [left; reflexivity|].
  right. eauto.
Qed.

(** *** The characters of a text *)

Lemma text_cons (u : string) (us : list string) : text (u :: us) = u ++ text us.
Proof. reflexivity. Qed.

Lemma append_cons (x : ascii) (a b : string) : String x a ++ b = String x (a ++ b).
Proof. reflexivity. Qed.

Lemma append_assoc (a b c : string) : (a ++ b) ++ c = a ++ (b ++ c).
Proof.
  induction a as [|x r IH]; [reflexivity|].
  change (String x ((r ++ b) ++ c) = String x (r ++ (b ++ c))).
  rewrite IH. reflexivity.
Qed.

Lemma text_app (l1 l2 : list string) : text (l1 ++ l2) = text l1 ++ text l2.
Proof.
  induction l1 as [|u r IH]; [reflexivity|].
  cbn [app]. rewrite !text_cons, IH. symmetry. apply append_assoc.
Qed.

Lemma text_chars (s : string) : text (chars s) = s.
Proof.
  induction s as [|c r IH]; [reflexivity|].
  cbn [chars]. destruct (isAscii c).
  - rewrite text_cons, IH. reflexivity.
  - destruct (chars r) as [|u us].
    + rewrite <- IH. reflexivity.
    + destruct (startsInside u); rewrite <- IH; reflexivity.
Qed.

Lemma chars_head (s : string) :
  match chars s with
  | u :: _ => startsInside u = startsInside s
  | [] => s = EmptyString
  end.
Proof.
  destruct s as [|c r]; [reflexivity|].
  cbn [chars]. destruct (isAscii c); [reflexivity|].
  destruct (chars r) as [|u us]; [reflexivity|].
  destruct (startsInside u); reflexivity.
Qed.

Lemma chars_ascii (c : ascii) (r : string) :
  isAscii c = true -> chars (String c r) = String c EmptyString :: chars r.
Proof. intros H. cbn [chars]. rewrite H. reflexivity. Qed.

(** Two texts put together keep their characters when the second one does
    not start inside a character. *)
Lemma chars_app (a b : string) :
  startsInside b = false -> chars (a ++ b) = (chars a ++ chars b)%list.
Proof.
  intros Hb. induction a as [|c r IH]; [reflexivity|].
  rewrite append_cons. cbn [chars]. rewrite IH.
  destruct (isAscii c); [reflexivity|].
  destruct (chars r) as [|u us]; cbn [app].
  - pose proof (chars_head b) as Hh.
    destruct (chars b) as [|v vs]; [reflexivity|].
    rewrite Hh, Hb. reflexivity.
  - destruct (startsInside u); reflexivity.
Qed.

Lemma continuation_not_ascii (c : ascii) : isContinuation c = true -> isAscii c = false.
Proof.
  unfold isContinuation, isAscii. intros [H _]%andb_prop.
  apply N.leb_le in H. apply N.ltb_ge. exact H.
Qed.

Lemma chars_segmented (s : string) : segmented (chars s).
Proof.
  induction s as [|c r IH]; [exact I|].
  cbn [chars]. destruct (isAscii c) eqn:Hc.
  - cbn [segmented unitOk closed]. rewrite Hc. split; [reflexivity|].
    split; [destruct (chars r); auto|exact IH].
  - destruct (chars r) as [|u us].
    + cbn [segmented unitOk]. rewrite Hc. auto.
    + destruct (startsInside u) eqn:Hu.
      * destruct IH as (Hok & Hadj & Hseg).
        destruct u as [|k t]; [discriminate|]. cbn [startsInside] in Hu.
        cbn [unitOk] in Hok. rewrite (continuation_not_ascii k Hu) in Hok.
        cbn [segmented unitOk closed]. rewrite Hc. cbn [all]. rewrite Hu, Hok.
        split; [reflexivity|]. split; [|exact Hseg].
        destruct us as [|v vs]; [exact I|].
        cbn [closed] in Hadj. rewrite (continuation_not_ascii k Hu) in Hadj.
        destruct Hadj as [Hadj|Hadj]; [discriminate|]. right. exact Hadj.
      * cbn [segmented unitOk closed]. rewrite Hc.
        split; [reflexivity|]. split; [right; exact Hu|exact IH].
Qed.

Lemma segmented_tail (u : string) (r : list string) : segmented (u :: r) -> segmented r.
Proof. intros (_ & _ & H). exact H. Qed.

Lemma chars_run (t : string) (r : list string) :
  all isContinuation t = true ->
  match r with v :: _ => startsInside v = false | [] => True end ->
  chars (text r) = r ->
  chars (t ++ text r) = if isEmpty t then r else t :: r.
Proof.
  intros Ht Hr Hcr. induction t as [|k t IH]; [exact Hcr|].
  cbn [all] in Ht. apply andb_prop in Ht as [Hk Ht].
  rewrite append_cons. cbn [chars isEmpty].
  rewrite (continuation_not_ascii k Hk), (IH Ht).
  destruct t as [|k' t']; cbn [isEmpty].
  - destruct r as [|v vs]; [reflexivity|]. rewrite Hr. reflexivity.
  - cbn [all] in Ht. apply andb_prop in Ht as [Hk' _].
    cbn [startsInside]. rewrite Hk'. reflexivity.
Qed.

Lemma chars_text (l : list string) : segmented l -> chars (text l) = l.
Proof.
  induction l as [|u r IH]; [reflexivity|].
  intros (Hok & Hadj & Hseg). specialize (IH Hseg).
  destruct u as [|c t]; [contradiction|]. cbn [unitOk closed] in Hok, Hadj.
  rewrite text_cons, append_cons. cbn [chars].
  destruct (isAscii c) eqn:Hc.
  - subst t. change (EmptyString ++ text r) with (text r). rewrite IH. reflexivity.
  - assert (Hr : match r with v :: _ => startsInside v = false | [] => True end).
    { destruct r as [|v vs]; [exact I|]. destruct Hadj as [H|H]; [discriminate|exact H]. }
    rewrite (chars_run t r Hok Hr IH).
    destruct t as [|k t']; cbn [isEmpty].
    + destruct r as [|v vs]; [reflexivity|]. rewrite Hr. reflexivity.
    + cbn [all] in Hok. apply andb_prop in Hok as [Hk _].
      cbn [startsInside]. rewrite Hk. reflexivity.
Qed.

Lemma segmented_dropWhile (p : string -> bool) (l : list string) :
  segmented l -> segmented (dropWhile p l).
Proof.
  induction l as [|u r IH]; [auto|].
  intros H. cbn [dropWhile]. destruct (p u); [|exact H].
  apply IH. exact (segmented_tail u r H).
Qed.

Lemma segmented_dropWhileEnd (p : string -> bool) (l : list string) :
  segmented l -> segmented (dropWhileEnd p l).
Proof.
  induction l as [|u r IH]; [auto|].
  intros (Hok & Hadj & Hseg). cbn [dropWhileEnd].
  destruct (p u && isNil (dropWhileEnd p r)); [exact I|].
  cbn [segmented]. split; [exact Hok|]. split; [|exact (IH Hseg)].
  destruct (dropWhileEnd_head p r) as [-> | (v & r0 & r' & -> & ->)]; [exact I|].
  exact Hadj.
Qed.

Lemma isEmpty_text (l : list string) : segmented l -> isEmpty (text l) = isNil l.
Proof.
  destruct l as [|u r]; [reflexivity|].
  intros (Hok & _). destruct u as [|c t]; [contradiction|]. reflexivity.
Qed.

(** *** Trimming *)

Section Trimming.

Variable p : N -> bool.

Lemma chars_trimStartBy (s : string) :
  chars (trimStartBy p s) = dropWhile (charIs p) (chars s).
Proof. apply chars_text, segmented_dropWhile, chars_segmented. Qed.

Lemma chars_trimEndBy (s : string) :
  chars (trimEndBy p s) = dropWhileEnd (charIs p) (chars s).
Proof. apply chars_text, segmented_dropWhileEnd, chars_segmented. Qed.

Lemma chars_trimBy (s : string) :
  chars (trimBy p s) = dropWhileEnd (charIs p) (dropWhile (charIs p) (chars s)).
Proof.
  apply chars_text, segmented_dropWhileEnd, segmented_dropWhile, chars_segmented.
Qed.

Lemma trimBy_split (s : string) : trimBy p s = trimEndBy p (trimStartBy p s).
Proof. unfold trimEndBy. rewrite chars_trimStartBy. reflexivity. Qed.

Lemma isEmpty_trimBy (s : string) : isEmpty (trimBy p s) = allChars p s.
Proof.
  unfold trimBy, allChars.
  rewrite isEmpty_text
    by apply segmented_dropWhileEnd, segmented_dropWhile, chars_segmented.
  rewrite isNil_dropWhileEnd. apply forallb_dropWhile.
Qed.

Lemma trimBy_idem (s : string) : trimBy p (trimBy p s) = trimBy p s.
Proof.
  unfold trimBy at 1. rewrite chars_trimBy.
  rewrite dropWhile_dropWhileEnd, dropWhile_idem, dropWhileEnd_idem. reflexivity.
Qed.

Lemma trimBy_trimEndBy (s : string) : trimBy p (trimEndBy p s) = trimBy p s.
Proof.
  unfold trimBy at 1. rewrite chars_trimEndBy.
  rewrite dropWhile_dropWhileEnd, dropWhileEnd_idem. reflexivity.
Qed.

Lemma trimEndBy_blank (s : string) : allChars p s = true -> trimEndBy p s = EmptyString.
Proof.
  unfold allChars, trimEndBy. intros H.
  rewrite <- isNil_dropWhileEnd in H.
  destruct (dropWhileEnd (charIs p) (chars s)); [reflexivity|discriminate].
Qed.

(** An ASCII character outside the class is not trimmed, nor is anything
    before it. *)
Lemma trimEndBy_middle (a b : string) (ch : ascii) :
  isAscii ch = true -> p (byte ch) = false ->
  trimEndBy p (a ++ String ch b) = a ++ String ch (trimEndBy p b).
Proof.
  intros Ha Hp. unfold trimEndBy.
  assert (Hin : startsInside (String ch b) = false).
  { cbn [startsInside]. unfold isContinuation, isAscii in *.
    apply N.ltb_lt in Ha. apply andb_false_intro1. apply N.leb_gt. exact Ha. }
  rewrite (chars_app a _ Hin), (chars_ascii ch b Ha).
  rewrite dropWhileEnd_middle.
  - rewrite text_app, text_chars, text_cons. reflexivity.
  - unfold charIs. cbn [codePoint]. rewrite Ha. exact Hp.
Qed.

Lemma trimBy_ascii (b : string) (ch : ascii) :
  isAscii ch = true -> p (byte ch) = false ->
  trimBy p (String ch b) = String ch (trimEndBy p b).
Proof.
  intros Ha Hp. rewrite trimBy_split. unfold trimStartBy.
  rewrite (chars_ascii ch b Ha). cbn [dropWhile].
  assert (Hc : charIs p (String ch EmptyString) = false).
  { unfold charIs. cbn [codePoint]. rewrite Ha. exact Hp. }
  rewrite Hc. rewrite <- (chars_ascii ch b Ha), text_chars.
  exact (trimEndBy_middle EmptyString b ch Ha Hp).
Qed.

Lemma trimBy_none (s : string) :
  forallb (fun u => negb (charIs p u)) (chars s) = true -> trimBy p s = s.
Proof.
  intros H. unfold trimBy.
  assert (Hs : dropWhile (charIs p) (chars s) = chars s).
  { destruct (chars s) as [|u us]; [reflexivity|]. cbn [forallb] in H.
    apply andb_prop in H as [Hu%negb_true_iff _]. cbn [dropWhile].
    rewrite Hu. reflexivity. }
  rewrite Hs, (dropWhileEnd_none _ _ H). apply text_chars.
Qed.

Lemma allChars_app (a b : string) :
  startsInside b = false -> allChars p (a ++ b) = allChars p a && allChars p b.
Proof.
  intros Hb. unfold allChars. rewrite (chars_app a b Hb). apply forallb_app.
Qed.

End Trimming.

(** The same for kotlin.text. *)
Lemma isEmpty_trim (s : string) : isEmpty (trim s) = isBlank s.
Proof. exact (isEmpty_trimBy isWhitespace s). Qed.

Lemma isBlank_app (a b : string) :
  startsInside b = false -> isBlank (a ++ b) = isBlank a && isBlank b.
Proof. exact (allChars_app isWhitespace a b). Qed.

Lemma trim_idem (s : string) : trim (trim s) = trim s.
Proof. exact (trimBy_idem isWhitespace s). Qed.

Lemma trim_trimEnd (s : string) : trim (trimEnd s) = trim s.
Proof. exact (trimBy_trimEndBy isWhitespace s). Qed.

Lemma trimEnd_blank (s : string) : isBlank s = true -> trimEnd s = EmptyString.
Proof. exact (trimEndBy_blank isWhitespace s). Qed.

Lemma trimEnd_middle (a b : string) (ch : ascii) :
  isAscii ch = true -> isWhitespace (byte ch) = false ->
  trimEnd (a ++ String ch b) = a ++ String ch (trimEnd b).
Proof. exact (trimEndBy_middle isWhitespace a b ch). Qed.

Lemma trim_ascii (b : string) (ch : ascii) :
  isAscii ch = true -> isWhitespace (byte ch) = false ->
  trim (String ch b) = String ch (trimEnd b).
Proof. exact (trimBy_ascii isWhitespace b ch). Qed.

(** The code point of an ASCII character is that of no other character. *)
Lemma codePoint_ascii (u : string) (cp : N) :
  codePoint u = Some cp -> (cp < 128)%N -> u = String (ascii_of_N cp) EmptyString.
Proof.
  destruct u as [|a [|b [|c [|d r]]]]; cbn [codePoint]; try discriminate.
  - destruct (isAscii a); [|discriminate]. intros [= <-] _.
    unfold byte. rewrite ascii_N_embedding. reflexivity.
  - destruct ((194 <=? byte a)%N && (byte a <? 224)%N && isContinuation b) eqn:E;
      [|discriminate].
    apply andb_prop in E as [[E1%N.leb_le _]%andb_prop _]. intros [= <-] H. lia.
  - cbv zeta.
    destruct ((224 <=? byte a)%N && (byte a <? 240)%N
              && isContinuation b && isContinuation c && (2048 <=? _)%N) eqn:E;
      [|discriminate].
    apply andb_prop in E as [_ E%N.leb_le]. intros [= <-] H. lia.
Qed.

Lemma cut_found (d : ascii) (s a b : string) :
  cut d s = (a, Some b) <-> s = a ++ String d b /\ lacks d a = true.
Proof.
  revert a. induction s as [|c r IH]; intros a; cbn [cut].
  - split; [discriminate|]. intros [H _]. destruct a; discriminate.
  - destruct (Ascii.eqb c d) eqn:Hc.
    + apply Ascii.eqb_eq in Hc as ->. split.
      * intros [= <- <-]. split; reflexivity.
      * intros [H Ha]. destruct a as [|c' a'].
        -- cbn in H. injection H as <-. reflexivity.
        -- cbn in H. injection H as <- _. unfold lacks in Ha. cbn in Ha.
           rewrite Ascii.eqb_refl in Ha. discriminate.
    + destruct (cut d r) as [a0 b0] eqn:Hr. split.
      * intros [= <- ->]. destruct (proj1 (IH a0) eq_refl) as [-> Ha].
        split; [reflexivity|]. unfold lacks in *. cbn. rewrite Hc. exact Ha.
      * intros [H Ha]. destruct a as [|c' a'].
        -- cbn in H. injection H as -> _. rewrite Ascii.eqb_refl in Hc. discriminate.
        -- cbn in H. injection H as <- ->. unfold lacks in Ha. cbn in Ha.
           apply andb_prop in Ha as [_ Ha].
           injection (proj2 (IH a') (conj eq_refl Ha)) as -> ->. reflexivity.
Qed.

End TextFacts.

(** ** Canvas host resolution *)

Section CanvasFacts.
Import Text Canvas.

Lemma nonEmptyTrimmed_takeIf (o : option string) :
  takeIfNotEmpty (option_map trim o) = nonEmptyTrimmed o.
Proof. destruct o as [s|]; reflexivity. Qed.

Lemma nonEmptyTrimmed_nonempty (o : option string) (h : string) :
  nonEmptyTrimmed o = Some h -> isEmpty h = false.
Proof.
  destruct o as [s|]; simpl; [|discriminate].
  destruct (isEmpty (trim s)) eqn:E; [discriminate|].
  intros [= <-]. exact E.
Qed.

(** The host the code falls back to is the first present, non-empty
    candidate; it is empty exactly when there is none. *)
Lemma fallbackHost_spec (endpoint : BridgeEndpoint) :
  match takeIfNotEmpty (option_map trim (tailnetDns endpoint)) with
  | Some h => h
  | None =>
      match takeIfNotEmpty (option_map trim (lanHost endpoint)) with
      | Some h => h
      | None => trim (ep_host endpoint)
      end
  end = orEmpty (specFallbackHost endpoint)
  /\ (forall h, specFallbackHost endpoint = Some h -> isEmpty h = false).
Proof.
  unfold specFallbackHost, firstNonEmpty. rewrite !nonEmptyTrimmed_takeIf.
  cbn [omap list_omap].
  destruct (nonEmptyTrimmed (tailnetDns endpoint)) as [t|] eqn:Et.
  { split; [reflexivity|]. intros h [= <-]. eauto using nonEmptyTrimmed_nonempty. }
  destruct (nonEmptyTrimmed (lanHost endpoint)) as [l|] eqn:El.
  { split; [reflexivity|]. intros h [= <-]. eauto using nonEmptyTrimmed_nonempty. }
  destruct (nonEmptyTrimmed (Some (ep_host endpoint))) as [e|] eqn:Ee.
  { split.
    - simpl in Ee. destruct (isEmpty (trim (ep_host endpoint))); [discriminate|].
      injection Ee as <-. reflexivity.
    - intros h [= <-]. eauto using nonEmptyTrimmed_nonempty. }
  split; [|discriminate].
  simpl in Ee. destruct (trim (ep_host endpoint)); [reflexivity|discriminate].
Qed.

End CanvasFacts.

Section CanvasResolution.
Import Text Canvas.

(** An advertised URL that passes the test of the code is returned as it
    is. *)
Lemma resolution_usable parseURI raw endpoint :
  usable parseURI raw = true ->
  normalizeCanvasHostUrl parseURI raw endpoint = Some (advertised raw).
Proof.
  intros Hu. unfold usable, advertisedHost, advertisedURI, advertised in Hu.
  unfold normalizeCanvasHostUrl. rewrite Hu. reflexivity.
Qed.

Lemma resolution_fallback parseURI raw endpoint h :
  usable parseURI raw = false ->
  specFallbackHost endpoint = Some h ->
  normalizeCanvasHostUrl parseURI raw endpoint =
    Some (advertisedScheme parseURI raw ++ "://" ++ bracketed h ++ ":"
          ++ Z_to_string (specFallbackPort parseURI raw endpoint)).
Proof.
  intros Hu Hh.
  unfold usable, advertisedHost, advertisedURI, advertised in Hu.
  unfold normalizeCanvasHostUrl. rewrite Hu.
  destruct (fallbackHost_spec endpoint) as [-> Hne].
  rewrite Hh. cbn [orEmpty]. rewrite (Hne h Hh).
  unfold bracketed, specFallbackPort, advertisedPort, advertisedScheme,
    advertisedURI, advertised, ifBlank.
  destruct (canvasPort endpoint) as [p|].
  + f_equal. f_equal.
    destruct (if isNotBlank (orEmpty (option_map trim raw))
              then parseURI (orEmpty (option_map trim raw)) else None) as [u|];
      [|reflexivity].
    cbn. destruct (Canvas.scheme u) as [sc|]; reflexivity.
  + destruct (if isNotBlank (orEmpty (option_map trim raw))
              then parseURI (orEmpty (option_map trim raw)) else None) as [u|].
    * cbn. destruct (Canvas.scheme u) as [sc|]; cbn;
        destruct (0 <? Canvas.port u); reflexivity.
    * reflexivity.
Qed.

(** Without any fallback host the advertised text is all there is. *)
Lemma canvas_no_fallback_host parseURI raw endpoint :
  usable parseURI raw = false ->
  specFallbackHost endpoint = None ->
  normalizeCanvasHostUrl parseURI raw endpoint =
    if isBlank (advertised raw) then None else Some (advertised raw).
Proof.
  intros Hu Hh.
  unfold usable, advertisedHost, advertisedURI, advertised in Hu.
  unfold normalizeCanvasHostUrl. rewrite Hu.
  destruct (fallbackHost_spec endpoint) as [-> _]. rewrite Hh. reflexivity.
Qed.

(** On a host that is no IPv6 literal the test of the code is the list of
    the specification. *)
Lemma loopback_by_list (host : string) :
  isIPv6Literal (lowercase (trim host)) = false ->
  isLoopbackHost (Some host) = specLoopback (lowercase (trim host)).
Proof.
  unfold isLoopbackHost, specLoopback, isIPv6Literal. cbn [option_map orEmpty].
  generalize (lowercase (trim host)) as h. intros h Hcolon.
  destruct (isEmpty h) eqn:He.
  { destruct h; [reflexivity|discriminate]. }
  destruct (String.eqb h "localhost"); [reflexivity|].
  destruct (String.eqb_spec h "::1") as [->|_]; [discriminate|].
  destruct (String.eqb_spec h "::") as [->|_]; [discriminate|].
  rewrite orb_false_r. cbn [orb].
  destruct (String.eqb h "0.0.0.0"); reflexivity.
Qed.

Lemma advertisedHost_trimmed parseURI raw :
  trim (advertisedHost parseURI raw) = advertisedHost parseURI raw.
Proof.
  unfold advertisedHost.
  destruct (advertisedURI parseURI raw ≫= host) as [x|]; cbn [option_map orEmpty].
  - apply trim_idem.
  - reflexivity.
Qed.

Lemma usable_by_list parseURI raw :
  isIPv6Literal (comparedHost parseURI raw) = false ->
  usable parseURI raw =
    isNotBlank (advertised raw) && negb (specLoopback (comparedHost parseURI raw)).
Proof.
  unfold usable, comparedHost. intros Hcolon.
  rewrite loopback_by_list; rewrite advertisedHost_trimmed; [reflexivity|exact Hcolon].
Qed.

(** C1, as the code has it, for an advertised URL whose host is no IPv6
    literal. For every URI parser, such URL and endpoint: an advertised URL
    that is not blank and whose host (trimmed, in lower case) is not
    [localhost], not [0.0.0.0] and does not start with [127.] is returned
    as it is (trimmed). Otherwise, when the endpoint offers a fallback host
    (the first non-empty of its tailnet DNS name, its LAN host and its
    connect host), the result is [scheme://host:port] with the advertised
    scheme or [http], the host in square brackets when it contains a colon,
    and as port the endpoint's canvas port if given, else the port of the
    advertised URL if it has one, else 18793; when the endpoint offers no
    host, the result is the advertised text, or nothing if that is blank.
    The three concrete cases give ["http://10.0.0.5:18793"],
    ["http://node1.ts.net:18793"] and ["http://203.0.113.9:9000"]. *)
Theorem canvas_host_resolution :
  (forall parseURI raw endpoint,
      isIPv6Literal (comparedHost parseURI raw) = false ->
      let loopback := specLoopback (comparedHost parseURI raw) in
      (isBlank (advertised raw) = false -> loopback = false ->
         normalizeCanvasHostUrl parseURI raw endpoint = Some (advertised raw))
      /\ (isBlank (advertised raw) = true \/ loopback = true ->
          forall h, specFallbackHost endpoint = Some h ->
            normalizeCanvasHostUrl parseURI raw endpoint =
              Some (advertisedScheme parseURI raw ++ "://" ++ bracketed h ++ ":"
                    ++ Z_to_string (specFallbackPort parseURI raw endpoint)))
      /\ (isBlank (advertised raw) = true \/ loopback = true ->
          specFallbackHost endpoint = None ->
          normalizeCanvasHostUrl parseURI raw endpoint =
            if isBlank (advertised raw) then None else Some (advertised raw)))
  /\ normalizeCanvasHostUrl hierURI (Some "http://10.0.0.5:18793") endpointB
       = Some "http://10.0.0.5:18793"
  /\ normalizeCanvasHostUrl hierURI (Some EmptyString) endpointA
       = Some "http://node1.ts.net:18793"
  /\ normalizeCanvasHostUrl hierURI (Some "http://127.0.0.1:9000") endpointB
       = Some "http://203.0.113.9:9000".
Proof.
  split; [|repeat split; reflexivity].
  intros parseURI raw endpoint Hcolon loopback.
  pose proof (usable_by_list parseURI raw Hcolon) as Hu. fold loopback in Hu.
  unfold isNotBlank in Hu.
  assert (Hno : isBlank (advertised raw) = true \/ loopback = true ->
                usable parseURI raw = false).
  { intros [H|H]; rewrite Hu, H; [reflexivity|apply andb_false_r]. }
  split; [|split].
  - intros Hb Hl. apply resolution_usable. rewrite Hu, Hb, Hl. reflexivity.
  - intros H h Hh. exact (resolution_fallback parseURI raw endpoint h (Hno H) Hh).
  - intros H Hh. exact (canvas_no_fallback_host parseURI raw endpoint (Hno H) Hh).
Qed.

Lemma canvas_host_resolution_witness :
  normalizeCanvasHostUrl hierURI (Some "https://gw.example:8443") endpointA
    = Some "https://gw.example:8443"
  /\ normalizeCanvasHostUrl hierURI (Some " http://LocalHost:9000/x ") endpointA
    = Some "http://node1.ts.net:18793"
  /\ normalizeCanvasHostUrl hierURI (Some "http://0.0.0.0:9000") endpointB
    = Some "http://203.0.113.9:9000".
Proof.
  split; [|split].
  - exact (proj1 (proj1 canvas_host_resolution hierURI
                    (Some "https://gw.example:8443") endpointA eq_refl)
             eq_refl eq_refl).
  - exact (proj1 (proj2 (proj1 canvas_host_resolution hierURI
                           (Some " http://LocalHost:9000/x ") endpointA eq_refl))
             (or_intror eq_refl) "node1.ts.net" eq_refl).
  - exact (proj1 (proj2 (proj1 canvas_host_resolution hierURI
                           (Some "http://0.0.0.0:9000") endpointB eq_refl))
             (or_intror eq_refl) "203.0.113.9" eq_refl).
Defined.

(** C1 as stated fails on its third case: without an explicit canvas port
    the fallback keeps the port of the advertised loopback URL. *)
Lemma canvas_default_port_counterexample :
  normalizeCanvasHostUrl hierURI (Some "http://127.0.0.1:9000") endpointB
    = Some "http://203.0.113.9:9000"
  /\ normalizeCanvasHostUrl hierURI (Some "http://127.0.0.1:9000") endpointB
    <> Some "http://203.0.113.9:18793".
Proof. split; [reflexivity | discriminate]. Qed.

End CanvasResolution.


Section InvokeErrors.
Import Text Json Bridge.

Lemma invokeError_cut (err : Throwable) :
  invokeErrorFromThrowable err =
    match cut ":" (throwableText err) with
    | (a, Some b) =>
        if isErrorCode (trim a)
        then InvokeResult_error (trim a) (ifEmpty (trim b) (throwableText err))
        else InvokeResult_error "UNAVAILABLE" (throwableText err)
    | (_, None) => InvokeResult_error "UNAVAILABLE" (throwableText err)
    end.
Proof.
  unfold invokeErrorFromThrowable, split2, isErrorCode.
  destruct (cut ":" (throwableText err)) as [a [b|]]; reflexivity.
Qed.

Lemma isCodeChar_spec (u : string) :
  charIs isCodeChar u = true <-> charIs isUpperCase u = true \/ u = "_".
Proof.
  unfold charIs, isCodeChar. split.
  - destruct (codePoint u) as [cp|] eqn:E; [|discriminate].
    intros [H|H]%orb_prop; [left; exact H|right].
    apply N.eqb_eq in H. subst cp.
    exact (codePoint_ascii u 95 E ltac:(lia)).
  - intros [H| ->]; [|reflexivity].
    destruct (codePoint u); [|discriminate]. rewrite H. reflexivity.
Qed.

(** The test of the code for a code: a text that is not empty and whose
    characters are upper case letters or underscores. *)
Lemma isErrorCode_spec (c : string) :
  isErrorCode c = true
  <-> c <> EmptyString
      /\ Forall (fun u => charIs isUpperCase u = true \/ u = "_") (chars c).
Proof.
  unfold isErrorCode, allChars. rewrite andb_true_iff, negb_true_iff.
  rewrite forallb_forall, List.Forall_forall.
  split; intros [H1 H2]; (split; [destruct c; cbn in *; congruence|]);
    intros u Hu; apply isCodeChar_spec, H2, Hu.
Qed.

(** C10. The error of an invoke whose handler throws comes from the text of
    the exception, which is the trimmed message, or the class name when the
    message is missing or blank. When the text is [CODE ":" rest] with
    [CODE] (trimmed) non-empty and made of upper case letters and
    underscores, the error has that code and the trimmed rest as message,
    or the whole text when the rest is empty; in every other case the code
    is ["UNAVAILABLE"] and the message is the whole text. The frame written
    in answer is an [invoke-res] with the id of the invoke, [ok] false, no
    payload and that code and message in its [error] object. *)
Theorem invoke_error_from_throwable :
  (forall c,
      isErrorCode c = true
      <-> c <> EmptyString
          /\ Forall (fun u => charIs isUpperCase u = true \/ u = "_") (chars c))
  /\ (forall err pre post,
      throwableText err = pre ++ String ":" post ->
      lacks ":" pre = true ->
      isErrorCode (trim pre) = true ->
      invokeErrorFromThrowable err =
        {| ok := false; payloadJson := None;
           error := Some {| code := trim pre;
                            message := if isEmpty (trim post)
                                       then throwableText err else trim post |} |})
  /\ (forall err,
      (forall pre post,
          throwableText err = pre ++ String ":" post ->
          lacks ":" pre = true ->
          isErrorCode (trim pre) = false) ->
      invokeErrorFromThrowable err =
        {| ok := false; payloadJson := None;
           error := Some {| code := "UNAVAILABLE"; message := throwableText err |} |})
  /\ (forall err m,
      thr_message err = Some m -> isBlank m = false ->
      throwableText err = trim m)
  /\ (forall err,
      (forall m, thr_message err = Some m -> isBlank m = true) ->
      throwableText err = simpleName err)
  /\ (forall err,
      (forall m, thr_message err = Some m -> isBlank m = true) ->
      lacks ":" (simpleName err) = true ->
      invokeErrorFromThrowable err =
        {| ok := false; payloadJson := None;
           error := Some {| code := "UNAVAILABLE"; message := simpleName err |} |})
  /\ (forall onInvoke s frame id err rest,
      asStringOrNull (get frame "type") = Some "invoke" ->
      asStringOrNull (get frame "id") = Some id ->
      onInvoke {| req_id := id;
                  req_command := orElse (asStringOrNull (get frame "command")) EmptyString;
                  req_paramsJson := asStringOrNull (get frame "paramsJSON") |}
        = inr err ->
      exists e,
        error (invokeErrorFromThrowable err) = Some e
        /\ readLoop onInvoke s (Frame (JsonObject frame) :: rest) =
             readLoop onInvoke
               (emit (Sent (JsonObject
                              [("type", JsonLiteral "invoke-res" true);
                               ("id", JsonLiteral id true);
                               ("ok", JsonLiteral "false" false);
                               ("error",
                                JsonObject [("code", JsonLiteral (code e) true);
                                            ("message", JsonLiteral (message e) true)])]))
                  s)
               rest).
Proof.
  assert (Htext : forall err,
             (forall m, thr_message err = Some m -> isBlank m = true) ->
             throwableText err = simpleName err).
  { intros err H. unfold throwableText.
    destruct (thr_message err) as [m|]; [|reflexivity].
    cbn. rewrite isEmpty_trim, (H m eq_refl). reflexivity. }
  assert (Hother : forall err,
             (forall pre post,
                 throwableText err = pre ++ String ":" post ->
                 lacks ":" pre = true ->
                 isErrorCode (trim pre) = false) ->
             invokeErrorFromThrowable err =
               InvokeResult_error "UNAVAILABLE" (throwableText err)).
  { intros err H. rewrite invokeError_cut.
    destruct (cut ":" (throwableText err)) as [a [b|]] eqn:Hc; [|reflexivity].
    apply cut_found in Hc as [Hm Hl]. rewrite (H a b Hm Hl). reflexivity. }
  split; [exact isErrorCode_spec|]. repeat split.
  - intros err pre post Hm Hl Hcode. rewrite invokeError_cut.
    rewrite (proj2 (cut_found ":" _ pre post) (conj Hm Hl)), Hcode.
    reflexivity.
  - exact Hother.
  - intros err m Hm Hb. unfold throwableText. rewrite Hm. cbn.
    rewrite isEmpty_trim, Hb. reflexivity.
  - exact Htext.
  - intros err Hb Hl. rewrite <- (Htext err Hb). apply Hother.
    intros pre post Hm _. exfalso.
    rewrite (Htext err Hb) in Hm. rewrite Hm in Hl. clear - Hl.
    induction pre as [|c r IH]; unfold lacks in *; cbn in Hl.
    + discriminate.
    + apply andb_prop in Hl as [_ Hl]. exact (IH Hl).
  - intros onInvoke s frame id err rest Hty Hid Herr.
    assert (He : exists e, invokeErrorFromThrowable err
                           = {| ok := false; payloadJson := None; error := Some e |}).
    { rewrite invokeError_cut.
      destruct (cut ":" (throwableText err)) as [a [b|]];
        [destruct (isErrorCode (trim a))|]; eexists; reflexivity. }
    destruct He as [e He]. exists e. split; [rewrite He; reflexivity|].
    cbn [readLoop asObjectOrNull]. rewrite Hty. cbn. rewrite Hid.
    unfold invokeResult. rewrite Herr, He. reflexivity.
Qed.

Lemma invoke_error_from_throwable_witness :
  invokeErrorFromThrowable (IllegalStateException " CAMERA_DISABLED: enable Camera ")
    = {| ok := false; payloadJson := None;
         error := Some {| code := "CAMERA_DISABLED"; message := "enable Camera" |} |}
  /\ invokeErrorFromThrowable (IllegalStateException "NOT_AUTHORIZED:")
    = {| ok := false; payloadJson := None;
         error := Some {| code := "NOT_AUTHORIZED"; message := "NOT_AUTHORIZED:" |} |}
  /\ invokeErrorFromThrowable (IllegalStateException "ÉTAT: hors ligne　")
    = {| ok := false; payloadJson := None;
         error := Some {| code := "ÉTAT"; message := "hors ligne" |} |}
  /\ invokeErrorFromThrowable (IllegalStateException "E2BIG: argument list too long")
    = {| ok := false; payloadJson := None;
         error := Some {| code := "UNAVAILABLE";
                          message := "E2BIG: argument list too long" |} |}
  /\ invokeErrorFromThrowable {| simpleName := "NullPointerException";
                                 thr_message := Some "   " |}
    = {| ok := false; payloadJson := None;
         error := Some {| code := "UNAVAILABLE"; message := "NullPointerException" |} |}.
Proof.
  pose proof (proj2 invoke_error_from_throwable) as (Hcode & Hother & _ & _ & Hname & _).
  split; [|split; [|split; [|split]]].
  - exact (Hcode (IllegalStateException " CAMERA_DISABLED: enable Camera ")
             "CAMERA_DISABLED" " enable Camera" eq_refl eq_refl eq_refl).
  - exact (Hcode (IllegalStateException "NOT_AUTHORIZED:")
             "NOT_AUTHORIZED" EmptyString eq_refl eq_refl eq_refl).
  - exact (Hcode (IllegalStateException "ÉTAT: hors ligne　")
             "ÉTAT" " hors ligne" eq_refl eq_refl eq_refl).
  - refine (Hother (IllegalStateException "E2BIG: argument list too long") _).
    intros pre post Hm Hl.
    pose proof (proj2 (cut_found ":" _ pre post) (conj Hm Hl)) as Hcut.
    vm_compute in Hcut. injection Hcut as <- _. reflexivity.
  - refine (Hname {| simpleName := "NullPointerException"; thr_message := Some "   " |}
              _ eq_refl).
    intros m [= <-]. reflexivity.
Defined.

End InvokeErrors.

(** ** The correlation table *)

Section Table.
Import Text Json Bridge.

Lemma cancelDeferred_lookup (h h' : nat) (ds : list DeferredState) :
  cancelDeferred h ds !! h' =
    if decide (h = h') then cancelledState <$> ds !! h' else ds !! h'.
Proof.
  unfold cancelDeferred. destruct (decide (h = h')) as [<-|Hne].
  - destruct (ds !! h) as [[]|] eqn:E; rewrite ?E; try reflexivity.
    rewrite list_lookup_insert_eq; [reflexivity|].
    eapply lookup_lt_Some; eassumption.
  - destruct (ds !! h) as [[]|] eqn:E; try reflexivity.
    apply list_lookup_insert_ne. exact Hne.
Qed.

Lemma cancel_fold_lookup (l : list (string * nat)) (ds : list DeferredState) (h : nat) :
  foldr (fun kv acc => cancelDeferred (snd kv) acc) ds l !! h =
    if decide (h ∈ l.*2) then cancelledState <$> ds !! h else ds !! h.
Proof.
  induction l as [|[k h0] l IH]; cbn [foldr fmap list_fmap snd].
  - destruct (decide (h ∈ [])) as [Hin|_]; [|reflexivity].
    apply elem_of_nil in Hin. contradiction.
  - rewrite cancelDeferred_lookup, IH.
    destruct (decide (h0 = h)) as [->|Hne].
    + destruct (decide (h ∈ h :: l.*2)) as [_|Hn]; [|exfalso; apply Hn; left].
      destruct (decide (h ∈ l.*2)); destruct (ds !! h) as [[]|]; reflexivity.
    + destruct (decide (h ∈ l.*2)) as [Hin|Hnin].
      * destruct (decide (h ∈ h0 :: l.*2)) as [_|Hn]; [reflexivity|].
        exfalso. apply Hn. right. exact Hin.
      * destruct (decide (h ∈ h0 :: l.*2)) as [Hin'|_]; [|reflexivity].
        apply elem_of_cons in Hin' as [->|Hin']; contradiction.
Qed.

Lemma cancelAll_entry (p : gmap string nat) (ds : list DeferredState)
    (id : string) (h : nat) :
  p !! id = Some h -> ds !! h = Some Active ->
  cancelAll p ds !! h = Some Cancelled.
Proof.
  intros Hp Hd. unfold cancelAll. rewrite cancel_fold_lookup.
  destruct (decide (h ∈ (map_to_list p).*2)) as [_|Hn].
  - rewrite Hd. reflexivity.
  - exfalso. apply Hn. apply list_elem_of_fmap. exists (id, h). split; [reflexivity|].
    apply elem_of_map_to_list. exact Hp.
Qed.

Lemma awaitOf_suspended (s : Session) (h : nat) :
  awaitOf s h = Some Suspended <-> deferreds s !! h = Some Active.
Proof.
  unfold awaitOf. split.
  - destruct (deferreds s !! h) as [[|r|]|]; cbn; try discriminate; [reflexivity|].
    destruct (rok r); discriminate.
  - intros ->. reflexivity.
Qed.

Lemma tableInv_empty (s : Session) : pending s = ∅ -> tableInv s.
Proof.
  intros E. split; intros *; rewrite E, lookup_empty; discriminate.
Qed.

Lemma completeDeferred_lookup (h h' : nat) (r : RpcResponse) (ds : list DeferredState) :
  completeDeferred h r ds !! h' =
    if decide (h = h')
    then match ds !! h' with Some Active => Some (Completed r) | d => d end
    else ds !! h'.
Proof.
  unfold completeDeferred. destruct (decide (h = h')) as [<-|Hne].
  - destruct (ds !! h) as [[]|] eqn:E; rewrite ?E; try reflexivity.
    apply list_lookup_insert_eq. eapply lookup_lt_Some; eassumption.
  - destruct (ds !! h) as [[]|] eqn:E; try reflexivity.
    apply list_lookup_insert_ne. exact Hne.
Qed.

Lemma completePending_inv (id : string) (r : RpcResponse) (s : Session) :
  tableInv s -> tableInv (completePending id r s).
Proof.
  intros [Hact Hinj]. unfold completePending.
  destruct (pending s !! id) as [h|] eqn:Hp; [|split; assumption].
  split; cbn.
  - intros id' h' Hl. apply lookup_delete_Some in Hl as [Hne Hl].
    rewrite completeDeferred_lookup.
    destruct (decide (h = h')) as [<-|_]; [|eauto].
    exfalso. apply Hne. eauto.
  - intros id1 id2 h' H1 H2.
    apply lookup_delete_Some in H1 as [_ H1].
    apply lookup_delete_Some in H2 as [_ H2]. eauto.
Qed.

Lemma request_begin_inv (id method : string) (params : option string)
    (s : Session) (c : Connection) :
  currentConnection s = Some c -> tableInv s ->
  exists s1,
    request_begin id method params s = (s1, inl (length (deferreds s)))
    /\ tableInv s1
    /\ pending s1 = <[id := length (deferreds s)]> (pending s)
    /\ deferreds s1 = (deferreds s ++ [Active])%list
    /\ currentConnection s1 = Some c.
Proof.
  intros Hc [Hact Hinj]. unfold request_begin. rewrite Hc.
  eexists. split; [reflexivity|].
  unfold tableInv, sendJson, emit, setTable.
  cbn [pending deferreds currentConnection].
  split; [split|repeat split; exact Hc].
  - intros id' h' Hl. apply lookup_insert_Some in Hl as [[_ <-]|[_ Hl]].
    + apply list_lookup_middle. reflexivity.
    + apply lookup_app_l_Some. eauto.
  - intros id1 id2 h' H1 H2.
    apply lookup_insert_Some in H1 as [[<- <-]|[Hn1 H1]];
      apply lookup_insert_Some in H2 as [[<- E]|[Hn2 H2]]; try reflexivity.
    + apply Hact in H2. apply lookup_lt_Some in H2. lia.
    + subst h'. apply Hact in H1. apply lookup_lt_Some in H1. lia.
    + eauto.
Qed.

Lemma registerAll_spec (reqs : list (string * string * option string))
    (s : Session) (c : Connection) :
  currentConnection s = Some c -> tableInv s -> NoDup (requestIds reqs) ->
  tableInv (fst (registerAll reqs s))
  /\ forall i id, requestIds reqs !! i = Some id ->
       exists h, snd (registerAll reqs s) !! i = Some h
                 /\ pending (fst (registerAll reqs s)) !! id = Some h.
Proof.
  revert s. induction reqs as [|[[id0 m] p] reqs IH]; intros s Hc Hinv Hnd.
  - split; [exact Hinv|]. intros i id Hi. destruct i; discriminate.
  - cbn [requestIds map fst] in Hnd. apply NoDup_cons in Hnd as [Hnin Hnd].
    destruct (request_begin_inv id0 m p s c Hc Hinv) as (s1 & E & Hinv1 & Hp1 & _ & Hc1).
    cbn [registerAll]. rewrite E.
    destruct (IH s1 Hc1 Hinv1 Hnd) as [Hinv2 Hreg].
    destruct (registerAll reqs s1) as [s2 hs] eqn:Er. cbn [fst snd] in *.
    split; [exact Hinv2|].
    intros [|i] id Hi; cbn in Hi.
    + injection Hi as <-. exists (length (deferreds s)). split; [reflexivity|].
      assert (Hkeep : forall rs t,
                 id0 ∉ requestIds rs ->
                 pending (fst (registerAll rs t)) !! id0 = pending t !! id0).
      { clear. induction rs as [|[[i1 m1] p1] rs IHr]; intros t Hn; [reflexivity|].
        cbn [requestIds map fst] in Hn. apply not_elem_of_cons in Hn as [Hne Hn].
        cbn [registerAll]. unfold request_begin.
        destruct (currentConnection t); [|reflexivity].
        match goal with |- context [registerAll rs ?t1] =>
          specialize (IHr t1 Hn); destruct (registerAll rs t1) as [t2 hs2] end.
        cbn [fst] in *. rewrite IHr. cbn. apply lookup_insert_ne. congruence. }
      specialize (Hkeep reqs s1 Hnin). rewrite Er in Hkeep. cbn [fst] in Hkeep.
      rewrite Hkeep, Hp1. apply lookup_insert_eq.
    + destruct (Hreg i id Hi) as (h & Hh & Hp). exists h. split; assumption.
Qed.

Lemma completeAll_untouched (rs : list RpcResponse) (s : Session) (h : nat) :
  (forall id, pending s !! id <> Some h) ->
  deferreds (completeAll rs s) !! h = deferreds s !! h.
Proof.
  revert s. induction rs as [|r rs IH]; intros s Hfree; [reflexivity|].
  unfold completeAll. cbn [fold_left]. fold (completeAll rs (completePending (rid r) r s)).
  rewrite IH.
  - unfold completePending. destruct (pending s !! rid r) as [h0|] eqn:Hp; [|reflexivity].
    cbn. rewrite completeDeferred_lookup.
    destruct (decide (h0 = h)) as [->|_]; [|reflexivity].
    exfalso. exact (Hfree _ Hp).
  - intros id. unfold completePending.
    destruct (pending s !! rid r) as [h0|] eqn:Hp; [|apply Hfree].
    cbn. intros Hl. apply lookup_delete_Some in Hl as [_ Hl]. exact (Hfree _ Hl).
Qed.

Lemma completeAll_each (rs : list RpcResponse) (s : Session) (r : RpcResponse) (h : nat) :
  tableInv s -> NoDup (map rid rs) -> r ∈ rs ->
  pending s !! rid r = Some h ->
  deferreds (completeAll rs s) !! h = Some (Completed r).
Proof.
  revert s. induction rs as [|r0 rs IH]; intros s Hinv Hnd Hin Hp.
  - apply elem_of_nil in Hin. contradiction.
  - cbn [map] in Hnd. apply NoDup_cons in Hnd as [Hnin Hnd].
    unfold completeAll. cbn [fold_left].
    fold (completeAll rs (completePending (rid r0) r0 s)).
    apply elem_of_cons in Hin as [->|Hin].
    + rewrite completeAll_untouched.
      * unfold completePending. rewrite Hp. cbn. rewrite completeDeferred_lookup.
        destruct (decide (h = h)) as [_|]; [|contradiction].
        rewrite (proj1 Hinv _ _ Hp). reflexivity.
      * intros id. unfold completePending. rewrite Hp. cbn. intros Hl.
        apply lookup_delete_Some in Hl as [Hne Hl].
        apply Hne. exact (proj2 Hinv _ _ _ Hp Hl).
    + apply IH; [apply completePending_inv; exact Hinv|exact Hnd|exact Hin|].
      assert (Hne : rid r0 <> rid r).
      { intros E. apply Hnin. rewrite E. apply list_elem_of_fmap. eauto. }
      unfold completePending. destruct (pending s !! rid r0); [|exact Hp].
      cbn. rewrite lookup_delete_ne; assumption.
Qed.

Lemma decodeRes_resFrame (r : RpcResponse) :
  exists fields,
    resFrame r = JsonObject fields
    /\ asStringOrNull (get fields "type") = Some "res"
    /\ asStringOrNull (get fields "id") = Some (rid r)
    /\ decodeRes (rid r) fields = r.
Proof.
  eexists. split; [reflexivity|].
  destruct r as [id [] [p|] [[c m]|]]; repeat split.
Qed.

Lemma readLoop_res (onInvoke : InvokeRequest -> InvokeResult + Throwable)
    (s : Session) (r : RpcResponse) (rest : list Incoming) :
  readLoop onInvoke s (Frame (resFrame r) :: rest) =
    readLoop onInvoke (completePending (rid r) r s) rest.
Proof.
  destruct (decodeRes_resFrame r) as (fields & E & Hty & Hid & Hdec).
  rewrite E. cbn [readLoop asObjectOrNull]. rewrite Hty. cbn. rewrite Hid, Hdec.
  reflexivity.
Qed.

Lemma readLoop_responses (onInvoke : InvokeRequest -> InvokeResult + Throwable)
    (rs : list RpcResponse) (s : Session) :
  readLoop onInvoke s (map (fun r => Frame (resFrame r)) rs) = (completeAll rs s, Normal).
Proof.
  revert s. induction rs as [|r rs IH]; intros s; [reflexivity|].
  cbn [map]. rewrite readLoop_res, IH. reflexivity.
Qed.

End Table.

Section Correlation.
Import Text Json Canvas Bridge.

Lemma outstanding_of_inv (s : Session) : tableInv s -> outstanding s.
Proof.
  intros [Hact _] id h Hp. apply awaitOf_suspended. eauto.
Qed.

Lemma readLoop_inv (onInvoke : InvokeRequest -> InvokeResult + Throwable)
    (input : list Incoming) (s : Session) :
  tableInv s -> tableInv (fst (readLoop onInvoke s input)).
Proof.
  revert s. induction input as [|[e|err|err] rest IH]; intros s H;
    cbn [readLoop]; try exact H.
  destruct (asObjectOrNull e) as [frame|]; [|auto].
  destruct (asStringOrNull (get frame "type")) as [ty|]; [|auto].
  destruct (String.eqb ty "event").
  { destruct (asStringOrNull (get frame "event")); [|exact H].
    apply IH. exact H. }
  destruct (String.eqb ty "ping"); [apply IH; exact H|].
  destruct (String.eqb ty "res").
  { destruct (asStringOrNull (get frame "id")); [|auto].
    apply IH. apply completePending_inv. exact H. }
  destruct (String.eqb ty "invoke"); [|auto].
  destruct (asStringOrNull (get frame "id")); [|auto].
  apply IH. exact H.
Qed.

Lemma session_inv parseURI onInvoke endpoint hello conn input (s : Session) :
  tableInv s ->
  tableInv (fst (session parseURI onInvoke endpoint hello conn input s)).
Proof.
  intros H. unfold session.
  destruct (handshake (head input)) as [[name raw]|err]; [|exact H].
  apply readLoop_inv. exact H.
Qed.

(** What holds of a session before the read loop and is kept by the
    callbacks, by the frames written and by the removal of an answered
    entry holds after it. *)
Lemma readLoop_keeps (P : Session -> Prop)
    (onInvoke : InvokeRequest -> InvokeResult + Throwable) :
  (forall s e, P s -> P (emit e s)) ->
  (forall s id r, P s -> P (completePending id r s)) ->
  forall input s, P s -> P (fst (readLoop onInvoke s input)).
Proof.
  intros Hemit Hcomplete.
  induction input as [|[e|err|err] rest IH]; intros s H;
    cbn [readLoop]; try exact H.
  destruct (asObjectOrNull e) as [frame|]; [|auto].
  destruct (asStringOrNull (get frame "type")) as [ty|]; [|auto].
  destruct (String.eqb ty "event").
  { destruct (asStringOrNull (get frame "event")); [|exact H].
    apply IH, Hemit, H. }
  destruct (String.eqb ty "ping"); [apply IH, Hemit, H|].
  destruct (String.eqb ty "res").
  { destruct (asStringOrNull (get frame "id")); [|auto].
    apply IH, Hcomplete, H. }
  destruct (String.eqb ty "invoke"); [|auto].
  destruct (asStringOrNull (get frame "id")); [|auto].
  apply IH, Hemit, H.
Qed.

Lemma readLoop_waiter (onInvoke : InvokeRequest -> InvokeResult + Throwable)
    (id : string) (h : nat) (input : list Incoming) (s : Session) :
  waiterKept id h s -> waiterKept id h (fst (readLoop onInvoke s input)).
Proof.
  apply (readLoop_keeps (waiterKept id h)); clear.
  - intros s e H. exact H.
  - intros s id' r [Hinv H]. split; [apply completePending_inv; exact Hinv|].
    unfold completePending. destruct (pending s !! id') as [h'|] eqn:Hp; [|exact H].
    cbn [pending deferreds setTable]. destruct H as [H|[res H]].
    + destruct (decide (id' = id)) as [->|Hne].
      * right. rewrite Hp in H. injection H as ->. exists r.
        rewrite completeDeferred_lookup.
        destruct (decide (h = h)); [|contradiction].
        rewrite (proj1 Hinv _ _ Hp). reflexivity.
      * left. rewrite lookup_delete_ne; assumption.
    + right. exists res. rewrite completeDeferred_lookup.
      destruct (decide (h' = h)); [|exact H]. rewrite H. reflexivity.
Qed.

(** C6, as the code has it. Whatever is outstanding when the connection is
    torn down by the [finally] block of connectOnce: every waiter is
    resolved by cancellation, so that the await in request throws a
    [CancellationException] instead of staying suspended, and the table is
    left empty. Every connectOnce that had opened its socket ends in that
    [finally] block, and so does the connection of a session on which
    disconnect was called, once its stream ends: a waiter of that session
    is then cancelled, unless a response that still arrived completed it.
    The failure "not connected" is the one request throws when it is
    called without a connection; it registers nothing then. *)
Theorem pending_cancelled_on_teardown :
  (forall s, outstanding s ->
      pending (finallyBlock s) = ∅
      /\ forall id h, pending s !! id = Some h ->
           awaitOf (finallyBlock s) h = Some ThrowsCancellation)
  /\ (forall parseURI onInvoke endpoint hello w s0,
      tableInv s0 -> connectError w = None ->
      exists s2, outstanding s2
                 /\ fst (connectOnce parseURI onInvoke endpoint hello w s0)
                    = finallyBlock s2)
  /\ (forall onInvoke unwinding lines s,
      tableInv s -> is_Some (currentConnection s) ->
      let off := disconnect onInvoke unwinding (Delivers lines) s in
      pending off = ∅
      /\ forall id h, pending s !! id = Some h ->
           awaitOf off h = Some ThrowsCancellation
           \/ exists res, awaitOf off h = Some (request_await (Completed res)))
  /\ (forall id method params s,
      currentConnection s = None ->
      request_begin id method params s
        = (s, inr (IllegalStateException "not connected"))).
Proof.
  assert (Hfin : forall s, outstanding s ->
             forall id h, pending s !! id = Some h ->
               awaitOf (finallyBlock s) h = Some ThrowsCancellation).
  { intros s Hout id h Hp. unfold awaitOf. cbn.
    rewrite (cancelAll_entry _ _ id h Hp); [reflexivity|].
    apply awaitOf_suspended. eauto. }
  split; [|split; [|split]].
  - intros s Hout. split; [reflexivity|]. apply Hfin. exact Hout.
  - intros parseURI onInvoke endpoint hello w s0 Hinv Hw.
    unfold connectOnce. rewrite Hw.
    pose proof (session_inv parseURI onInvoke endpoint hello
                  {| remoteAddress := remote w |} (incoming w)
                  (setCurrentConnection (Some {| remoteAddress := remote w |}) s0) Hinv)
      as Hinv2.
    destruct (session parseURI onInvoke endpoint hello _ (incoming w) _) as [s2 e].
    exists s2. split; [apply outstanding_of_inv; exact Hinv2|reflexivity].
  - intros onInvoke unwinding lines s Hinv [c Hc] off.
    subst off. unfold disconnect. cbn [currentConnection setDesired]. rewrite Hc.
    split; [reflexivity|]. intros id h Hp.
    assert (Hkept : waiterKept id h (setDesired None s)) by (split; [exact Hinv|left; exact Hp]).
    apply (readLoop_waiter onInvoke id h lines) in Hkept.
    destruct Hkept as [Hinv' [Hp'|[res Hres]]].
    + left. exact (Hfin _ (outstanding_of_inv _ Hinv') id h Hp').
    + right. exists res. unfold awaitOf.
      cbn [deferreds emit setCanvasHostUrl finallyBlock setTable setCurrentConnection].
      unfold cancelAll. rewrite cancel_fold_lookup.
      destruct (decide (h ∈ (map_to_list _).*2)); rewrite Hres; reflexivity.
  - intros id method params s Hc. unfold request_begin. rewrite Hc. reflexivity.
Qed.

Lemma twoRequests_distinct : NoDup (requestIds twoRequests).
Proof.
  unfold twoRequests, requestIds. cbn.
  constructor.
  - intros Hin. apply list_elem_of_singleton in Hin. discriminate.
  - constructor; [|constructor]. intros Hin. apply elem_of_nil in Hin. exact Hin.
Qed.

Lemma twoPending_inv : tableInv twoPending.
Proof.
  apply (registerAll_spec twoRequests connectedSession
           {| remoteAddress := Some "10.0.0.2:18790" |}).
  - reflexivity.
  - apply tableInv_empty. reflexivity.
  - exact twoRequests_distinct.
Qed.

Lemma pending_cancelled_on_teardown_witness :
  (pending (finallyBlock twoPending) = ∅
   /\ awaitOf (finallyBlock twoPending) 0 = Some ThrowsCancellation
   /\ awaitOf (finallyBlock twoPending) 1 = Some ThrowsCancellation)
  /\ (exists s2, outstanding s2
                 /\ fst (connectOnce hierURI noInvoke endpointB sampleHello wireReset
                           connectedSession)
                    = finallyBlock s2)
  /\ (let off :=
        disconnect noInvoke cancellationException
          (Delivers [Frame (resFrame (responseFor "a" "A"))]) twoPending in
      pending off = ∅
      /\ awaitOf off 0 = Some (Returns "A")
      /\ awaitOf off 1 = Some ThrowsCancellation).
Proof.
  pose proof (outstanding_of_inv twoPending twoPending_inv) as Hout.
  pose proof (proj1 pending_cancelled_on_teardown twoPending Hout) as Hfin.
  pose proof (proj1 (proj2 (proj2 pending_cancelled_on_teardown)) noInvoke
                cancellationException [Frame (resFrame (responseFor "a" "A"))]
                twoPending twoPending_inv (ex_intro _ _ eq_refl)) as Hdis.
  split; [|split].
  - exact (conj (proj1 Hfin)
             (conj (proj2 Hfin "a" 0%nat eq_refl) (proj2 Hfin "b" 1%nat eq_refl))).
  - exact (proj1 (proj2 pending_cancelled_on_teardown) hierURI noInvoke endpointB
             sampleHello wireReset connectedSession
             (tableInv_empty connectedSession eq_refl) eq_refl).
  - cbv zeta in Hdis |- *. split; [exact (proj1 Hdis)|]. split; reflexivity.
Defined.

(** C6 as stated fails: the waiters of a connection that is torn down are
    cancelled, they do not fail with "not connected". *)
Lemma pending_failure_counterexample :
  awaitOf (finallyBlock twoPending) 0 = Some ThrowsCancellation
  /\ awaitOf (finallyBlock twoPending) 0
     <> Some (Throws (IllegalStateException "not connected"))
  /\ awaitOf (finallyBlock twoPending) 1 = Some ThrowsCancellation
  /\ pending (finallyBlock twoPending) = ∅.
Proof. repeat split. discriminate. Qed.

(** C7. Requests registered under distinct ids and answered in any order:
    each caller's waiter is completed with the response that carries its
    own id and with no other; a [res] frame whose id has no entry leaves
    the table and every waiter as they were. *)
Theorem correlation_any_order :
  (forall onInvoke s c reqs rs,
      currentConnection s = Some c ->
      tableInv s ->
      NoDup (requestIds reqs) ->
      map rid rs ≡ₚ requestIds reqs ->
      let registered := registerAll reqs s in
      let answered :=
        readLoop onInvoke (fst registered) (map (fun r => Frame (resFrame r)) rs) in
      snd answered = Normal
      /\ forall i id h,
           requestIds reqs !! i = Some id ->
           snd registered !! i = Some h ->
           exists r, r ∈ rs /\ rid r = id
                     /\ deferreds (fst answered) !! h = Some (Completed r)
                     /\ pending (fst answered) !! id = None)
  /\ (forall onInvoke s r rest,
      pending s !! rid r = None ->
      completePending (rid r) r s = s
      /\ readLoop onInvoke s (Frame (resFrame r) :: rest) = readLoop onInvoke s rest).
Proof.
  split.
  - intros onInvoke s c reqs rs Hc Hinv Hnd Hperm registered answered.
    subst answered. rewrite readLoop_responses. cbn [fst snd].
    split; [reflexivity|].
    destruct (registerAll_spec reqs s c Hc Hinv Hnd) as [Hinv1 Hreg].
    fold registered in Hinv1, Hreg.
    assert (Hnd' : NoDup (map rid rs)) by (rewrite Hperm; exact Hnd).
    intros i id h Hi Hh.
    destruct (Hreg i id Hi) as (h' & Hh' & Hp). rewrite Hh in Hh'.
    injection Hh' as <-.
    assert (Hin : id ∈ map rid rs).
    { rewrite Hperm. apply list_elem_of_lookup. eauto. }
    apply list_elem_of_fmap in Hin as (r & -> & Hr).
    exists r. repeat split; [exact Hr| |].
    + apply completeAll_each; assumption.
    + clear - Hr. revert Hr. generalize (fst registered) as t.
      induction rs as [|r0 rs IH]; intros t Hr.
      * apply elem_of_nil in Hr. contradiction.
      * unfold completeAll. cbn [fold_left].
        fold (completeAll rs (completePending (rid r0) r0 t)).
        assert (Hgone : forall rs' t', pending t' !! rid r = None ->
                          pending (completeAll rs' t') !! rid r = None).
        { clear. induction rs' as [|r1 rs' IH']; intros t' Hn; [exact Hn|].
          unfold completeAll. cbn [fold_left].
          fold (completeAll rs' (completePending (rid r1) r1 t')).
          apply IH'. unfold completePending.
          destruct (pending t' !! rid r1); [|exact Hn].
          cbn. apply lookup_delete_None. right. exact Hn. }
        apply elem_of_cons in Hr as [->|Hr]; [|apply IH; exact Hr].
        apply Hgone. unfold completePending.
        destruct (pending t !! rid r0) eqn:E; [|exact E].
        cbn. apply lookup_delete_eq.
  - intros onInvoke s r rest Hn. rewrite readLoop_res.
    unfold completePending. rewrite Hn. split; reflexivity.
Qed.

Lemma correlation_any_order_witness :
  let answered :=
    readLoop noInvoke twoPending
      [Frame (resFrame (responseFor "b" "B")); Frame (resFrame (responseFor "a" "A"))] in
  (exists r, r ∈ [responseFor "b" "B"; responseFor "a" "A"] /\ rid r = "a"
             /\ deferreds (fst answered) !! 0%nat = Some (Completed r)
             /\ pending (fst answered) !! "a" = None)
  /\ (exists r, r ∈ [responseFor "b" "B"; responseFor "a" "A"] /\ rid r = "b"
             /\ deferreds (fst answered) !! 1%nat = Some (Completed r)
             /\ pending (fst answered) !! "b" = None)
  /\ completePending "zz" (responseFor "zz" "late") twoPending = twoPending.
Proof.
  pose proof (proj2 (proj1 correlation_any_order noInvoke connectedSession
                       {| remoteAddress := Some "10.0.0.2:18790" |} twoRequests
                       [responseFor "b" "B"; responseFor "a" "A"]
                       eq_refl (tableInv_empty connectedSession eq_refl)
                       twoRequests_distinct (perm_swap "a" "b" []))) as Hall.
  exact (conj (Hall 0%nat "a" 0%nat eq_refl eq_refl)
           (conj (Hall 1%nat "b" 1%nat eq_refl eq_refl)
              (proj1 (proj2 correlation_any_order noInvoke twoPending
                        (responseFor "zz" "late") [] eq_refl)))).
Defined.

End Correlation.

(** ** The session: handshake, read loop, teardown, reconnection *)

Section SessionFacts.
Import Text Json Canvas Bridge BridgeCalls.

(** Lines that parse but are not usable frames are skipped. *)
Lemma readLoop_skips_unusable (onInvoke : InvokeRequest -> InvokeResult + Throwable)
    (s : Session) (rest : list Incoming) :
  (forall e, asObjectOrNull e = None ->
      readLoop onInvoke s (Frame e :: rest) = readLoop onInvoke s rest)
  /\ (forall frame, asStringOrNull (get frame "type") = None ->
      readLoop onInvoke s (Frame (JsonObject frame) :: rest) = readLoop onInvoke s rest)
  /\ (forall frame ty, asStringOrNull (get frame "type") = Some ty ->
      ty <> "event" -> ty <> "ping" -> ty <> "res" -> ty <> "invoke" ->
      readLoop onInvoke s (Frame (JsonObject frame) :: rest) = readLoop onInvoke s rest).
Proof.
  split; [|split].
  - intros e He. cbn [readLoop]. rewrite He. reflexivity.
  - intros frame Hty. cbn [readLoop asObjectOrNull]. rewrite Hty. reflexivity.
  - intros frame ty Hty H1 H2 H3 H4. cbn [readLoop asObjectOrNull]. rewrite Hty.
    apply String.eqb_neq in H1, H2, H3, H4. rewrite H1, H2, H3, H4. reflexivity.
Qed.

Lemma completePending_frame (id : string) (r : RpcResponse) (s : Session) :
  canvasHostUrl (completePending id r s) = canvasHostUrl s
  /\ currentConnection (completePending id r s) = currentConnection s
  /\ desired (completePending id r s) = desired s
  /\ log (completePending id r s) = log s
  /\ length (deferreds (completePending id r s)) = length (deferreds s)
  /\ (forall id' h, pending (completePending id r s) !! id' = Some h ->
                    pending s !! id' = Some h)
  /\ (forall h d, deferreds s !! h = Some d -> d <> Active ->
                  deferreds (completePending id r s) !! h = Some d).
Proof.
  unfold completePending. destruct (pending s !! id) as [h0|] eqn:E.
  - cbn. repeat split.
    + unfold completeDeferred. destruct (deferreds s !! h0) as [[]|]; try reflexivity.
      apply length_insert.
    + intros id' h Hl. apply lookup_delete_Some in Hl as [_ Hl]. exact Hl.
    + intros h d Hd Hna. rewrite completeDeferred_lookup.
      destruct (decide (h0 = h)); [|exact Hd]. rewrite Hd.
      destruct d; [contradiction|reflexivity|reflexivity].
  - repeat split; auto.
Qed.

Lemma readLoop_shape (onInvoke : InvokeRequest -> InvokeResult + Throwable)
    (input : list Incoming) (s : Session) :
  let s' := fst (readLoop onInvoke s input) in
  canvasHostUrl s' = canvasHostUrl s
  /\ currentConnection s' = currentConnection s
  /\ desired s' = desired s
  /\ length (deferreds s') = length (deferreds s)
  /\ (forall id h, pending s' !! id = Some h -> pending s !! id = Some h)
  /\ exists added, log s' = (log s ++ added)%list /\ Forall frameEffect added.
Proof.
  revert s. induction input as [|[e|err|err] rest IH]; intros s; cbn [readLoop].
  1,3,4: (repeat split; auto; exists []; split; [symmetry; apply app_nil_r|constructor]).
  assert (Hskip : let s' := fst (readLoop onInvoke s rest) in
            canvasHostUrl s' = canvasHostUrl s
            /\ currentConnection s' = currentConnection s
            /\ desired s' = desired s
            /\ length (deferreds s') = length (deferreds s)
            /\ (forall id h, pending s' !! id = Some h -> pending s !! id = Some h)
            /\ exists added, log s' = (log s ++ added)%list /\ Forall frameEffect added)
    by apply IH.
  assert (Hemit : forall eff, frameEffect eff ->
            let s' := fst (readLoop onInvoke (emit eff s) rest) in
            canvasHostUrl s' = canvasHostUrl s
            /\ currentConnection s' = currentConnection s
            /\ desired s' = desired s
            /\ length (deferreds s') = length (deferreds s)
            /\ (forall id h, pending s' !! id = Some h -> pending s !! id = Some h)
            /\ exists added, log s' = (log s ++ added)%list /\ Forall frameEffect added).
  { intros eff Heff. destruct (IH (emit eff s)) as (H1 & H2 & H3 & H4 & H5 & l & H6 & H7).
    repeat split; auto. exists (eff :: l). split; [|constructor; assumption].
    rewrite H6. cbn [log emit]. rewrite <- app_assoc. reflexivity. }
  destruct (asObjectOrNull e) as [frame|]; [|exact Hskip].
  destruct (asStringOrNull (get frame "type")) as [ty|]; [|exact Hskip].
  destruct (String.eqb ty "event").
  { destruct (asStringOrNull (get frame "event")); [apply Hemit; exact I|].
    repeat split; auto. exists []. split; [symmetry; apply app_nil_r|constructor]. }
  destruct (String.eqb ty "ping"); [apply Hemit; exact I|].
  destruct (String.eqb ty "res").
  { destruct (asStringOrNull (get frame "id")) as [id|]; [|exact Hskip].
    destruct (completePending_frame id (decodeRes id frame) s)
      as (C1 & C2 & C3 & C4 & C5 & C6 & _).
    destruct (IH (completePending id (decodeRes id frame) s))
      as (H1 & H2 & H3 & H4 & H5 & l & H6 & H7).
    cbv zeta. rewrite H1, H2, H3, H4, C1, C2, C3, C5. repeat split; auto.
    exists l. split; [rewrite H6, C4; reflexivity|exact H7]. }
  destruct (String.eqb ty "invoke"); [|exact Hskip].
  destruct (asStringOrNull (get frame "id")); [apply Hemit; exact I|exact Hskip].
Qed.

(** C3, on the code. A line on which the JSON parser throws is not
    dropped: the read loop is left with the exception, the lines after it
    are never read, the connection is closed and the supervisor starts a
    reconnection. *)
Theorem malformed_line_ends_session :
  (forall onInvoke s err rest,
      readLoop onInvoke s (BadJson err :: rest) = (s, Threw err))
  /\ (let after := runLoopTurn hierURI noInvoke (desiredSession, 0) wireBadLine in
      snd after = 1
      /\ currentConnection (fst after) = None
      /\ log (fst after) =
           [OnDisconnected "Connecting…";
            Sent (JsonObject (helloFrame sampleHello));
            OnConnected "gw" gatewayAddress;
            SocketClosed;
            OnDisconnected "Bridge error: Unexpected JSON token at offset 0";
            Delay 595]).
Proof. split; [reflexivity|]. repeat split. Qed.

(** C5, on the code. The [finally] block of connectOnce keeps
    [canvasHostUrl]: after a connection that was established and then lost,
    the session has no connection and still answers the URL of the lost
    one; only disconnect clears it. *)
Theorem canvas_url_kept_after_connection_loss :
  (forall s, canvasHostUrl (finallyBlock s) = canvasHostUrl s)
  /\ (let after := runLoopTurn hierURI noInvoke (desiredSession, 0) wireReset in
      currentConnection (fst after) = None
      /\ currentCanvasHostUrl (fst after) = Some "http://10.0.0.5:18793"
      /\ (forall onInvoke unwinding stream,
            currentCanvasHostUrl
              (disconnect onInvoke unwinding stream (fst after)) = None)).
Proof. split; [reflexivity|]. repeat split. Qed.

(** The URL is set by a [hello-ok] only: an attempt whose handshake fails
    leaves it as it was. *)
Lemma canvas_url_set_by_hello_ok_only parseURI onInvoke endpoint hello w s err :
  handshake (head (incoming w)) = inr err ->
  canvasHostUrl (fst (connectOnce parseURI onInvoke endpoint hello w s)) = canvasHostUrl s.
Proof.
  intros H. unfold connectOnce, session.
  destruct (connectError w); [reflexivity|]. rewrite H. reflexivity.
Qed.

End SessionFacts.

Section Handshake.
Import Text Json Canvas Bridge BridgeCalls.

Lemma wrap32_succ (n : Z) : 0 <= n < int32Max -> wrap32 (n + 1) = n + 1.
Proof.
  unfold wrap32, int32Max. intros H.
  rewrite Z.mod_small; lia.
Qed.

(** C8, as the code has it. The reply to [hello] is the first thing read
    and the only one the handshake looks at. A [hello-ok] frame connects the
    session: [onConnected] receives the advertised server name (["Bridge"]
    when there is none) and the remote address; the raw canvas host URL is
    taken from the frame (trimmed, absent when empty) and what the session
    keeps as [canvasHostUrl] is its resolution by [normalizeCanvasHostUrl],
    not the raw URL; and the read loop starts on what follows and leaves
    that URL alone. An [error] frame, any other first line, a read failure
    or the end of the stream makes connectOnce throw without [onConnected];
    runLoop then counts a failed attempt, reports it and sleeps before the
    next one. The frame sent first has the type [hello] and the node's
    id. *)
Theorem handshake_decides_connection :
  (forall parseURI onInvoke endpoint hello conn input fields s,
      head input = Some (Frame (JsonObject fields)) ->
      asStringOrNull (get fields "type") = Some "hello-ok" ->
      let name := orElse (asStringOrNull (get fields "serverName")) "Bridge" in
      let rawCanvasUrl :=
        takeIfNotEmpty (option_map trim (asStringOrNull (get fields "canvasHostUrl"))) in
      let resolved := normalizeCanvasHostUrl parseURI rawCanvasUrl endpoint in
      let after := fst (session parseURI onInvoke endpoint hello conn input s) in
      canvasHostUrl after = resolved
      /\ (exists added,
            log after =
              (log s ++ [Sent (JsonObject (helloFrame hello));
                         OnConnected name (remoteAddress conn)] ++ added)%list
            /\ Forall frameEffect added)
      /\ exists connected,
           session parseURI onInvoke endpoint hello conn input s
             = readLoop onInvoke connected (tail input)
           /\ canvasHostUrl connected = resolved
           /\ log connected =
                (log s ++ [Sent (JsonObject (helloFrame hello));
                           OnConnected name (remoteAddress conn)])%list
           /\ pending connected = pending s
           /\ deferreds connected = deferreds s
           /\ currentConnection connected = currentConnection s
           /\ desired connected = desired s)
  /\ (forall hello,
      asStringOrNull (get (helloFrame hello) "type") = Some "hello"
      /\ asStringOrNull (get (helloFrame hello) "nodeId") = Some (nodeId hello))
  /\ (forall first,
      (forall fields, first = Some (Frame (JsonObject fields)) ->
                      asStringOrNull (get fields "type") <> Some "hello-ok") ->
      exists err, handshake first = inr err)
  /\ handshake None = inr (IllegalStateException "bridge closed connection")
  /\ (forall fields,
      asStringOrNull (get fields "type") = Some "error" ->
      handshake (Some (Frame (JsonObject fields))) =
        inr (IllegalStateException
               (orElse (asStringOrNull (get fields "code")) "UNAVAILABLE" ++ ": "
                ++ orElse (asStringOrNull (get fields "message")) "connect failed")))
  /\ (forall parseURI onInvoke endpoint hello w s attempt err,
      desired s = Some (endpoint, hello) ->
      connectError w = None ->
      handshake (head (incoming w)) = inr err ->
      0 <= attempt < int32Max ->
      let after := runLoopTurn parseURI onInvoke (s, attempt) w in
      snd after = attempt + 1
      /\ currentConnection (fst after) = None
      /\ canvasHostUrl (fst after) = canvasHostUrl s
      /\ log (fst after) =
           (log s ++
            [OnDisconnected (if attempt =? 0 then "Connecting…" else "Reconnecting…");
             Sent (JsonObject (helloFrame hello));
             SocketClosed;
             OnDisconnected ("Bridge error: " ++ errorText err);
             Delay (sleepMs (attempt + 1))])%list).
Proof.
  split; [|split; [|split; [|split; [|split]]]].
  - intros parseURI onInvoke endpoint hello conn input fields s Hhead Hty
      name raw resolved after.
    assert (Hh : handshake (head input) = inl (name, raw)).
    { rewrite Hhead. cbn [handshake asObjectOrNull]. rewrite Hty. reflexivity. }
    set (connected := emit (OnConnected name (remoteAddress conn))
                        (setCanvasHostUrl resolved (sendJson (helloFrame hello) s))).
    assert (Hs : session parseURI onInvoke endpoint hello conn input s
                 = readLoop onInvoke connected (tail input)).
    { unfold session. rewrite Hh. reflexivity. }
    destruct (readLoop_shape onInvoke (tail input) connected)
      as (Hurl & _ & _ & _ & _ & added & Hlog & Hadded).
    subst after. rewrite Hs. split; [exact Hurl|]. split.
    + exists added. split; [|exact Hadded]. rewrite Hlog. subst connected.
      cbn [log emit setCanvasHostUrl sendJson]. rewrite <- !app_assoc. reflexivity.
    + exists connected. split; [reflexivity|]. subst connected.
      cbn [log emit setCanvasHostUrl sendJson canvasHostUrl pending deferreds
             currentConnection desired].
      rewrite <- app_assoc. repeat split.
  - intros hello. split; reflexivity.
  - intros first Hnot. destruct first as [[e|err|err]|]; cbn [handshake]; eauto.
    destruct e as [|c b|items|fields]; cbn [asObjectOrNull]; eauto.
    destruct (asStringOrNull (get fields "type")) as [ty|] eqn:Hty; eauto.
    destruct (String.eqb ty "hello-ok") eqn:E.
    + apply String.eqb_eq in E. subst ty. exfalso. exact (Hnot fields eq_refl Hty).
    + destruct (String.eqb ty "error"); eauto.
  - reflexivity.
  - intros fields Hty. cbn [handshake asObjectOrNull]. rewrite Hty. reflexivity.
  - intros parseURI onInvoke endpoint hello w s attempt err Hd Hw Hh Hrange after.
    subst after. unfold runLoopTurn. rewrite Hd.
    unfold connectOnce. cbn [connectError emit]. rewrite Hw.
    unfold session. rewrite Hh. cbn [fst snd].
    rewrite (wrap32_succ attempt Hrange).
    repeat split. cbn. rewrite <- !app_assoc. reflexivity.
Qed.

Lemma handshake_decides_connection_witness :
  (let after :=
     fst (session hierURI noInvoke endpointB sampleHello
            {| remoteAddress := gatewayAddress |} (incoming wireReset)
            connectedSession) in
   canvasHostUrl after = Some "http://10.0.0.5:18793"
   /\ exists added,
        log after =
          ([Sent (JsonObject (helloFrame sampleHello));
            OnConnected "gw" gatewayAddress] ++ added)%list
        /\ Forall frameEffect added)
  /\ (exists err, handshake (Some (Frame (pingFrame "p1"))) = inr err)
  /\ handshake (Some (Frame (JsonObject rejection)))
     = inr (IllegalStateException "NOT_PAIRED: pairing required")
  /\ (let after := runLoopTurn hierURI noInvoke (desiredSession, 0) wireRejected in
      snd after = 1
      /\ log (fst after) =
           [OnDisconnected "Connecting…";
            Sent (JsonObject (helloFrame sampleHello));
            SocketClosed;
            OnDisconnected "Bridge error: NOT_PAIRED: pairing required";
            Delay 595]).
Proof.
  pose proof (proj1 handshake_decides_connection hierURI noInvoke endpointB
                sampleHello {| remoteAddress := gatewayAddress |}
                (incoming wireReset) _ connectedSession eq_refl eq_refl) as Hok.
  assert (Hother : forall fields,
             Some (Frame (pingFrame "p1")) = Some (Frame (JsonObject fields)) ->
             asStringOrNull (get fields "type") <> Some "hello-ok").
  { intros fields [= <-]. discriminate. }
  pose proof (proj2 (proj2 (proj2 (proj2 (proj2 handshake_decides_connection))))
                hierURI noInvoke endpointB sampleHello wireRejected desiredSession 0
                (IllegalStateException "NOT_PAIRED: pairing required")
                eq_refl eq_refl eq_refl) as Hfail.
  assert (Hr : 0 <= 0 < int32Max) by (unfold int32Max; lia).
  specialize (Hfail Hr).
  exact (conj (conj (proj1 Hok) (proj1 (proj2 Hok)))
           (conj (proj1 (proj2 (proj2 handshake_decides_connection)) _ Hother)
              (conj (proj1 (proj2 (proj2 (proj2 (proj2 handshake_decides_connection))))
                       rejection eq_refl)
                 (conj (proj1 Hfail) (proj2 (proj2 (proj2 Hfail))))))).
Defined.

(** C8 as stated fails: what the session keeps is not the raw canvas host
    URL of the [hello-ok] frame. A gateway that advertises a loopback URL
    leaves the session with the URL of the fallback host, and one that
    advertises none leaves it with a URL all the same. *)
Lemma raw_canvas_url_counterexample :
  let conn := {| remoteAddress := gatewayAddress |} in
  let loopback := [Frame (helloOkFrame "gw" (Some "http://127.0.0.1:9000"))] in
  let silent := [Frame (helloOkFrame "gw" None)] in
  handshake (head loopback) = inl ("gw", Some "http://127.0.0.1:9000")
  /\ canvasHostUrl (fst (session hierURI noInvoke endpointB sampleHello conn
                           loopback connectedSession))
     = Some "http://203.0.113.9:9000"
  /\ canvasHostUrl (fst (session hierURI noInvoke endpointB sampleHello conn
                           loopback connectedSession))
     <> Some "http://127.0.0.1:9000"
  /\ handshake (head silent) = inl ("gw", None)
  /\ canvasHostUrl (fst (session hierURI noInvoke endpointB sampleHello conn
                           silent connectedSession))
     = Some "http://203.0.113.9:18793".
Proof. repeat split. discriminate. Qed.

End Handshake.

Section Backoff.
Import Text Json Canvas Bridge.

Lemma backoffProduct_step (n : Z) :
  0 <= n -> backoffProduct n <= backoffProduct (n + 1).
Proof.
  intros Hn. unfold backoffProduct.
  destruct (Z.leb_spec 0 n); [|lia]. destruct (Z.leb_spec 0 (n + 1)); [|lia].
  rewrite !Z.pow_add_r by lia. change (17 ^ 1) with 17. change (10 ^ 1) with 10.
  assert (H10 : 0 < 10 ^ n) by (apply Z.pow_pos_nonneg; lia).
  assert (H17 : 0 < 17 ^ n) by (apply Z.pow_pos_nonneg; lia).
  rewrite <- (Z.div_mul_cancel_r (350 * 17 ^ n) (10 ^ n) 10) by lia.
  apply Z.div_le_mono; nia.
Qed.

Lemma backoffProduct_mono (n m : Z) :
  0 <= n <= m -> backoffProduct n <= backoffProduct m.
Proof.
  intros [Hn Hm]. replace m with (n + Z.of_nat (Z.to_nat (m - n))) by lia.
  induction (Z.to_nat (m - n)) as [|k IH]; [rewrite Z.add_0_r; lia|].
  etransitivity; [exact IH|].
  replace (n + Z.of_nat (S k)) with (n + Z.of_nat k + 1) by lia.
  apply backoffProduct_step. lia.
Qed.

(** C4, as the code has it. [runLoop] keeps a counter of attempts. A turn
    in which connectOnce throws, before or after the session was
    connected, raises the counter to n and sleeps
    min(8000, 350 * 1.7^n cut to whole milliseconds); these delays never
    decrease as n grows and never pass 8000. A turn in which connectOnce
    returns puts the counter back to zero, without sleeping, so that the
    next failure sleeps 595 ms, the delay of a first failure. *)
Theorem backoff_schedule :
  (forall parseURI onInvoke s attempt w endpoint hello s2 err,
      desired s = Some (endpoint, hello) ->
      connectOnce parseURI onInvoke endpoint hello w
        (emit (OnDisconnected (if attempt =? 0 then "Connecting…" else "Reconnecting…")) s)
        = (s2, Threw err) ->
      0 <= attempt < int32Max ->
      runLoopTurn parseURI onInvoke (s, attempt) w =
        (emit (Delay (Z.min 8000 (350 * 17 ^ (attempt + 1) / 10 ^ (attempt + 1))))
           (emit (OnDisconnected ("Bridge error: " ++ errorText err)) s2),
         attempt + 1))
  /\ (forall n m, 0 <= n <= m -> sleepMs n <= sleepMs m <= 8000)
  /\ (forall parseURI onInvoke s attempt w endpoint hello s2,
      desired s = Some (endpoint, hello) ->
      connectOnce parseURI onInvoke endpoint hello w
        (emit (OnDisconnected (if attempt =? 0 then "Connecting…" else "Reconnecting…")) s)
        = (s2, Normal) ->
      runLoopTurn parseURI onInvoke (s, attempt) w = (s2, 0))
  /\ map sleepMs [1; 2; 3; 4; 5; 6; 7] = [595; 1011; 1719; 2923; 4969; 8000; 8000].
Proof.
  split; [|split; [|split]].
  - intros parseURI onInvoke s attempt w endpoint hello s2 err Hd Hc Hr.
    unfold runLoopTurn. rewrite Hd, Hc, (wrap32_succ attempt Hr).
    unfold sleepMs, backoffProduct.
    destruct (Z.leb_spec 0 (attempt + 1)); [reflexivity|lia].
  - intros n m Hnm. unfold sleepMs. split; [|apply Z.le_min_l].
    apply Z.min_le_compat_l. apply backoffProduct_mono. exact Hnm.
  - intros parseURI onInvoke s attempt w endpoint hello s2 Hd Hc.
    unfold runLoopTurn. rewrite Hd, Hc. reflexivity.
  - reflexivity.
Qed.

Lemma backoff_schedule_witness :
  runLoopTurn hierURI noInvoke (desiredSession, 2) wireReset =
    (emit (Delay 1719)
       (emit (OnDisconnected "Bridge error: Connection reset")
          (fst (connectOnce hierURI noInvoke endpointB sampleHello wireReset
                  (emit (OnDisconnected "Reconnecting…") desiredSession)))), 3)
  /\ sleepMs 3 <= sleepMs 40 <= 8000
  /\ runLoopTurn hierURI noInvoke (desiredSession, 5) wireClosed
     = (fst (connectOnce hierURI noInvoke endpointB sampleHello wireClosed
               (emit (OnDisconnected "Reconnecting…") desiredSession)), 0).
Proof.
  assert (Hr : 0 <= 2 < int32Max) by (unfold int32Max; lia).
  assert (Hm : 0 <= 3 <= 40) by lia.
  exact (conj (proj1 backoff_schedule hierURI noInvoke desiredSession 2 wireReset
                 endpointB sampleHello
                 (fst (connectOnce hierURI noInvoke endpointB sampleHello wireReset
                         (emit (OnDisconnected "Reconnecting…") desiredSession)))
                 socketException eq_refl eq_refl Hr)
           (conj (proj1 (proj2 backoff_schedule) 3 40 Hm)
              (proj1 (proj2 (proj2 backoff_schedule)) hierURI noInvoke desiredSession 5
                 wireClosed endpointB sampleHello
                 (fst (connectOnce hierURI noInvoke endpointB sampleHello wireClosed
                         (emit (OnDisconnected "Reconnecting…") desiredSession)))
                 eq_refl eq_refl))).
Defined.

(** The loop of the iOS app never puts its counter back. *)
Lemma ios_counter_only_grows (attempt : Z) (e : IOS.ConnectEnd) :
  snd (fst (IOS.superviseTurn attempt e)) = attempt + 1.
Proof. destruct e; reflexivity. Qed.

(** C4 as stated fails: the counter is not put back to zero by the
    transition to connected. After one refused attempt the session
    connects, the connection is then reset, and the sleep that follows is
    the one of a second failure (1011 ms), not of a first (595 ms). *)
Lemma backoff_reset_counterexample :
  let after := runLoop hierURI noInvoke desiredSession [wireRefused; wireReset] in
  connectedEvents (log (fst after)) = [OnConnected "gw" gatewayAddress]
  /\ snd after = 2
  /\ delays (log (fst after)) = [595; 1011]
  /\ delays (log (fst after)) <> [595; 595].
Proof. repeat split. discriminate. Qed.

End Backoff.

(** ** The dispatchers *)

Section Dispatchers.
Import Kit.

Local Open Scope Q_scope.


Lemma jpeg_quality_kept (q : Q) :
  5 # 100 <= q -> q <= 1 -> swiftMin 1 (swiftMax (5 # 100) q) == q.
Proof.
  intros H1 H2. unfold swiftMin, swiftMax.
  rewrite (proj2 (Qle_bool_iff _ _) H1).
  destruct (Qle_bool 1 q) eqn:E; [|reflexivity].
  apply Qle_bool_iff in E. apply Qle_antisym; assumption.
Qed.

Local Close Scope Q_scope.


(** C2, as the code has it. With the camera disabled, an invoke of a
    camera command is answered before its parameters are decoded and
    without any call of the capture service, by [ok: false] with the error
    code [unavailable] (on the wire ["UNAVAILABLE"]) and a message that
    starts with ["CAMERA_DISABLED:"]. On iOS this holds while the app is in
    the foreground; in the background the foreground gate answers first,
    with [NODE_BACKGROUND_UNAVAILABLE]. *)
Theorem camera_gate :
  (forall sv st req,
      hasPrefix (command req) "camera." = true ->
      IOS.isBackgrounded st = false ->
      IOS.isCameraEnabled st = false ->
      IOS.handleInvoke sv st req =
        ([], errorResponse req unavailable
               "CAMERA_DISABLED: enable Camera in iOS Settings → Camera → Allow Camera"))
  /\ (forall sv st req,
      hasPrefix (command req) "camera." = true ->
      IOS.isBackgrounded st = true ->
      IOS.handleInvoke sv st req =
        ([], errorResponse req backgroundUnavailable
               "NODE_BACKGROUND_UNAVAILABLE: canvas/camera/screen commands require foreground"))
  /\ (forall sv st req,
      command req = cameraSnap \/ command req = cameraClip ->
      Mac.cameraEnabled st = false ->
      Mac.handleInvoke sv st req =
        ([], errorResponse req unavailable "CAMERA_DISABLED: enable Camera in Settings"))
  /\ rawValue unavailable = "UNAVAILABLE".
Proof.
  split; [|split; [|split]].
  - intros sv st req Hp Hbg Hcam. unfold IOS.handleInvoke.
    rewrite Hp, Hbg, Hcam, andb_false_r. reflexivity.
  - intros sv st req Hp Hbg. unfold IOS.handleInvoke.
    rewrite Hp, Hbg, orb_true_r. reflexivity.
  - intros sv st req Hc Hcam. unfold Mac.handleInvoke.
    destruct Hc as [-> | ->]; cbn; unfold Mac.snapCase, Mac.clipCase;
      rewrite Hcam; reflexivity.
  - reflexivity.
Qed.

Lemma camera_gate_witness :
  IOS.handleInvoke IOS.sampleServices
    {| IOS.isBackgrounded := false; IOS.cameraEnabledPref := Some false |}
    (IOS.request "camera.snap")
  = ([], errorResponse (IOS.request "camera.snap") unavailable
           "CAMERA_DISABLED: enable Camera in iOS Settings → Camera → Allow Camera")
  /\ IOS.handleInvoke IOS.sampleServices
       {| IOS.isBackgrounded := true; IOS.cameraEnabledPref := Some false |}
       (IOS.request "camera.clip")
     = ([], errorResponse (IOS.request "camera.clip") backgroundUnavailable
              "NODE_BACKGROUND_UNAVAILABLE: canvas/camera/screen commands require foreground")
  /\ Mac.handleInvoke Mac.sampleServices Mac.defaults (Mac.request "camera.clip" None)
     = ([], errorResponse (Mac.request "camera.clip" None) unavailable
              "CAMERA_DISABLED: enable Camera in Settings").
Proof.
  exact (conj (proj1 camera_gate IOS.sampleServices
                 {| IOS.isBackgrounded := false; IOS.cameraEnabledPref := Some false |}
                 (IOS.request "camera.snap") eq_refl eq_refl eq_refl)
           (conj (proj1 (proj2 camera_gate) IOS.sampleServices
                    {| IOS.isBackgrounded := true; IOS.cameraEnabledPref := Some false |}
                    (IOS.request "camera.clip") eq_refl eq_refl)
              (proj1 (proj2 (proj2 camera_gate)) Mac.sampleServices Mac.defaults
                 (Mac.request "camera.clip" None) (or_intror eq_refl) eq_refl))).
Defined.

(** C2 as stated fails: the code of the error is never
    ["CAMERA_DISABLED"]. In the foreground it is ["UNAVAILABLE"], the name
    CAMERA_DISABLED being the start of the message; in the background the
    answer is that of the foreground gate. *)
Lemma camera_disabled_code_counterexample :
  let foreground :=
    snd (IOS.handleInvoke IOS.sampleServices
           {| IOS.isBackgrounded := false; IOS.cameraEnabledPref := Some false |}
           (IOS.request "camera.snap")) in
  let background :=
    snd (IOS.handleInvoke IOS.sampleServices
           {| IOS.isBackgrounded := true; IOS.cameraEnabledPref := Some false |}
           (IOS.request "camera.snap")) in
  let desktop :=
    snd (Mac.handleInvoke Mac.sampleServices Mac.defaults
           (Mac.request "camera.snap" None)) in
  errorCodeName foreground = Some "UNAVAILABLE"
  /\ errorCodeName foreground <> Some "CAMERA_DISABLED"
  /\ errorCodeName background = Some "NODE_BACKGROUND_UNAVAILABLE"
  /\ errorCodeName desktop = Some "UNAVAILABLE".
Proof. repeat split. discriminate. Qed.






End Dispatchers.


(* ===================================================================== *)
(** * Further properties of the embedded code                             *)
(* ===================================================================== *)

Ltac split_ands := repeat match goal with |- _ /\ _ => split end.

(** Closes the goals left once every answer of the world is known. *)
Ltac settle :=
  cbn; split_ands; intros;
  repeat match goal with
         | H : _ \/ _ |- _ => destruct H
         | H : False |- _ => destruct H
         | H : _ /\ _ |- _ => destruct H
         | H : In _ _ |- _ => simpl in H
         end;
  simplify_eq;
  try match goal with
      | H : ?P -> _, H' : ?P |- _ => specialize (H H')
      | H : ?x = ?x -> _ |- _ => specialize (H eq_refl)
      end;
  simplify_eq;
  repeat match goal with
         | H : ?lhs = _ |- context [match ?lhs with _ => _ end] => rewrite H
         end;
  cbn;
  try solve [ congruence
            | repeat (first [eexists | split]); eauto; congruence ].

Section SessionCalls.
Import Text Json Canvas Bridge BridgeCalls.

Lemma readLoop_event (onInvoke : InvokeRequest -> InvokeResult + Throwable)
    (s : Session) (event : string) (payload : option string) (rest : list Incoming) :
  readLoop onInvoke s (Frame (JsonObject (eventFrame event payload)) :: rest) =
    readLoop onInvoke (emit (OnEvent event payload) s) rest.
Proof. destruct payload; reflexivity. Qed.

(** X1. sendEvent does nothing without a connection; with one it writes a
    single [event] frame and leaves the table, the deferreds and the canvas
    URL alone. Frames written by sendEvent are read back by the read loop as
    the same events with the same payloads, in order, a missing payload
    staying missing. *)
Theorem send_event_round_trip :
  (forall event payload s,
      currentConnection s = None -> sendEvent event payload s = s)
  /\ (forall event payload s,
      is_Some (currentConnection s) ->
      log (sendEvent event payload s)
        = (log s ++ [Sent (JsonObject (eventFrame event payload))])%list
      /\ pending (sendEvent event payload s) = pending s
      /\ deferreds (sendEvent event payload s) = deferreds s
      /\ canvasHostUrl (sendEvent event payload s) = canvasHostUrl s)
  /\ (forall onInvoke (events : list (string * option string)) s,
      let received :=
        readLoop onInvoke s
          (map (fun ev => Frame (JsonObject (eventFrame (fst ev) (snd ev)))) events) in
      snd received = Normal
      /\ log (fst received)
         = (log s ++ map (fun ev => OnEvent (fst ev) (snd ev)) events)%list
      /\ pending (fst received) = pending s
      /\ deferreds (fst received) = deferreds s).
Proof.
  split; [|split].
  - intros event payload s Hc. unfold sendEvent. rewrite Hc. reflexivity.
  - intros event payload s [c Hc]. unfold sendEvent. rewrite Hc. repeat split.
  - intros onInvoke events. induction events as [|[ev p] events IH]; intros s received.
    + subst received. cbn. rewrite app_nil_r. repeat split.
    + subst received. cbn [map fst snd]. rewrite readLoop_event.
      destruct (IH (emit (OnEvent ev p) s)) as (H1 & H2 & H3 & H4).
      repeat split; [exact H1| |exact H3|exact H4].
      rewrite H2. cbn [log emit]. rewrite <- app_assoc. reflexivity.
Qed.

Lemma send_event_round_trip_witness :
  log (sendEvent "voice.transcript" (Some "{}") connectedSession)
    = [Sent (JsonObject (eventFrame "voice.transcript" (Some "{}")))].
Proof.
  exact (proj1 (proj1 (proj2 send_event_round_trip) "voice.transcript" (Some "{}")
                  connectedSession (ex_intro _ _ eq_refl))).
Defined.

(** X2. request, from the call to what the caller gets. Without a connection
    it throws "not connected" and leaves the session as it was. With one, the
    caller waits until a [res] frame with its id arrives; that frame removes
    the entry and decides the outcome: the payload (the empty string when
    there is none) if [ok] reads as true, otherwise, also when [ok] is
    missing or reads as neither true nor false, an exception whose text is
    "code: message" of the error object, "UNAVAILABLE: request failed" when
    there is none. [ok] reads as true when it is a JSON primitive, a
    boolean or a string, whose content is [true] once trimmed and put in
    lower case. *)
Theorem request_outcome :
  (forall id method params s,
      currentConnection s = None ->
      request_begin id method params s
        = (s, inr {| simpleName := "IllegalStateException";
                     thr_message := Some "not connected" |}))
  /\ (forall onInvoke s c id method params frame,
      currentConnection s = Some c ->
      tableInv s ->
      asStringOrNull (get frame "type") = Some "res" ->
      asStringOrNull (get frame "id") = Some id ->
      let begun := request_begin id method params s in
      let answered := fst (readLoop onInvoke (fst begun) [Frame (JsonObject frame)]) in
      exists h,
        snd begun = inl h
        /\ awaitOf (fst begun) h = Some Suspended
        /\ pending answered !! id = None
        /\ awaitOf answered h =
             Some (match asBooleanOrNull (get frame "ok") with
                   | Some true =>
                       Returns (orEmpty (asStringOrNull (get frame "payloadJSON")))
                   | _ =>
                       Throws {| simpleName := "IllegalStateException";
                                 thr_message :=
                                   Some (match decodeError frame with
                                         | Some e => code e ++ ": " ++ message e
                                         | None => "UNAVAILABLE: request failed"
                                         end) |}
                   end))
  /\ (forall content isString,
      asBooleanOrNull (Some (JsonLiteral content isString)) = Some true
      <-> lowercase (trim content) = "true")
  /\ (forall items fields,
      asBooleanOrNull None = None
      /\ asBooleanOrNull (Some (JsonArray items)) = None
      /\ asBooleanOrNull (Some (JsonObject fields)) = None).
Proof.
  split; [|split; [|split]].
  - intros id method params s Hc. unfold request_begin. rewrite Hc. reflexivity.
  - intros onInvoke s c id method params frame Hc Hinv Hty Hid begun answered.
    destruct (request_begin_inv id method params s c Hc Hinv)
      as (s1 & E & Hinv1 & Hp1 & Hd1 & Hc1).
    subst answered begun. rewrite E. cbn [fst snd].
    exists (length (deferreds s)).
    assert (Hh : deferreds s1 !! length (deferreds s) = Some Active).
    { rewrite Hd1. apply list_lookup_middle. reflexivity. }
    assert (Hpid : pending s1 !! id = Some (length (deferreds s))).
    { rewrite Hp1. apply lookup_insert_eq. }
    split; [reflexivity|]. split; [apply awaitOf_suspended; exact Hh|].
    cbn [readLoop asObjectOrNull]. rewrite Hty. cbn. rewrite Hid.
    unfold completePending. rewrite Hpid. cbn [fst pending setTable].
    split; [apply lookup_delete_eq|].
    unfold awaitOf. cbn [deferreds setTable].
    rewrite completeDeferred_lookup.
    destruct (decide (length (deferreds s) = length (deferreds s))); [|contradiction].
    rewrite Hh. cbn. f_equal.
    destruct (asBooleanOrNull (get frame "ok")) as [[]|]; cbn;
      try reflexivity; destruct (decodeError frame) as [[ec em]|]; reflexivity.
  - intros content isString. unfold asBooleanOrNull, equalsIgnoreCase.
    change (lowercase "true") with "true". change (lowercase "false") with "false".
    destruct (String.eqb_spec (lowercase (trim content)) "true") as [->|Hne].
    + split; reflexivity.
    + destruct (String.eqb (lowercase (trim content)) "false");
        split; intros H; try discriminate; contradiction.
  - intros items fields. repeat split.
Qed.

Lemma request_outcome_witness :
  let frame := [("type", str "res"); ("id", str "r1"); ("ok", str " TRUE ")] in
  let begun := request_begin "r1" "voicewake.get" (Some "{}") connectedSession in
  let answered := fst (readLoop noInvoke (fst begun) [Frame (JsonObject frame)]) in
  exists h,
    snd begun = inl h
    /\ awaitOf (fst begun) h = Some Suspended
    /\ pending answered !! "r1" = None
    /\ awaitOf answered h = Some (Returns EmptyString).
Proof.
  exact (proj1 (proj2 request_outcome) noInvoke connectedSession
           {| remoteAddress := Some "10.0.0.2:18790" |} "r1" "voicewake.get" (Some "{}")
           [("type", str "res"); ("id", str "r1"); ("ok", str " TRUE ")]
           eq_refl (tableInv_empty connectedSession eq_refl) eq_refl eq_refl).
Defined.

(** X3. Every [ping] frame is answered by one frame of the type [pong]
    whose id is a JSON string with the content of the ping's id (the empty
    string when the ping has no id or a null one), in the order of arrival,
    and pings change nothing else in the session. *)
Theorem ping_answered_by_pong :
  forall onInvoke (frames : list Fields) s,
    Forall (fun f => asStringOrNull (get f "type") = Some "ping") frames ->
    let answered := readLoop onInvoke s (map (fun f => Frame (JsonObject f)) frames) in
    snd answered = Normal
    /\ log (fst answered)
       = (log s ++
          map (fun f =>
                 Sent (JsonObject
                         [("type", JsonLiteral "pong" true);
                          ("id",
                           JsonLiteral
                             (match asStringOrNull (get f "id") with
                              | Some id => id
                              | None => EmptyString
                              end) true)]))
            frames)%list
    /\ pending (fst answered) = pending s
    /\ deferreds (fst answered) = deferreds s
    /\ canvasHostUrl (fst answered) = canvasHostUrl s
    /\ currentConnection (fst answered) = currentConnection s.
Proof.
  intros onInvoke frames. induction frames as [|f frames IH]; intros s Hall answered.
  - subst answered. cbn. rewrite app_nil_r. repeat split.
  - apply Forall_cons in Hall as [Hf Hall]. subst answered.
    cbn [map readLoop asObjectOrNull]. rewrite Hf. cbn.
    destruct (IH (sendJson (pongFrame (orElse (asStringOrNull (get f "id")) EmptyString)) s)
                Hall) as (H1 & H2 & H3 & H4 & H5 & H6).
    repeat split; [exact H1| |exact H3|exact H4|exact H5|exact H6].
    rewrite H2. cbn [log emit sendJson]. rewrite <- app_assoc. reflexivity.
Qed.

Lemma ping_answered_by_pong_witness :
  log (fst (readLoop noInvoke connectedSession
              [Frame (JsonObject [("type", JsonLiteral "ping" true);
                                  ("id", JsonLiteral "p1" true)]);
               Frame (JsonObject [("type", JsonLiteral "ping" true);
                                  ("id", JsonLiteral "17" false)]);
               Frame (JsonObject [("type", JsonLiteral "ping" true)])]))
    = [Sent (JsonObject [("type", JsonLiteral "pong" true);
                         ("id", JsonLiteral "p1" true)]);
       Sent (JsonObject [("type", JsonLiteral "pong" true);
                         ("id", JsonLiteral "17" true)]);
       Sent (JsonObject [("type", JsonLiteral "pong" true);
                         ("id", JsonLiteral EmptyString true)])].
Proof.
  refine (proj1 (proj2 (ping_answered_by_pong noInvoke
                          [[("type", JsonLiteral "ping" true);
                            ("id", JsonLiteral "p1" true)];
                           [("type", JsonLiteral "ping" true);
                            ("id", JsonLiteral "17" false)];
                           [("type", JsonLiteral "ping" true)]]
                          connectedSession _))).
  repeat constructor.
Defined.

(** X4. What the read loop does to the session, whatever arrives and
    whatever the handler [onInvoke], which it calls for every [invoke]
    frame, answers: it never touches the canvas URL, the connection or the
    desired endpoint; it never adds an entry to the table nor a deferred to
    the store; and apart from calling that handler, all it does to the
    outside is call [onEvent] and write frames: no status callback, no
    socket close, no sleep. *)
Theorem read_loop_frame (onInvoke : InvokeRequest -> InvokeResult + Throwable)
    (input : list Incoming) (s : Session) :
  let s' := fst (readLoop onInvoke s input) in
  canvasHostUrl s' = canvasHostUrl s
  /\ currentConnection s' = currentConnection s
  /\ desired s' = desired s
  /\ length (deferreds s') = length (deferreds s)
  /\ (forall id h, pending s' !! id = Some h -> pending s !! id = Some h)
  /\ exists added, log s' = (log s ++ added)%list /\ Forall frameEffect added.
Proof. exact (readLoop_shape onInvoke input s). Qed.

(** X5. A waiter is resolved once: a deferred that is completed or cancelled
    keeps its state through every later frame, through the [finally] block
    and through disconnect; a late or repeated response and the cancellation
    at teardown do not overwrite it. *)
Theorem resolution_is_final :
  forall h d,
    resolved d ->
    (forall onInvoke input s,
        deferreds s !! h = Some d ->
        deferreds (fst (readLoop onInvoke s input)) !! h = Some d)
    /\ (forall s, deferreds s !! h = Some d ->
                  deferreds (finallyBlock s) !! h = Some d)
    /\ (forall onInvoke unwinding stream s,
        deferreds s !! h = Some d ->
        deferreds (disconnect onInvoke unwinding stream s) !! h = Some d).
Proof.
  intros h d Hres.
  assert (Hfin : forall s, deferreds s !! h = Some d ->
                           deferreds (finallyBlock s) !! h = Some d).
  { intros s Hd. cbn. unfold cancelAll. rewrite cancel_fold_lookup.
    destruct (decide (h ∈ (map_to_list (pending s)).*2)); [|exact Hd].
    rewrite Hd. destruct d; [contradiction Hres; reflexivity|reflexivity|reflexivity]. }
  assert (Hloop : forall onInvoke input s,
             deferreds s !! h = Some d ->
             deferreds (fst (readLoop onInvoke s input)) !! h = Some d).
  { intros onInvoke input. induction input as [|[e|err|err] rest IH]; intros s Hd;
      cbn [readLoop]; try exact Hd.
    destruct (asObjectOrNull e) as [frame|]; [|auto].
    destruct (asStringOrNull (get frame "type")) as [ty|]; [|auto].
    destruct (String.eqb ty "event").
    { destruct (asStringOrNull (get frame "event")); [apply IH|]; exact Hd. }
    destruct (String.eqb ty "ping"); [apply IH; exact Hd|].
    destruct (String.eqb ty "res").
    { destruct (asStringOrNull (get frame "id")) as [id|]; [|auto].
      apply IH. apply completePending_frame; assumption. }
    destruct (String.eqb ty "invoke"); [|auto].
    destruct (asStringOrNull (get frame "id")); apply IH; exact Hd. }
  split; [|split].
  - exact Hloop.
  - exact Hfin.
  - intros onInvoke unwinding stream s Hd. unfold disconnect.
    cbn [currentConnection setDesired].
    destruct (currentConnection s); [|exact Hd].
    destruct stream as [|lines]; [exact Hd|].
    exact (Hfin _ (Hloop onInvoke lines (setDesired None s) Hd)).
Qed.

Lemma resolution_is_final_witness :
  let done :=
    fst (readLoop noInvoke twoPending [Frame (resFrame (responseFor "a" "first"))]) in
  deferreds (fst (readLoop noInvoke done [Frame (resFrame (responseFor "a" "second"))]))
    !! 0%nat = Some (Completed (responseFor "a" "first"))
  /\ deferreds (finallyBlock done) !! 0%nat = Some (Completed (responseFor "a" "first")).
Proof.
  intros done.
  assert (Hres : resolved (Completed (responseFor "a" "first"))) by discriminate.
  exact (conj
           (proj1 (resolution_is_final 0%nat _ Hres) noInvoke
              [Frame (resFrame (responseFor "a" "second"))] done eq_refl)
           (proj1 (proj2 (resolution_is_final 0%nat _ Hres)) done eq_refl)).
Defined.

(** X6. An [event] frame without an event name ends the session as if the
    stream had ended: the read loop returns, the frames after it are not
    read, the connection is closed, and [runLoop] takes the turn for a
    success: it puts the counter back to zero and dials again without
    sleeping and without reporting an error. *)
Theorem nameless_event_ends_session :
  (forall onInvoke s frame rest,
      asStringOrNull (get frame "type") = Some "event" ->
      asStringOrNull (get frame "event") = None ->
      readLoop onInvoke s (Frame (JsonObject frame) :: rest) = (s, Normal))
  /\ (forall parseURI onInvoke endpoint hello w s attempt reply frame rest,
      desired s = Some (endpoint, hello) ->
      connectError w = None ->
      incoming w = Frame (JsonObject reply) :: Frame (JsonObject frame) :: rest ->
      asStringOrNull (get reply "type") = Some "hello-ok" ->
      asStringOrNull (get frame "type") = Some "event" ->
      asStringOrNull (get frame "event") = None ->
      let after := runLoopTurn parseURI onInvoke (s, attempt) w in
      snd after = 0
      /\ currentConnection (fst after) = None
      /\ log (fst after) =
           (log s ++
            [OnDisconnected (if attempt =? 0 then "Connecting…" else "Reconnecting…");
             Sent (JsonObject (helloFrame hello));
             OnConnected (orElse (asStringOrNull (get reply "serverName")) "Bridge")
               (remote w);
             SocketClosed])%list).
Proof.
  split.
  - intros onInvoke s frame rest Hty Hev. cbn [readLoop asObjectOrNull].
    rewrite Hty. cbn. rewrite Hev. reflexivity.
  - intros parseURI onInvoke endpoint hello w s attempt reply frame rest
      Hd Hw Hin Hok Hty Hev after.
    subst after. unfold runLoopTurn. rewrite Hd. unfold connectOnce.
    cbn [connectError emit]. rewrite Hw. unfold session. rewrite Hin.
    cbn [head tail handshake asObjectOrNull]. rewrite Hok. cbn.
    rewrite Hty. cbn. rewrite Hev. cbn. repeat split.
    rewrite <- !app_assoc. reflexivity.
Qed.

Lemma nameless_event_ends_session_witness :
  let w := {| connectError := None; remote := gatewayAddress;
              incoming := [Frame (JsonObject [("type", str "hello-ok")]);
                           Frame (JsonObject [("type", str "event")]);
                           Frame (pingFrame "p1")] |} in
  let after := runLoopTurn hierURI noInvoke (desiredSession, 3) w in
  snd after = 0
  /\ currentConnection (fst after) = None
  /\ log (fst after) =
       [OnDisconnected "Reconnecting…";
        Sent (JsonObject (helloFrame sampleHello));
        OnConnected "Bridge" gatewayAddress;
        SocketClosed].
Proof.
  exact (proj2 nameless_event_ends_session hierURI noInvoke endpointB sampleHello
           {| connectError := None; remote := gatewayAddress;
              incoming := [Frame (JsonObject [("type", str "hello-ok")]);
                           Frame (JsonObject [("type", str "event")]);
                           Frame (pingFrame "p1")] |}
           desiredSession 3 [("type", str "hello-ok")] [("type", str "event")]
           [Frame (pingFrame "p1")] eq_refl eq_refl eq_refl eq_refl eq_refl eq_refl).
Defined.

(** X7. Whatever a handler throws, the result made of it is a failure in
    good form: [ok] is false, there is no payload, there is an error, its
    code is never empty and is made of upper case letters and underscores
    only, and its message is empty only if the exception has no text at
    all (no message but blanks and no class name). *)
Theorem invoke_error_well_formed (err : Throwable) :
  ok (invokeErrorFromThrowable err) = false
  /\ payloadJson (invokeErrorFromThrowable err) = None
  /\ exists e,
       error (invokeErrorFromThrowable err) = Some e
       /\ code e <> EmptyString
       /\ Forall (fun u => charIs isUpperCase u = true \/ u = "_") (chars (code e))
       /\ (message e = EmptyString ->
           simpleName err = EmptyString
           /\ forall m, thr_message err = Some m -> isBlank m = true).
Proof.
  assert (Htext : throwableText err = EmptyString ->
                  simpleName err = EmptyString
                  /\ forall m, thr_message err = Some m -> isBlank m = true).
  { unfold throwableText. destruct (thr_message err) as [m|]; cbn.
    - pose proof (isEmpty_trim m) as Hb.
      destruct (isEmpty (trim m)) eqn:E.
      + intros H. split; [exact H|]. intros m' [= <-]. symmetry. exact Hb.
      + intros H. rewrite H in E. discriminate.
    - intros H. split; [exact H|discriminate]. }
  assert (Hcode : forall c, isErrorCode c = true ->
            c <> EmptyString
            /\ Forall (fun u => charIs isUpperCase u = true \/ u = "_") (chars c)).
  { intros c. apply isErrorCode_spec. }
  rewrite invokeError_cut.
  destruct (cut ":" (throwableText err)) as [a [b|]].
  - destruct (isErrorCode (trim a)) eqn:Ha; cbn; repeat split; eexists;
      (split; [reflexivity|]); cbn [code message].
    + destruct (Hcode _ Ha) as [H1 H2]. split; [exact H1|]. split; [exact H2|].
      unfold ifEmpty. destruct (isEmpty (trim b)) eqn:Hb; [exact Htext|].
      intros H. rewrite H in Hb. discriminate.
    + destruct (Hcode "UNAVAILABLE" eq_refl) as [H1 H2].
      split; [exact H1|]. split; [exact H2|exact Htext].
  - cbn. repeat split. eexists. split; [reflexivity|]. cbn [code message].
    destruct (Hcode "UNAVAILABLE" eq_refl) as [H1 H2].
    split; [exact H1|]. split; [exact H2|exact Htext].
Qed.

End SessionCalls.

Section Supervisor.
Import Text Json Canvas Bridge BridgeCalls.

Lemma delays_frameEffects (l : list Effect) : Forall frameEffect l -> delays l = [].
Proof.
  induction 1 as [|e l He _ IH]; [reflexivity|].
  unfold delays in *. cbn. destruct e; try contradiction; exact IH.
Qed.

Lemma delays_app (l1 l2 : list Effect) : delays (l1 ++ l2) = (delays l1 ++ delays l2)%list.
Proof. apply omap_app. Qed.

Lemma connectOnce_shape parseURI onInvoke endpoint hello w (s : Session) :
  let s' := fst (connectOnce parseURI onInvoke endpoint hello w s) in
  (currentConnection s = None -> currentConnection s' = None)
  /\ (pending s = ∅ -> pending s' = ∅)
  /\ desired s' = desired s
  /\ exists added, log s' = (log s ++ added)%list /\ delays added = [].
Proof.
  unfold connectOnce. destruct (connectError w).
  { cbn. repeat split; auto. exists []. split; [symmetry; apply app_nil_r|reflexivity]. }
  unfold session.
  destruct (handshake (head (incoming w))) as [[name raw]|err].
  - match goal with |- context [readLoop onInvoke ?s0 ?i] =>
      pose proof (readLoop_shape onInvoke i s0) as Hr;
      destruct (readLoop onInvoke s0 i) as [s2 e] end.
    cbn [fst] in *. destruct Hr as (_ & _ & H3 & _ & _ & l & H6 & H7).
    cbn. repeat split; auto.
    exists (Sent (JsonObject (helloFrame hello))
              :: OnConnected name (remote w) :: (l ++ [SocketClosed]))%list.
    split.
    + rewrite H6. cbn. rewrite <- !app_assoc. reflexivity.
    + change (delays (l ++ [SocketClosed]) = []). rewrite delays_app.
      rewrite (delays_frameEffects l H7). reflexivity.
  - cbn. repeat split; auto.
    exists [Sent (JsonObject (helloFrame hello)); SocketClosed].
    split; [rewrite <- app_assoc; reflexivity|reflexivity].
Qed.

Lemma sleepMs_bounds (n : Z) : 1 <= n -> 595 <= sleepMs n <= 8000.
Proof.
  intros Hn. unfold sleepMs. split; [|apply Z.le_min_l].
  change 595 with (Z.min 8000 (backoffProduct 1)).
  apply Z.min_le_compat_l. apply backoffProduct_mono. lia.
Qed.


Lemma runLoop_from parseURI onInvoke (wires : list Wire) (s : Session) (a : Z) :
  currentConnection s = None -> pending s = ∅ ->
  0 <= a -> a + Z.of_nat (length wires) <= int32Max ->
  let r := fold_left (runLoopTurn parseURI onInvoke) wires (s, a) in
  currentConnection (fst r) = None
  /\ pending (fst r) = ∅
  /\ desired (fst r) = desired s
  /\ 0 <= snd r <= a + Z.of_nat (length wires)
  /\ exists added, log (fst r) = (log s ++ added)%list
                   /\ Forall supervisorDelay (delays added).
Proof.
  revert s a. induction wires as [|w wires IH]; intros s a Hc Hp Ha Hlen.
  { cbn. split_ands; auto; try lia; try congruence. exists []. split; [symmetry; apply app_nil_r|constructor]. }
  cbn [fold_left length] in *.
  assert (Hturn : let t := runLoopTurn parseURI onInvoke (s, a) w in
            currentConnection (fst t) = None
            /\ pending (fst t) = ∅
            /\ desired (fst t) = desired s
            /\ 0 <= snd t <= a + 1
            /\ exists added, log (fst t) = (log s ++ added)%list
                             /\ Forall supervisorDelay (delays added)).
  { unfold runLoopTurn. destruct (desired s) as [[endpoint hello]|] eqn:Hd.
    - pose proof (connectOnce_shape parseURI onInvoke endpoint hello w
                    (emit (OnDisconnected
                             (if a =? 0 then "Connecting…" else "Reconnecting…")) s))
        as Hshape.
      destruct (connectOnce parseURI onInvoke endpoint hello w _) as [s2 [|err]];
        cbn [fst snd] in *; destruct Hshape as (H1 & H2 & H3 & l & H4 & H5);
        cbn [desired emit log pending currentConnection] in H1, H2, H3, H4.
      + split_ands; auto; try lia; try congruence.
        exists (OnDisconnected (if a =? 0 then "Connecting…" else "Reconnecting…") :: l).
        split; [rewrite H4; cbn; rewrite <- app_assoc; reflexivity|].
        change (Forall supervisorDelay (delays l)). rewrite H5. constructor.
      + rewrite wrap32_succ by lia. cbn. split_ands; auto; try lia; try congruence.
        exists (OnDisconnected (if a =? 0 then "Connecting…" else "Reconnecting…")
                  :: l ++ [OnDisconnected ("Bridge error: " ++ errorText err);
                           Delay (sleepMs (a + 1))])%list.
        split; [rewrite H4; cbn; rewrite <- !app_assoc; reflexivity|].
        change (Forall supervisorDelay
                  (delays (l ++ [OnDisconnected ("Bridge error: " ++ errorText err);
                                 Delay (sleepMs (a + 1))]))).
        rewrite delays_app, H5. cbn. constructor; [|constructor].
        right. apply sleepMs_bounds. lia.
    - rewrite Hc. cbn. split_ands; auto; try lia; try congruence.
      exists [Delay 250]. split; [reflexivity|].
      constructor; [left; reflexivity|constructor]. }
  destruct (runLoopTurn parseURI onInvoke (s, a) w) as [s1 a1].
  cbn [fst snd] in Hturn. destruct Hturn as (T1 & T2 & T3 & T4 & l1 & T5 & T6).
  destruct (IH s1 a1 T1 T2 ltac:(lia) ltac:(lia)) as (R1 & R2 & R3 & R4 & l2 & R5 & R6).
  cbv zeta. split_ands; auto; try lia; [congruence|].
  exists (l1 ++ l2)%list. split.
  - rewrite R5, T5, <- app_assoc. reflexivity.
  - rewrite delays_app. apply Forall_app. split; assumption.
Qed.

(** X8. What [runLoop] keeps between its turns, for any behaviour of the
    network: started without a connection and with an empty table, it ends
    every turn without a connection and with an empty table, it does not
    change the desired endpoint, its attempt counter stays between 0 and the
    number of turns, and every sleep it makes is either the idle poll of 250
    ms or a backoff between 595 and 8000 ms. *)
Theorem supervisor_invariants :
  forall parseURI onInvoke (wires : list Wire) (s : Session),
    currentConnection s = None -> pending s = ∅ ->
    Z.of_nat (length wires) <= int32Max ->
    let r := runLoop parseURI onInvoke s wires in
    currentConnection (fst r) = None
    /\ pending (fst r) = ∅
    /\ desired (fst r) = desired s
    /\ 0 <= snd r <= Z.of_nat (length wires)
    /\ exists added, log (fst r) = (log s ++ added)%list
                     /\ Forall supervisorDelay (delays added).
Proof.
  intros parseURI onInvoke wires s Hc Hp Hlen.
  exact (runLoop_from parseURI onInvoke wires s 0 Hc Hp ltac:(lia) ltac:(lia)).
Qed.

Lemma supervisor_invariants_witness :
  let r := runLoop hierURI noInvoke desiredSession
             [wireRefused; wireReset; wireBadLine; wireClosed; wireRejected] in
  currentConnection (fst r) = None
  /\ pending (fst r) = ∅
  /\ desired (fst r) = desired desiredSession
  /\ 0 <= snd r <= 5
  /\ exists added, log (fst r) = (log desiredSession ++ added)%list
                   /\ Forall supervisorDelay (delays added).
Proof.
  assert (Hlen : Z.of_nat 5 <= int32Max) by (unfold int32Max; lia).
  exact (supervisor_invariants hierURI noInvoke
           [wireRefused; wireReset; wireBadLine; wireClosed; wireRejected]
           desiredSession eq_refl eq_refl Hlen).
Defined.



End Supervisor.

Section CodeChars.
Import Text.

Lemma lacks_append (d : ascii) (a b : string) :
  lacks d (a ++ b) = lacks d a && lacks d b.
Proof.
  unfold lacks. induction a as [|c r IH]; [reflexivity|].
  rewrite append_cons. cbn [all]. rewrite IH. apply andb_assoc.
Qed.

Lemma lacks_text (d : ascii) (l : list string) :
  forallb (lacks d) l = true -> lacks d (text l) = true.
Proof.
  induction l as [|u r IH]; [reflexivity|].
  cbn [forallb]. intros [Hu Hr]%andb_prop.
  rewrite text_cons, lacks_append, Hu, (IH Hr). reflexivity.
Qed.

(** The bytes of a character are those of no ASCII character but
    itself. *)
Lemma char_lacks (d : ascii) (u : string) (cp : N) :
  isAscii d = true -> codePoint u = Some cp -> cp <> byte d -> lacks d u = true.
Proof.
  intros Hd Hu Hne. unfold isAscii in Hd. apply N.ltb_lt in Hd.
  assert (Hbyte : forall x, byte x <> byte d -> negb (Ascii.eqb x d) = true).
  { intros x Hx. apply negb_true_iff, Ascii.eqb_neq. congruence. }
  assert (Hcont : forall x, isContinuation x = true -> negb (Ascii.eqb x d) = true).
  { intros x [Hx%N.leb_le _]%andb_prop. apply Hbyte. lia. }
  destruct u as [|a [|b [|c [|e r]]]]; cbn [codePoint] in Hu; try discriminate;
    unfold lacks; cbn [all].
  - destruct (isAscii a); [|discriminate]. injection Hu as <-.
    rewrite (Hbyte a Hne). reflexivity.
  - destruct ((194 <=? byte a)%N && (byte a <? 224)%N && isContinuation b) eqn:E;
      [|discriminate].
    apply andb_prop in E as [[E1%N.leb_le _]%andb_prop E2].
    rewrite (Hbyte a), (Hcont b E2) by lia. reflexivity.
  - cbv zeta in Hu.
    destruct ((224 <=? byte a)%N && (byte a <? 240)%N
              && isContinuation b && isContinuation c && (2048 <=? _)%N) eqn:E;
      [|discriminate].
    apply andb_prop in E as [[[[E1%N.leb_le _]%andb_prop E2]%andb_prop E3]%andb_prop _].
    rewrite (Hbyte a), (Hcont b E2), (Hcont c E3) by lia. reflexivity.
Qed.

(** No character is both whitespace and a letter of a code. *)
Lemma whitespace_not_code (cp : N) :
  isWhitespace cp = true -> Bridge.isCodeChar cp = false.
Proof.
  intros Hw.
  assert (Hsmall : (cp <= 12288)%N).
  { unfold isWhitespace in Hw.
    repeat match type of Hw with
           | (_ || _)%bool = true => apply orb_prop in Hw as [Hw|Hw]
           | (_ && _)%bool = true => apply andb_prop in Hw as [_ Hw]
           end;
      first [apply N.leb_le in Hw | apply N.eqb_eq in Hw]; lia. }
  assert (Hall : forallb (fun n => if isWhitespace (N.of_nat n)
                                   then negb (Bridge.isCodeChar (N.of_nat n))
                                   else true)
                   (seq 0 (N.to_nat 12289)) = true) by (vm_compute; reflexivity).
  rewrite forallb_forall in Hall.
  specialize (Hall (N.to_nat cp)). rewrite N2Nat.id, Hw in Hall.
  apply negb_true_iff, Hall, in_seq. lia.
Qed.

(** A code is made of letters and underscores: no colon, no whitespace. *)
Lemma code_chars (c : string) :
  allChars Bridge.isCodeChar c = true ->
  lacks ":" c = true
  /\ forallb (fun u => negb (charIs isWhitespace u)) (chars c) = true.
Proof.
  unfold allChars. intros H. split.
  - rewrite <- (text_chars c). apply lacks_text.
    rewrite forallb_forall in H |- *. intros u Hu. specialize (H u Hu).
    unfold charIs in H. destruct (codePoint u) as [cp|] eqn:E; [|discriminate].
    apply (char_lacks ":" u cp eq_refl E). intros ->. discriminate.
  - rewrite forallb_forall in H |- *. intros u Hu. specialize (H u Hu).
    unfold charIs in *. destruct (codePoint u) as [cp|]; [|reflexivity].
    destruct (isWhitespace cp) eqn:Hw; [|reflexivity].
    rewrite (whitespace_not_code cp Hw) in H. discriminate.
Qed.

Lemma trim_unspaced (s : string) :
  forallb (fun u => negb (charIs isWhitespace u)) (chars s) = true -> trim s = s.
Proof. exact (trimBy_none isWhitespace s). Qed.

(** A space at the start is trimmed. *)
Lemma trim_after_space (m : string) : trim (trimEnd (String " " m)) = trim m.
Proof. rewrite trim_trimEnd. reflexivity. Qed.

End CodeChars.

Section ResolutionEdges.
Import Text Canvas.

(** X10. Canvas host resolution yields no URL exactly when nothing was
    advertised (the URL is missing or blank) and the endpoint offers no
    host at all; and a URL it yields is never blank. *)
Theorem canvas_url_absent_iff :
  forall parseURI raw endpoint,
    (normalizeCanvasHostUrl parseURI raw endpoint = None
     <-> isBlank (advertised raw) = true /\ specFallbackHost endpoint = None)
    /\ (forall url, normalizeCanvasHostUrl parseURI raw endpoint = Some url ->
          isBlank url = false).
Proof.
  intros parseURI raw endpoint.
  unfold normalizeCanvasHostUrl, advertised.
  set (trimmed := orEmpty (option_map trim raw)).
  set (parsed := if isNotBlank trimmed then parseURI trimmed else None).
  destruct (fallbackHost_spec endpoint) as [-> Hne].
  destruct (isNotBlank trimmed
            && negb (isLoopbackHost (Some (orEmpty (option_map trim (parsed ≫= host))))))
    eqn:Hu.
  { apply andb_prop in Hu as [Hnb _]. unfold isNotBlank in Hnb.
    apply negb_true_iff in Hnb. split.
    - split; [discriminate|]. intros [Hb _]. congruence.
    - intros url [= <-]. exact Hnb. }
  destruct (specFallbackHost endpoint) as [h|] eqn:Hh.
  - cbn [orEmpty]. rewrite (Hne h eq_refl). split.
    + split; [discriminate|]. intros [_ H]. discriminate.
    + intros url [= <-]. rewrite isBlank_app by reflexivity.
      apply andb_false_intro1. unfold ifBlank.
      destruct (isBlank (orEmpty (option_map trim (parsed ≫= scheme)))) eqn:Hs;
        [reflexivity | exact Hs].
  - cbn [orEmpty isEmpty]. destruct (isBlank trimmed) eqn:Hb.
    + split; [split; auto | discriminate].
    + split; [split; [discriminate | intros [? _]; discriminate]|].
      intros url [= <-]. exact Hb.
Qed.

(** X11. What counts as a loopback host: every text that starts with
    [127.], whatever follows, with any case and surrounding whitespace left
    aside; a missing or blank host does not, and neither does a host in
    square brackets, the form in which a URI gives an IPv6 literal. *)
Theorem loopback_hosts :
  (forall rest, isLoopbackHost (Some ("127." ++ rest)) = true)
  /\ (forall rest, isLoopbackHost (Some ("[" ++ rest)) = false)
  /\ isLoopbackHost None = false
  /\ (forall s, isBlank s = true -> isLoopbackHost (Some s) = false)
  /\ (forall s, isLoopbackHost (Some (trim s)) = isLoopbackHost (Some s)).
Proof.
  split; [|split; [|split; [|split]]].
  - intros rest. unfold isLoopbackHost. cbn [option_map orEmpty].
    assert (Ht : trim ("127." ++ rest) = "127." ++ trimEnd rest).
    { change ("127." ++ rest) with (String "1" ("27" ++ String "." rest)).
      rewrite trim_ascii by reflexivity.
      rewrite (trimEnd_middle "27" rest ".") by reflexivity. reflexivity. }
    rewrite Ht. unfold startsWith.
    change (lowercase ("127." ++ trimEnd rest))
      with ("127." ++ lowercase (trimEnd rest)).
    destruct (lowercase (trimEnd rest)); reflexivity.
  - intros rest. unfold isLoopbackHost. cbn [option_map orEmpty].
    assert (Ht : trim ("[" ++ rest) = "[" ++ trimEnd rest).
    { change ("[" ++ rest) with (String "[" rest).
      rewrite trim_ascii by reflexivity. reflexivity. }
    rewrite Ht. unfold startsWith.
    change (lowercase ("[" ++ trimEnd rest))
      with ("[" ++ lowercase (trimEnd rest)).
    destruct (lowercase (trimEnd rest)) as [|c1 [|c2 [|c3 r]]]; reflexivity.
  - reflexivity.
  - intros s Hb. unfold isLoopbackHost. cbn [option_map orEmpty].
    assert (He : trim s = EmptyString).
    { pose proof (isEmpty_trim s) as H. rewrite Hb in H.
      destruct (trim s); [reflexivity | discriminate]. }
    rewrite He. reflexivity.
  - intros s. unfold isLoopbackHost. cbn [option_map orEmpty].
    rewrite trim_idem. reflexivity.
Qed.

Lemma loopback_hosts_witness :
  isLoopbackHost (Some "127.0.0.1.nip.io") = true
  /\ isLoopbackHost (Some "[::1]") = false
  /\ isLoopbackHost (Some "   ") = false.
Proof.
  exact (conj (proj1 loopback_hosts "0.0.1.nip.io")
           (conj (proj1 (proj2 loopback_hosts) "::1]")
              (proj1 (proj2 (proj2 (proj2 loopback_hosts))) "   " eq_refl))).
Defined.

End ResolutionEdges.

Section ErrorRoundTrip.
Import Text Json Bridge.

(** The text of the exception that request throws for a code and a
    message. *)
Lemma trim_code_message (c m : string) :
  isErrorCode c = true ->
  trim (c ++ ": " ++ m) = c ++ String ":" (trimEnd (String " " m)).
Proof.
  unfold isErrorCode. intros [Hne Hall]%andb_prop.
  destruct (code_chars c Hall) as [_ Hns].
  unfold trim. rewrite trimBy_split.
  assert (Hs : trimStartBy isWhitespace (c ++ ": " ++ m) = c ++ ": " ++ m).
  { unfold trimStartBy.
    rewrite (chars_app c (": " ++ m) eq_refl).
    destruct (chars c) as [|u us] eqn:Hc.
    - pose proof (text_chars c) as Ht. rewrite Hc in Ht. subst c. discriminate.
    - cbn [forallb] in Hns. apply andb_prop in Hns as [Hu%negb_true_iff _].
      cbn [app dropWhile]. rewrite Hu.
      change (u :: (us ++ chars (": " ++ m))%list)
        with ((u :: us) ++ chars (": " ++ m))%list.
      rewrite <- Hc, <- (chars_app c (": " ++ m) eq_refl). apply text_chars. }
  rewrite Hs.
  change (c ++ ": " ++ m) with (c ++ String ":" (String " " m)).
  apply trimEndBy_middle; reflexivity.
Qed.

(** X12. A failed response travels unchanged through [request] and back
    through [invokeErrorFromThrowable]: [request] throws an
    [IllegalStateException] whose message is the code, a colon, a space and
    the message of the error; and when a handler lets that exception
    escape, the invoke result carries the same code, as long as it is made
    of upper case letters and underscores, and the trimmed message (the
    code followed by a colon when the message is blank). A failed response
    without error object gives [UNAVAILABLE] and [request failed]. *)
Theorem gateway_error_round_trip :
  (forall res c m,
      rok res = false ->
      rerror res = Some {| code := c; message := m |} ->
      isErrorCode c = true ->
      let thrown := {| simpleName := "IllegalStateException";
                       thr_message := Some (c ++ ": " ++ m) |} in
      request_await (Completed res) = Throws thrown
      /\ invokeErrorFromThrowable thrown =
           {| ok := false; payloadJson := None;
              error := Some {| code := c;
                               message := if isBlank m then c ++ ":" else trim m |} |})
  /\ (forall res,
      rok res = false ->
      rerror res = None ->
      let thrown := {| simpleName := "IllegalStateException";
                       thr_message := Some "UNAVAILABLE: request failed" |} in
      request_await (Completed res) = Throws thrown
      /\ invokeErrorFromThrowable thrown =
           {| ok := false; payloadJson := None;
              error := Some {| code := "UNAVAILABLE"; message := "request failed" |} |}).
Proof.
  split.
  - intros res c m Hok Herr Hcode thrown. split.
    { cbn [request_await]. rewrite Hok, Herr. reflexivity. }
    pose proof Hcode as Hcode'.
    unfold isErrorCode in Hcode'. apply andb_prop in Hcode' as [Hne Hall].
    destruct (code_chars c Hall) as [Hlacks Hns].
    assert (Htext : throwableText thrown = c ++ String ":" (trimEnd (String " " m))).
    { unfold throwableText, thrown. cbn [thr_message option_map].
      rewrite (trim_code_message c m Hcode). unfold takeIfNotEmpty.
      destruct c as [|ch r]; [discriminate|]. reflexivity. }
    rewrite invokeError_cut, Htext.
    rewrite (proj2 (cut_found ":" _ c (trimEnd (String " " m))) (conj eq_refl Hlacks)).
    rewrite (trim_unspaced c Hns), Hcode.
    rewrite trim_after_space. unfold ifEmpty. rewrite isEmpty_trim.
    destruct (isBlank m) eqn:Hb; [|reflexivity].
    assert (Hb' : isBlank (String " " m) = true).
    { unfold isBlank, allChars in *. rewrite (chars_ascii " " m eq_refl).
      cbn [forallb]. rewrite Hb. reflexivity. }
    rewrite (trimEnd_blank _ Hb'). reflexivity.
  - intros res Hok Herr thrown. split.
    { cbn [request_await]. rewrite Hok, Herr. reflexivity. }
    reflexivity.
Qed.

Lemma gateway_error_round_trip_witness :
  let res := {| rid := "7"; rok := false; rpayloadJson := None;
                rerror := Some {| code := "NOT_PAIRED";
                                  message := " pair the node first " |} |} in
  let thrown := {| simpleName := "IllegalStateException";
                   thr_message := Some "NOT_PAIRED:  pair the node first " |} in
  request_await (Completed res) = Throws thrown
  /\ invokeErrorFromThrowable thrown =
       {| ok := false; payloadJson := None;
          error := Some {| code := "NOT_PAIRED"; message := "pair the node first" |} |}.
Proof.
  exact (proj1 gateway_error_round_trip
           {| rid := "7"; rok := false; rpayloadJson := None;
              rerror := Some {| code := "NOT_PAIRED";
                                message := " pair the node first " |} |}
           "NOT_PAIRED" " pair the node first " eq_refl eq_refl eq_refl).
Defined.

End ErrorRoundTrip.

Section RunLaws.
Import Kit Effects.

Context {Call : Type}.

Lemma callsAll_ret {A} (Q : Call -> Prop) (a : A) : callsAll Q (ret a).
Proof. intros before. constructor. Qed.

Lemma callsAll_throw {A} (Q : Call -> Prop) e : callsAll Q (@throw Call A e).
Proof. intros before. constructor. Qed.

Lemma callsAll_lift {A} (Q : Call -> Prop) (r : Throwing A) : callsAll Q (lift r).
Proof. intros before. constructor. Qed.

Lemma callsAll_call {A} (Q : Call -> Prop) c (answer : list Call -> Throwing A) :
  Q c -> callsAll Q (call c answer).
Proof. intros H before. cbn. constructor; [exact H | constructor]. Qed.

Lemma callsAll_perform {A} (Q : Call -> Prop) c (answer : A) :
  Q c -> callsAll Q (perform c answer).
Proof. intros H before. cbn. constructor; [exact H | constructor]. Qed.

Lemma callsAll_bind {A B} (Q : Call -> Prop) (m : Run A) (f : A -> Run B) :
  callsAll Q m -> (forall a, callsAll Q (f a)) -> callsAll Q (bind m f).
Proof.
  intros Hm Hf before. unfold bind. specialize (Hm before).
  destruct (m before) as [c1 [a|e]]; cbn [fst] in *; [|exact Hm].
  specialize (Hf a (before ++ c1)%list).
  destruct (f a (before ++ c1)%list) as [c2 r]. cbn [fst] in *.
  apply Forall_app. split; assumption.
Qed.

Lemma callsAll_tryOptional {A} (Q : Call -> Prop) (m : Run A) :
  callsAll Q m -> callsAll Q (tryOptional m).
Proof.
  intros Hm before. unfold tryOptional. specialize (Hm before).
  destruct (m before) as [c [a|e]]; exact Hm.
Qed.

Lemma callsAll_catching {A} (Q : Call -> Prop) (m : Run A) (h : SwiftError -> Run A) :
  callsAll Q m -> (forall e, callsAll Q (h e)) -> callsAll Q (catching m h).
Proof.
  intros Hm Hh before. unfold catching. specialize (Hm before).
  destruct (m before) as [c1 [a|e]]; cbn [fst] in *; [exact Hm|].
  specialize (Hh e (before ++ c1)%list).
  destruct (h e (before ++ c1)%list) as [c2 r]. cbn [fst] in *.
  apply Forall_app. split; assumption.
Qed.

Lemma callsAll_deferring {A} (Q : Call -> Prop) cleanup (m : Run A) :
  Forall Q cleanup -> callsAll Q m -> callsAll Q (deferring cleanup m).
Proof.
  intros Hc Hm before. unfold deferring. specialize (Hm before).
  destruct (m before) as [c r]. cbn [fst] in *.
  apply Forall_app. split; assumption.
Qed.

Lemma bind_returns {A B} (m : @Run Call A) (f : A -> Run B) before c b :
  bind m f before = (c, inl b) ->
  exists c1 a c2,
    m before = (c1, inl a)
    /\ f a (before ++ c1)%list = (c2, inl b)
    /\ c = (c1 ++ c2)%list.
Proof.
  unfold bind. destruct (m before) as [c1 [a|e]]; [|discriminate].
  destruct (f a (before ++ c1)%list) as [c2 r] eqn:Hf.
  intros [= <- ->]. exists c1, a, c2. auto.
Qed.

Lemma yields_ret {A} (P : A -> Prop) a : P a -> yields P (@ret Call A a).
Proof. intros H before a' [= <-]. exact H. Qed.

Lemma yields_throw {A} (P : A -> Prop) e : yields P (@throw Call A e).
Proof. intros before a [=]. Qed.

Lemma yields_bind {A B} (P : B -> Prop) (m : @Run Call A) (f : A -> Run B) :
  (forall a, yields P (f a)) -> yields P (bind m f).
Proof.
  intros Hf before b. unfold bind.
  destruct (m before) as [c1 [a|e]]; [|discriminate].
  specialize (Hf a (before ++ c1)%list b).
  destruct (f a (before ++ c1)%list) as [c2 r]. exact Hf.
Qed.

Lemma yields_deferring {A} (P : A -> Prop) cleanup (m : @Run Call A) :
  yields P m -> yields P (deferring cleanup m).
Proof.
  intros Hm before a. unfold deferring. specialize (Hm before a).
  destruct (m before) as [c r]. exact Hm.
Qed.

End RunLaws.

Ltac calls_all :=
  repeat first
    [ apply callsAll_ret | apply callsAll_throw | apply callsAll_lift
    | apply callsAll_call | apply callsAll_perform
    | apply callsAll_bind; [|intros ?]
    | apply callsAll_tryOptional
    | apply callsAll_catching; [|intros ?]
    | apply callsAll_deferring
    | match goal with
      | |- Effects.callsAll _ (let _ := _ in _) => cbv zeta
      | |- Effects.callsAll _ (if ?b then _ else _) => destruct b
      | |- Effects.callsAll _ (match ?x with _ => _ end) => destruct x
      end ].

Ltac yields_all :=
  repeat first
    [ apply yields_ret | apply yields_throw
    | apply yields_bind; intros ?
    | apply yields_deferring
    | match goal with
      | |- Effects.yields _ (let _ := _ in _) => cbv zeta
      | |- Effects.yields _ (if ?b then _ else _) => destruct b
      | |- Effects.yields _ (match ?x with _ => _ end) => destruct x
      end ].

Section Responses.
Import Kit.

Lemma wellFormed_ok req payload : wellFormed req (okResponse req payload).
Proof. split; [reflexivity|]. left. split; reflexivity. Qed.

Lemma wellFormed_error req c m : wellFormed req (errorResponse req c m).
Proof. split; [reflexivity|]. right. repeat split. discriminate. Qed.

End Responses.

Section MacResponses.
Import Kit Effects MacRuntime.

Lemma macCode_ok req payload : macCode (okResponse req payload).
Proof. intros e [=]. Qed.

Lemma macCode_error req c m :
  c = invalidRequest \/ c = unavailable -> macCode (errorResponse req c m).
Proof. intros H e [= <-]. exact H. Qed.

Lemma run_yields (P : BridgeInvokeResponse -> Prop) req
    (m : Run BridgeInvokeResponse) :
  yields P m ->
  (forall text, P (errorResponse req unavailable text)) ->
  P (snd (run req m)).
Proof.
  intros Hm He. unfold run. specialize (Hm []).
  destruct (m []) as [calls [response|err]]; cbn [snd] in *.
  - apply Hm. reflexivity.
  - apply He.
Qed.

Lemma mac_embedded_responses (sv : Mac.Services) (st : Mac.State) req :
  let P := fun r => wellFormed req r /\ macCode r in
  P (snd (Mac.snapshotCase sv req))
  /\ P (snd (Mac.snapCase sv st req))
  /\ P (snd (Mac.clipCase sv st req)).
Proof.
  assert (Hok : forall p, wellFormed req (okResponse req p) /\ macCode (okResponse req p))
    by (intros; split; [apply wellFormed_ok | apply macCode_ok]).
  assert (Herr : forall m, wellFormed req (errorResponse req unavailable m)
                           /\ macCode (errorResponse req unavailable m))
    by (intros; split; [apply wellFormed_error | apply macCode_error; auto]).
  cbv zeta. split; [|split].
  - unfold Mac.snapshotCase, Mac.decodeParams, Mac.caught.
    destruct (Mac.canvasSnapshotService sv) as [path|e]; [|apply Herr].
    destruct (Mac.contentsOf sv path) as [data|e]; [|apply Herr].
    destruct (Mac.imageOfData sv data) as [image|]; [|apply Herr].
    destruct (Mac.encodeCanvasSnapshot sv image _ _ _) as [ce [bytes|e]];
      [|apply Herr].
    destruct (Mac.encodePayload sv _) as [payload|e]; [apply Hok | apply Herr].
  - unfold Mac.snapCase, Mac.cameraDisabled, Mac.decodeParams, Mac.caught.
    destruct (negb (Mac.cameraEnabled st)); [apply Herr|].
    destruct (Mac.cameraSnapService sv _) as [res|e]; [|apply Herr].
    destruct (Mac.encodePayload sv _) as [payload|e]; [apply Hok | apply Herr].
  - unfold Mac.clipCase, Mac.cameraDisabled, Mac.decodeParams, Mac.caught.
    destruct (negb (Mac.cameraEnabled st)); [apply Herr|].
    destruct (Mac.cameraClipService sv _) as [[path res]|e]; [|apply Herr].
    destruct (Mac.contentsOf sv path) as [data|e]; [|apply Herr].
    destruct (Mac.encodePayload sv _) as [payload|e]; [apply Hok | apply Herr].
Qed.

(** X13. Every answer of the macOS runtime is well formed, whatever the
    request and whatever the services do: it carries the id of the request;
    it is either [ok] without error, or not [ok] with an error and without
    payload; and the code of an error is INVALID_REQUEST or UNAVAILABLE,
    never another one. *)
Theorem mac_response_well_formed :
  forall sv st req,
    let r := snd (handleInvoke sv st req) in
    wellFormed req r /\ macCode r.
Proof.
  intros sv st req. cbv zeta.
  set (P := fun r => wellFormed req r /\ macCode r).
  assert (Hok : forall p, P (okResponse req p))
    by (intros; split; [apply wellFormed_ok | apply macCode_ok]).
  assert (Herr : forall c m, c = invalidRequest \/ c = unavailable ->
                             P (errorResponse req c m))
    by (intros; split; [apply wellFormed_error | apply macCode_error; auto]).
  assert (Hrun : forall m, yields P m -> P (snd (run req m))).
  { intros m Hm. apply run_yields; [exact Hm|]. intros text. apply Herr. auto. }
  destruct (mac_embedded_responses (base sv) st req) as (Hs1 & Hs2 & Hs3).
  change (P (snd (handleInvoke sv st req))).
  unfold handleInvoke.
  repeat match goal with
         | |- P (snd (if ?b then _ else _)) => destruct b
         end;
    try (apply Herr; auto; fail);
    try (unfold embedded; cbn [snd]; assumption);
    apply Hrun.
  - unfold presentCase. yields_all. apply Hok.
  - unfold hideCase. yields_all. apply Hok.
  - unfold navigateCase. yields_all. apply Hok.
  - unfold evalCase. yields_all. apply Hok.
  - unfold handleA2UIReset. yields_all. apply Hok.
  - unfold handleA2UIPush. yields_all. apply Hok.
  - unfold recordCase. yields_all; try apply Hok; apply Herr; auto.
  - unfold handleSystemRun. yields_all; try apply Hok; apply Herr; auto.
  - unfold handleSystemNotify. yields_all; try apply Hok; apply Herr; auto.
Qed.

End MacResponses.

Section MacGates.
Import Kit Effects MacRuntime.

Lemma prefix_app (p q s : string) :
  String.prefix (p ++ q) s = true -> String.prefix p s = true.
Proof.
  revert s. induction p as [|a p IH]; intros s.
  - intros _. destruct s; reflexivity.
  - destruct s as [|b s]; [discriminate|]. simpl.
    destruct (Ascii.ascii_dec a b); [apply IH | discriminate].
Qed.

Lemma hasPrefix_longer (s : string) :
  hasPrefix s "canvas." = false -> hasPrefix s "canvas.a2ui." = false.
Proof.
  unfold hasPrefix. intros H.
  destruct (String.prefix "canvas.a2ui." s) eqn:E; [|reflexivity].
  rewrite (prefix_app "canvas." "a2ui." s E) in H. discriminate.
Qed.

(** X14. The canvas switch of the macOS runtime. With Canvas turned off,
    every command whose name starts with [canvas.] (the A2UI commands
    included) is refused with UNAVAILABLE and a message starting with
    CANVAS_DISABLED, and nothing is called. Canvas is on until the setting
    is stored as off. The setting concerns canvas commands only: every
    other command is answered the same way with Canvas on or off. *)
Theorem mac_canvas_gate :
  (forall sv st req,
      hasPrefix (command req) "canvas." = true ->
      Mac.canvasEnabledPref st = Some false ->
      handleInvoke sv st req =
        ([], errorResponse req unavailable "CANVAS_DISABLED: enable Canvas in Settings"))
  /\ (forall sv camera req,
      handleInvoke sv {| Mac.canvasEnabledPref := None;
                         Mac.cameraEnabledPref := camera |} req
      = handleInvoke sv {| Mac.canvasEnabledPref := Some true;
                           Mac.cameraEnabledPref := camera |} req)
  /\ (forall sv canvas canvas' camera req,
      hasPrefix (command req) "canvas." = false ->
      handleInvoke sv {| Mac.canvasEnabledPref := canvas;
                         Mac.cameraEnabledPref := camera |} req
      = handleInvoke sv {| Mac.canvasEnabledPref := canvas';
                           Mac.cameraEnabledPref := camera |} req).
Proof.
  split; [|split].
  - intros sv st req Hp Hoff. unfold handleInvoke, Mac.canvasEnabled.
    rewrite Hp, Hoff. reflexivity.
  - intros sv camera req. reflexivity.
  - intros sv canvas canvas' camera req Hp.
    unfold handleInvoke. rewrite Hp, (hasPrefix_longer _ Hp). reflexivity.
Qed.

Lemma mac_canvas_gate_witness :
  handleInvoke sampleServices
    {| Mac.canvasEnabledPref := Some false; Mac.cameraEnabledPref := None |}
    (Mac.request "canvas.a2ui.reset" None)
  = ([], errorResponse (Mac.request "canvas.a2ui.reset" None) unavailable
           "CANVAS_DISABLED: enable Canvas in Settings").
Proof.
  exact (proj1 mac_canvas_gate _
           {| Mac.canvasEnabledPref := Some false; Mac.cameraEnabledPref := None |}
           (Mac.request "canvas.a2ui.reset" None) eq_refl eq_refl).
Defined.

End MacGates.

Section MacFiles.
Import Kit Effects MacRuntime.

Lemma run_calls req (m : Run BridgeInvokeResponse) :
  fst (run req m) = fst (m []).
Proof. unfold run. destruct (m []) as [calls [r|e]]; reflexivity. Qed.

Lemma probeLoop_calls (Q : Call -> Prop) sv budget :
  Q (Evaluate ReadyProbe) -> (forall ns, Q (Sleep ns)) ->
  callsAll Q (probeLoop sv budget).
Proof.
  intros Hp Hs. induction budget as [|b IH]; cbn [probeLoop]; calls_all; auto.
Qed.

Lemma ensureA2UIHost_calls (Q : Call -> Prop) sv :
  Q (Evaluate ReadyProbe) -> (forall ns, Q (Sleep ns)) -> Q CanvasHostUrl ->
  (forall p, Q (ShowPath p)) ->
  callsAll Q (ensureA2UIHost sv).
Proof.
  intros Hp Hs Hc Hsh. unfold ensureA2UIHost, resolveA2UIHostUrl.
  calls_all; auto; apply probeLoop_calls; auto.
Qed.

Ltac no_file_calls :=
  cbv beta;
  match goal with
  | |- ~ fileCall _ => intros [?|?]; discriminate
  | |- forall _, ~ fileCall _ => intros ? [?|?]; discriminate
  | |- Forall _ _ => repeat constructor; intros [?|?]; discriminate
  end.

Ltac concrete_files :=
  simpl; split;
  [ first
      [ solve [intros H; exfalso; simpl in H; intuition discriminate]
      | intros _;
        match goal with
        | |- exists pre, ?L = _ /\ _ =>
            exists (removelast L); split;
            [reflexivity | simpl; intuition discriminate]
        end ]
  | simpl; intuition (try discriminate; auto) ].

Lemma recordCase_files sv req :
  (In (Base Mac.ReadFile) (fst (recordCase sv req [])) ->
     exists pre, fst (recordCase sv req []) = (pre ++ [Base Mac.RemoveFile])%list
                 /\ ~ In (Base Mac.RemoveFile) pre)
  /\ (In (Base Mac.RemoveFile) (fst (recordCase sv req [])) ->
      In (Base Mac.ReadFile) (fst (recordCase sv req []))).
Proof.
  unfold recordCase, tryOptional, decodeParams, encodePayload, deferring,
    bind, call, ret.
  set (decoded := match paramsJSON req with
                  | Some j => decodeScreenRecordParams sv j
                  | None => inr (plainError "INVALID_REQUEST: paramsJSON required")
                  end).
  set (params := match decoded with
                 | inl p => p
                 | inr _ => defaultScreenRecordParams sv
                 end).
  destruct decoded as [p|e]; cbn beta iota zeta; subst params; cbn beta iota;
    (destruct (match option_map _ _ with Some _ => _ | None => false end);
       [concrete_files|];
     destruct (record sv _) as [[path rec]|e']; [|concrete_files];
     cbn [fst];
     destruct (Mac.contentsOf (base sv) path) as [data|e']; [|concrete_files];
     destruct (encodeScreenPayload sv _ _ _) as [payload|e']; concrete_files).
Qed.

(** X15. Temporary files do not outlive the invoke. When a capture
    ([canvas.snapshot], [camera.clip], [screen.record]) produced a file,
    which the runtime then reads, the file is removed exactly once and as
    the last thing the invoke does, also when reading or encoding fails;
    and the runtime removes nothing it did not read: no other path and no
    other command deletes a file. *)
Theorem mac_temp_files_removed :
  forall sv st req,
    let calls := fst (handleInvoke sv st req) in
    (In (Base Mac.ReadFile) calls ->
       exists pre, calls = (pre ++ [Base Mac.RemoveFile])%list
                   /\ ~ In (Base Mac.RemoveFile) pre)
    /\ (In (Base Mac.RemoveFile) calls -> In (Base Mac.ReadFile) calls).
Proof.
  intros sv st req. cbv zeta.
  assert (Hnone : forall m : Run BridgeInvokeResponse,
             callsAll (fun c => ~ fileCall c) m ->
             (In (Base Mac.ReadFile) (fst (run req m)) ->
                exists pre, fst (run req m) = (pre ++ [Base Mac.RemoveFile])%list
                            /\ ~ In (Base Mac.RemoveFile) pre)
             /\ (In (Base Mac.RemoveFile) (fst (run req m)) ->
                 In (Base Mac.ReadFile) (fst (run req m)))).
  { intros m Hm. rewrite run_calls. specialize (Hm []).
    rewrite List.Forall_forall in Hm.
    split; intros H; exfalso; apply (Hm _ H); [left | right]; reflexivity. }
  unfold handleInvoke.
  repeat match goal with
         | |- context [if ?b then _ else _] => destruct b
         end;
    try (concrete_files; fail);
    try (apply Hnone;
         unfold presentCase, hideCase, navigateCase, evalCase, handleA2UIReset,
           handleA2UIPush, messagesFromJSONL, handleSystemRun, handleSystemNotify,
           decodeParams, encodePayload;
         calls_all; try (apply probeLoop_calls); no_file_calls; fail);
    lazymatch goal with
    | |- context [Mac.snapshotCase] =>
        unfold embedded, Mac.snapshotCase, Mac.decodeParams, Mac.caught,
          Mac.encodeCanvasSnapshot;
        destruct (Mac.canvasSnapshotService (base sv)) as [path|e]; [|concrete_files];
        destruct (Mac.contentsOf (base sv) path) as [data|e]; [|concrete_files];
        destruct (Mac.imageOfData (base sv) data) as [image|]; [|concrete_files];
        destruct (Mac.bitmapRep (base sv) _) as [rep|]; [|concrete_files];
        destruct (match _ ≫= format with Some f => f | None => jpeg end);
        (destruct (Mac.representation (base sv) rep _ _) as [bytes|];
         [|concrete_files];
         destruct (Mac.encodePayload (base sv) _) as [payload|e]; concrete_files)
    | |- context [Mac.snapCase] =>
        unfold embedded, Mac.snapCase, Mac.cameraDisabled, Mac.decodeParams,
          Mac.caught;
        destruct (negb (Mac.cameraEnabled st)); [concrete_files|];
        destruct (Mac.cameraSnapService (base sv) _) as [res|e]; [|concrete_files];
        destruct (Mac.encodePayload (base sv) _) as [payload|e]; concrete_files
    | |- context [Mac.clipCase] =>
        unfold embedded, Mac.clipCase, Mac.cameraDisabled, Mac.decodeParams,
          Mac.caught;
        destruct (negb (Mac.cameraEnabled st)); [concrete_files|];
        destruct (Mac.cameraClipService (base sv) _) as [[path res]|e];
          [|concrete_files];
        destruct (Mac.contentsOf (base sv) path) as [data|e]; [|concrete_files];
        destruct (Mac.encodePayload (base sv) _) as [payload|e]; concrete_files
    | |- context [recordCase] =>
        rewrite run_calls; apply recordCase_files
    end.
Qed.

Lemma mac_temp_files_removed_witness :
  let calls := fst (handleInvoke sampleServices
                      {| Mac.canvasEnabledPref := None;
                         Mac.cameraEnabledPref := Some true |}
                      (Mac.request "camera.clip" (Some "{}"))) in
  exists pre, calls = (pre ++ [Base Mac.RemoveFile])%list
              /\ ~ In (Base Mac.RemoveFile) pre.
Proof.
  apply (proj1 (mac_temp_files_removed sampleServices
                  {| Mac.canvasEnabledPref := None;
                     Mac.cameraEnabledPref := Some true |}
                  (Mac.request "camera.clip" (Some "{}")))).
  simpl. auto 10.
Defined.

End MacFiles.

Section MacSystem.
Import Kit Effects MacRuntime.

Lemma dispatch_system sv st req :
  (command req = systemRun ->
   handleInvoke sv st req = run req (handleSystemRun sv req))
  /\ (command req = systemNotify ->
      handleInvoke sv st req = run req (handleSystemNotify sv req)).
Proof.
  split; intros H; unfold handleInvoke; rewrite H; reflexivity.
Qed.

(** X16. [system.run] starts the command only when the parameters decode,
    the command is not empty and, if it asks for screen recording, the
    permission is granted; it then starts it once, with the timeout in
    seconds, and answers [ok] with the encoded result whatever the command
    did (its exit code, a timeout): the only failure left is that of the
    encoder. An empty command is refused with INVALID_REQUEST, a missing
    permission with UNAVAILABLE and PERMISSION_MISSING. *)
Theorem system_run_guards :
  forall sv st req,
    command req = systemRun ->
    let calls := fst (handleInvoke sv st req) in
    let r := snd (handleInvoke sv st req) in
    let decoded :=
      match paramsJSON req with
      | Some j => decodeRunParams sv j
      | None => inr (plainError "INVALID_REQUEST: paramsJSON required")
      end in
    let seconds p := option_map (fun ms => (inject_Z ms / 1000)%Q) (timeoutMs sv p) in
    (forall t, In (RunDetailed t) calls ->
       exists p, decoded = inl p
                 /\ commandIsEmpty sv p = false
                 /\ (needsScreenRecording sv p = Some true ->
                     screenRecordingStatus sv = Some true)
                 /\ t = seconds p)
    /\ (forall p, decoded = inl p ->
          commandIsEmpty sv p = false ->
          (needsScreenRecording sv p = Some true ->
           screenRecordingStatus sv = Some true) ->
          calls = ([Base (Mac.DecodeParams (paramsJSON req))]
                   ++ (match needsScreenRecording sv p with
                       | Some true => [PermissionStatus]
                       | _ => []
                       end)
                   ++ [RunDetailed (seconds p); Base Mac.EncodePayload])%list
          /\ r = match encodeRunPayload sv (runDetailed sv p (seconds p)) with
                 | inl payload => okResponse req (Some payload)
                 | inr e => errorResponse req unavailable (localizedDescription e)
                 end)
    /\ (forall p, decoded = inl p ->
          commandIsEmpty sv p = true ->
          r = errorResponse req invalidRequest "INVALID_REQUEST: command required")
    /\ (forall p, decoded = inl p ->
          commandIsEmpty sv p = false ->
          needsScreenRecording sv p = Some true ->
          screenRecordingStatus sv <> Some true ->
          r = errorResponse req unavailable "PERMISSION_MISSING: screenRecording")
    /\ (forall e, decoded = inr e ->
          r = errorResponse req unavailable (localizedDescription e)).
Proof.
  intros sv st req Hc. cbv zeta.
  rewrite (proj1 (dispatch_system sv st req) Hc).
  unfold run, handleSystemRun, decodeParams, encodePayload, bind, call, perform, ret.
  destruct (match paramsJSON req with
            | Some j => decodeRunParams sv j
            | None => inr (plainError "INVALID_REQUEST: paramsJSON required")
            end) as [p|e]; cbn beta iota.
  2:{ settle. }
  destruct (commandIsEmpty sv p) eqn:Hempty; cbn beta iota.
  { settle. }
  destruct (needsScreenRecording sv p) as [[|]|] eqn:Hneeds; cbn beta iota.
  - destruct (screenRecordingStatus sv) as [[|]|] eqn:Hstatus; cbn;
      [destruct (encodeRunPayload sv _) as [payload|e] eqn:Henc; cbn| |];
      settle.
  - cbn. destruct (encodeRunPayload sv _) as [payload|e] eqn:Henc; settle.
  - cbn. destruct (encodeRunPayload sv _) as [payload|e] eqn:Henc; settle.
Qed.

Lemma system_run_guards_witness :
  fst (handleInvoke sampleServices Mac.defaults (Mac.request "system.run" (Some "{}")))
    = [Base (Mac.DecodeParams (Some "{}")); RunDetailed None; Base Mac.EncodePayload]
  /\ snd (handleInvoke sampleServices Mac.defaults
            (Mac.request "system.run" (Some "{}")))
    = okResponse (Mac.request "system.run" (Some "{}")) (Some "{}").
Proof.
  apply (proj1 (proj2 (system_run_guards sampleServices Mac.defaults
                         (Mac.request "system.run" (Some "{}")) eq_refl)) tt);
    [reflexivity | reflexivity | discriminate].
Defined.

(** X17. [system.notify] with a title and a body that are both blank is
    refused with INVALID_REQUEST and nothing is sent or shown. Otherwise
    title and body go out trimmed; the notification manager is asked unless
    the delivery is [overlay]; the overlay is shown when the delivery is
    [overlay], or when it is [auto] and the manager did not deliver; and the
    answer is a failure (UNAVAILABLE, NOT_AUTHORIZED) only when the
    delivery is [system], or absent, and the manager did not deliver. *)
Theorem system_notify_delivery :
  forall sv st req p,
    command req = systemNotify ->
    match paramsJSON req with
    | Some j => decodeNotifyParams sv j
    | None => inr (plainError "INVALID_REQUEST: paramsJSON required")
    end = inl p ->
    let calls := fst (handleInvoke sv st req) in
    let r := snd (handleInvoke sv st req) in
    let title := SwiftText.trimmingWhitespace (notifyTitle sv p) in
    let body := SwiftText.trimmingWhitespace (notifyBody sv p) in
    let sent := notificationSend sv title body p in
    let delivery := match notifyDelivery sv p with
                    | Some d => d
                    | None => DeliverySystem
                    end in
    (Text.isEmpty title && Text.isEmpty body = true ->
       calls = [Base (Mac.DecodeParams (paramsJSON req))]
       /\ r = errorResponse req invalidRequest "INVALID_REQUEST: empty notification")
    /\ (Text.isEmpty title && Text.isEmpty body = false ->
        (forall t b, In (NotificationSend t b) calls <->
                     t = title /\ b = body /\ delivery <> DeliveryOverlay)
        /\ (forall t b, In (OverlayPresent t b) calls <->
                        t = title /\ b = body
                        /\ (delivery = DeliveryOverlay
                            \/ (delivery = DeliveryAuto /\ sent = false)))
        /\ r = if match delivery with DeliverySystem => negb sent | _ => false end
               then errorResponse req unavailable "NOT_AUTHORIZED: notifications"
               else okResponse req None).
Proof.
  intros sv st req p Hc Hdec. cbv zeta.
  rewrite (proj2 (dispatch_system sv st req) Hc).
  unfold run, handleSystemNotify, decodeParams, bind, call, perform, ret.
  rewrite Hdec. cbn beta iota.
  destruct (Text.isEmpty (SwiftText.trimmingWhitespace (notifyTitle sv p))
            && Text.isEmpty (SwiftText.trimmingWhitespace (notifyBody sv p)));
    cbn beta iota.
  { split; [intros _; split; reflexivity | discriminate]. }
  split; [discriminate|]. intros _.
  destruct (notifyDelivery sv p) as [[| |]|]; cbn beta iota;
    try (destruct (notificationSend sv _ _ p) eqn:Hsent); cbn;
    split_ands; try reflexivity; intros t b;
    (split;
     [ intros H;
       repeat match goal with
              | H : _ \/ _ |- _ => destruct H
              | H : False |- _ => destruct H
              end; simplify_eq; split_ands; auto; discriminate
     | intros (-> & -> & H);
       repeat match goal with
              | H : _ \/ _ |- _ => destruct H
              | H : _ /\ _ |- _ => destruct H
              end; simplify_eq; auto; try congruence ]).
Qed.

Lemma system_notify_delivery_witness :
  snd (handleInvoke sampleServices Mac.defaults
         (Mac.request "system.notify" (Some "{}")))
  = okResponse (Mac.request "system.notify" (Some "{}")) None.
Proof.
  exact (proj2 (proj2 (proj2 (system_notify_delivery sampleServices Mac.defaults
                                (Mac.request "system.notify" (Some "{}")) tt
                                eq_refl eq_refl) eq_refl))).
Defined.

End MacSystem.

Section MacA2UI.
Import Kit Effects MacRuntime.

Lemma probeLoop_step sv budget before :
  probeLoop sv budget before =
    let again :=
      match budget with
      | O => ([Evaluate ReadyProbe], inl false)
      | S b =>
          let '(c, r) :=
            probeLoop sv b (before ++ [Evaluate ReadyProbe; Sleep 120000000])%list in
          (Evaluate ReadyProbe :: Sleep 120000000 :: c, r)
      end in
    match evalJS sv before ReadyProbe with
    | inl text =>
        if String.eqb (SwiftText.trimmingWhitespace text) "true"
        then ([Evaluate ReadyProbe], inl true)
        else again
    | inr _ => again
    end.
Proof.
  destruct budget as [|b]; cbn [probeLoop]; unfold bind, tryOptional, call, perform, ret;
    destruct (evalJS sv before ReadyProbe) as [text|e]; cbn beta iota zeta;
    try destruct (String.eqb (SwiftText.trimmingWhitespace text) "true");
    cbn beta iota; try reflexivity;
    rewrite <- app_assoc; cbn [app];
    destruct (probeLoop sv b _) as [c r]; reflexivity.
Qed.

Lemma probeLoop_ready sv budget before :
  exists ready,
    snd (probeLoop sv budget before) = inl ready
    /\ (ready = true ->
        exists c', fst (probeLoop sv budget before) = (c' ++ [Evaluate ReadyProbe])%list
                   /\ answeredReady sv (before ++ c')%list).
Proof.
  revert before. induction budget as [|b IH]; intros before;
    rewrite probeLoop_step; cbv zeta.
  - destruct (evalJS sv before ReadyProbe) as [text|e] eqn:He.
    + destruct (String.eqb (SwiftText.trimmingWhitespace text) "true") eqn:Ht; cbn.
      * exists true. split; [reflexivity|]. intros _. exists []. split; [reflexivity|].
        rewrite app_nil_r. exists text. split; [exact He|].
        apply String.eqb_eq. exact Ht.
      * exists false. split; [reflexivity | discriminate].
    + cbn. exists false. split; [reflexivity | discriminate].
  - assert (Hnext :
      exists ready,
        snd (let '(c, r) :=
               probeLoop sv b (before ++ [Evaluate ReadyProbe; Sleep 120000000])%list in
             (Evaluate ReadyProbe :: Sleep 120000000 :: c, r)) = inl ready
        /\ (ready = true ->
            exists c',
              fst (let '(c, r) :=
                     probeLoop sv b (before ++ [Evaluate ReadyProbe; Sleep 120000000])%list in
                   (Evaluate ReadyProbe :: Sleep 120000000 :: c, r))
              = (c' ++ [Evaluate ReadyProbe])%list
              /\ answeredReady sv (before ++ c')%list)).
    { destruct (IH (before ++ [Evaluate ReadyProbe; Sleep 120000000])%list)
        as (ready & Hr & Hc).
      destruct (probeLoop sv b _) as [c2 r2]. cbn [fst snd] in *.
      exists ready. split; [exact Hr|]. intros Htrue.
      destruct (Hc Htrue) as (c' & -> & Hans).
      exists ([Evaluate ReadyProbe; Sleep 120000000] ++ c')%list.
      split; [reflexivity|].
      rewrite <- app_assoc in Hans. exact Hans. }
    destruct (evalJS sv before ReadyProbe) as [text|e] eqn:He; [|exact Hnext].
    destruct (String.eqb (SwiftText.trimmingWhitespace text) "true") eqn:Ht;
      [|exact Hnext].
    cbn. exists true. split; [reflexivity|]. intros _. exists [].
    split; [reflexivity|]. rewrite app_nil_r. exists text.
    split; [exact He | apply String.eqb_eq; exact Ht].
Qed.

Lemma ensureA2UIHost_ready sv before c :
  ensureA2UIHost sv before = (c, inl tt) ->
  exists c', c = (c' ++ [Evaluate ReadyProbe])%list
             /\ answeredReady sv (before ++ c')%list.
Proof.
  unfold ensureA2UIHost, isA2UIReady. intros H.
  apply bind_returns in H as (c1 & ready & c2 & H1 & H2 & ->).
  destruct (probeLoop_ready sv O before) as (ready0 & Hr & Hc).
  rewrite H1 in Hr, Hc. cbn [fst snd] in Hr, Hc. injection Hr as <-.
  destruct ready.
  - injection H2 as <-. rewrite app_nil_r. exact (Hc eq_refl).
  - clear Hc. apply bind_returns in H2 as (c3 & resolved & c4 & H3 & H4 & ->).
    destruct resolved as [a2uiUrl|]; [|discriminate].
    apply bind_returns in H4 as (c5 & shown & c6 & H5 & H6 & ->).
    apply bind_returns in H6 as (c7 & ready' & c8 & H7 & H8 & ->).
    destruct (probeLoop_ready sv (pollBudget sv) (((before ++ c1) ++ c3) ++ c5)%list)
      as (ready0 & Hr & Hc).
    rewrite H7 in Hr, Hc. cbn [fst snd] in Hr, Hc. injection Hr as <-.
    destruct ready'; [|discriminate].
    injection H8 as <-. destruct (Hc eq_refl) as (c' & -> & Hans).
    exists (c1 ++ c3 ++ c5 ++ c')%list. split.
    + rewrite app_nil_r, <- !app_assoc. reflexivity.
    + rewrite <- !app_assoc in Hans. exact Hans.
Qed.

Lemma plainCall_facts :
  plainCall (Evaluate ReadyProbe) /\ (forall ns, plainCall (Sleep ns))
  /\ plainCall CanvasHostUrl /\ (forall p, plainCall (ShowPath p))
  /\ (forall c, plainCall (Base c)).
Proof.
  unfold plainCall, a2uiScript. split_ands; intros; try discriminate.
  simplify_eq. intros [H|[m H]]; discriminate.
Qed.

Lemma ensureA2UIHost_plain sv before :
  Forall plainCall (fst (ensureA2UIHost sv before)).
Proof.
  destruct plainCall_facts as (H1 & H2 & H3 & H4 & _).
  apply (ensureA2UIHost_calls plainCall sv H1 H2 H3 H4).
Qed.

(** A script that follows plain calls is the last call. *)
Lemma script_is_last (c pre post : list Call) (js js' : Script) :
  Forall plainCall c -> a2uiScript js' ->
  (c ++ [Evaluate js])%list = (pre ++ Evaluate js' :: post)%list ->
  post = [] /\ pre = c.
Proof.
  intros Hc Hjs. revert pre. induction c as [|x c IH]; intros pre H.
  - destruct pre as [|y pre]; cbn in H.
    + injection H as _ <-. auto.
    + injection H as _ H. destruct pre; discriminate.
  - destruct pre as [|y pre]; cbn in H.
    + injection H as -> _. exfalso.
      apply Forall_inv in Hc. exact (Hc js' eq_refl Hjs).
    + injection H as <- H. apply Forall_inv_tail in Hc.
      destruct (IH Hc pre H) as [-> ->]. auto.
Qed.

Lemma no_script (c pre post : list Call) (js' : Script) :
  Forall plainCall c -> a2uiScript js' ->
  c <> (pre ++ Evaluate js' :: post)%list.
Proof.
  intros Hc Hjs ->. apply Forall_app in Hc as [_ Hc].
  apply Forall_inv in Hc. exact (Hc js' eq_refl Hjs).
Qed.

Lemma reset_scripts sv req pre js post :
  fst (handleA2UIReset sv req []) = (pre ++ Evaluate js :: post)%list ->
  a2uiScript js ->
  post = [] /\ exists pre', pre = (pre' ++ [Evaluate ReadyProbe])%list
                            /\ answeredReady sv pre'.
Proof.
  unfold handleA2UIReset, bind at 1.
  pose proof (ensureA2UIHost_plain sv []) as Hplain.
  destruct (ensureA2UIHost sv []) as [c [[]|e]] eqn:He; cbn [fst] in Hplain.
  - unfold bind, call, ret. cbn [fst]. intros H Hjs.
    destruct (evalJS sv _ ResetScript); cbn [fst] in H;
      rewrite ?app_nil_r in H;
      destruct (script_is_last c pre post ResetScript js Hplain Hjs H) as [-> ->];
      (split; [reflexivity|]);
      destruct (ensureA2UIHost_ready sv [] c He) as (c' & -> & Hans);
      exists c'; auto.
  - cbn [fst]. intros H Hjs. exfalso. exact (no_script c pre post js Hplain Hjs H).
Qed.

Lemma push_scripts sv req pre js post :
  fst (handleA2UIPush sv req []) = (pre ++ Evaluate js :: post)%list ->
  a2uiScript js ->
  post = [] /\ exists pre', pre = (pre' ++ [Evaluate ReadyProbe])%list
                            /\ answeredReady sv pre'.
Proof.
  unfold handleA2UIPush.
  set (decoding := if String.eqb (command req) canvasA2UIPushJSONL
                   then messagesFromJSONL sv req
                   else catching (decodeParams (decodePushParams sv) (paramsJSON req))
                          (fun _ => messagesFromJSONL sv req)).
  assert (Hd : callsAll plainCall decoding).
  { destruct plainCall_facts as (_ & _ & _ & _ & Hbase).
    subst decoding. unfold messagesFromJSONL, decodeParams. calls_all; apply Hbase. }
  specialize (Hd []). unfold bind at 1.
  destruct (decoding []) as [d [messages|e]]; cbn [fst] in Hd.
  2:{ cbn [fst]. intros H Hjs. exfalso. exact (no_script d pre post js Hd Hjs H). }
  cbn [app]. unfold bind at 1.
  pose proof (ensureA2UIHost_plain sv d) as Hplain.
  destruct (ensureA2UIHost sv d) as [c [[]|e]] eqn:He; cbn [fst] in Hplain.
  2:{ cbn [fst]. intros H Hjs. exfalso.
      refine (no_script (d ++ c)%list pre post js _ Hjs H).
      apply Forall_app. auto. }
  assert (Hdc : Forall plainCall (d ++ c)%list) by (apply Forall_app; auto).
  unfold bind, lift, call, ret.
  destruct (encodeMessagesJSONArray sv messages) as [messagesJSON|e]; cbn [fst].
  2:{ rewrite app_nil_r. intros H Hjs. exfalso.
      exact (no_script (d ++ c)%list pre post js Hdc Hjs H). }
  intros H Hjs.
  assert (H' : ((d ++ c) ++ [Evaluate (ApplyMessages messagesJSON)])%list
               = (pre ++ Evaluate js :: post)%list).
  { rewrite <- H. destruct (evalJS sv _ (ApplyMessages messagesJSON));
      cbn [fst app]; rewrite ?app_nil_r, <- ?app_assoc; reflexivity. }
  destruct (script_is_last _ pre post _ js Hdc Hjs H') as [-> ->].
  split; [reflexivity|].
  destruct (ensureA2UIHost_ready sv d c He) as (c' & -> & Hans).
  exists (d ++ c')%list. split; [apply app_assoc | exact Hans].
Qed.

(** X18. The runtime evaluates an A2UI script (the reset script, or the
    script applying pushed messages) only on a page that has just answered
    the readiness probe with [true]: the call right before the script is
    the probe, and the page answered it with [true]; and the script is the
    last call of the invoke. No command evaluates such a script in any
    other way. *)
Theorem a2ui_scripts_need_ready_page :
  forall sv st req pre js post,
    fst (handleInvoke sv st req) = (pre ++ Evaluate js :: post)%list ->
    a2uiScript js ->
    post = []
    /\ exists pre', pre = (pre' ++ [Evaluate ReadyProbe])%list /\ answeredReady sv pre'.
Proof.
  intros sv st req pre js post H Hjs.
  destruct plainCall_facts as (Hprobe & Hsleep & Hurl & Hshow & Hbase).
  assert (Hnone : forall m : Run BridgeInvokeResponse,
             callsAll plainCall m ->
             fst (run req m) <> (pre ++ Evaluate js :: post)%list).
  { intros m Hm. rewrite run_calls. apply no_script; [apply Hm | exact Hjs]. }
  assert (Hembedded : forall r : list Mac.Call * BridgeInvokeResponse,
             fst (embedded r) <> (pre ++ Evaluate js :: post)%list).
  { intros r. apply no_script; [|exact Hjs]. unfold embedded. cbn [fst].
    apply List.Forall_forall. intros c Hc. apply in_map_iff in Hc as (x & <- & _).
    apply Hbase. }
  assert (Hplain : forall c, (forall js0, c <> Evaluate js0) -> plainCall c).
  { intros c Hc js0 ->. destruct (Hc js0 eq_refl). }
  revert H. unfold handleInvoke.
  repeat match goal with
         | |- context [if ?b then _ else _] => destruct b
         end;
    intros H;
    try (exfalso; destruct pre; discriminate H);
    try (exfalso; exact (Hembedded _ H));
    try (rewrite run_calls in H; first [exact (reset_scripts sv req pre js post H Hjs)
                                       | exact (push_scripts sv req pre js post H Hjs)]);
    exfalso; revert H; apply Hnone;
    unfold presentCase, hideCase, navigateCase, evalCase, recordCase,
      handleSystemRun, handleSystemNotify, decodeParams, encodePayload;
    calls_all; try apply Hbase; try (apply Hplain; discriminate).
  - intros js0 [= <-] [H0|[m0 H0]]; discriminate.
  - repeat constructor. apply Hbase.
Qed.

Lemma a2ui_scripts_need_ready_page_witness :
  @nil Call = [] /\ exists pre', [Evaluate ReadyProbe] = (pre' ++ [Evaluate ReadyProbe])%list
                              /\ answeredReady sampleServices pre'.
Proof.
  exact (a2ui_scripts_need_ready_page sampleServices Mac.defaults
           (Mac.request "canvas.a2ui.reset" None)
           [Evaluate ReadyProbe] ResetScript [] eq_refl (or_introl eq_refl)).
Defined.

Lemma dispatch_a2ui sv st req :
  Mac.canvasEnabled st = true ->
  (command req = canvasA2UIReset ->
   handleInvoke sv st req = run req (handleA2UIReset sv req))
  /\ (command req = canvasA2UIPush \/ command req = canvasA2UIPushJSONL ->
      handleInvoke sv st req = run req (handleA2UIPush sv req)).
Proof.
  intros Hen. split.
  - intros H. unfold handleInvoke. rewrite H, Hen, !andb_false_r. reflexivity.
  - intros [H|H]; unfold handleInvoke; rewrite H, Hen, !andb_false_r; reflexivity.
Qed.

Lemma probeLoop_never sv budget before :
  (forall history, ~ answeredReady sv history) ->
  probeLoop sv budget before = (pollTrace budget, inl false).
Proof.
  intros Hnever. revert before. induction budget as [|b IH]; intros before;
    rewrite probeLoop_step; cbv zeta; rewrite ?IH; cbn [pollTrace];
    (destruct (evalJS sv before ReadyProbe) as [text|e] eqn:He; [|reflexivity];
     destruct (String.eqb (SwiftText.trimmingWhitespace text) "true") eqn:Ht;
     [|reflexivity];
     exfalso; apply (Hnever before); exists text;
     split; [exact He | apply String.eqb_eq; exact Ht]).
Qed.

(** X19. A push is validated before the canvas is touched. When the
    messages of [canvas.a2ui.pushJSONL] cannot be decoded, the answer is
    the decoder's error and the only call made is the decoding; for
    [canvas.a2ui.push], a request that does not decode as a push is tried
    again as JSONL, and when that fails too the answer carries the error of
    the JSONL decoder, after two decodings and nothing else: no probe, no
    navigation, no script. *)
Theorem a2ui_push_validates_first :
  forall sv st req e,
    Mac.canvasEnabled st = true ->
    let decode := Base (Mac.DecodeParams (paramsJSON req)) in
    let jsonlMessages :=
      match paramsJSON req with
      | Some j =>
          match decodePushJSONLParams sv j with
          | inl jsonl => decodeMessagesFromJSONL sv jsonl
          | inr err => inr err
          end
      | None => inr (plainError "INVALID_REQUEST: paramsJSON required")
      end in
    jsonlMessages = inr e ->
    (command req = canvasA2UIPushJSONL ->
       handleInvoke sv st req =
         ([decode], errorResponse req unavailable (localizedDescription e)))
    /\ (command req = canvasA2UIPush ->
        (forall messages, paramsJSON req ≫= (fun j => Some (decodePushParams sv j))
                          <> Some (inl messages)) ->
        handleInvoke sv st req =
          ([decode; decode], errorResponse req unavailable (localizedDescription e))).
Proof.
  intros sv st req e Hen decode jsonlMessages Hj. subst decode jsonlMessages.
  destruct (dispatch_a2ui sv st req Hen) as [_ Hpush].
  split.
  - intros Hc. rewrite (Hpush (or_intror Hc)).
    unfold run, handleA2UIPush, messagesFromJSONL, decodeParams, bind, call, lift.
    rewrite Hc. change (String.eqb canvasA2UIPushJSONL canvasA2UIPushJSONL) with true.
    cbn beta iota.
    destruct (paramsJSON req) as [j|]; cbn beta iota.
    + destruct (decodePushJSONLParams sv j) as [jsonl|err]; cbn beta iota.
      * rewrite Hj. reflexivity.
      * injection Hj as ->. reflexivity.
    + injection Hj as <-. reflexivity.
  - intros Hc Hfail. rewrite (Hpush (or_introl Hc)).
    unfold run, handleA2UIPush, messagesFromJSONL, decodeParams, catching, bind,
      call, lift.
    rewrite Hc. change (String.eqb canvasA2UIPush canvasA2UIPushJSONL) with false.
    cbn beta iota.
    destruct (paramsJSON req) as [j|]; cbn beta iota.
    + destruct (decodePushParams sv j) as [messages|err1] eqn:Hp; cbn beta iota.
      { exfalso. apply (Hfail messages). cbn. rewrite Hp. reflexivity. }
      destruct (decodePushJSONLParams sv j) as [jsonl|err]; cbn beta iota.
      * rewrite Hj. reflexivity.
      * injection Hj as ->. reflexivity.
    + injection Hj as <-. reflexivity.
Qed.

Lemma a2ui_push_validates_first_witness :
  let req := Mac.request "canvas.a2ui.pushJSONL" None in
  handleInvoke sampleServices Mac.defaults req =
    ([Base (Mac.DecodeParams None)],
     errorResponse req unavailable "INVALID_REQUEST: paramsJSON required").
Proof.
  exact (proj1 (a2ui_push_validates_first sampleServices Mac.defaults
                  (Mac.request "canvas.a2ui.pushJSONL" None)
                  (plainError "INVALID_REQUEST: paramsJSON required")
                  eq_refl eq_refl) eq_refl).
Defined.

(** X20. What [canvas.a2ui.reset] does on a page that is not ready. When
    the gateway advertised no canvas host (none, a blank one, or one that
    is no URL), the answer is UNAVAILABLE with A2UI_HOST_NOT_CONFIGURED
    after one probe and the look-up, without navigation. When the host is
    known and the page never becomes ready, the runtime navigates once to
    the host's A2UI page with [?platform=macos], probes, sleeps 120 ms
    and probes again as many times as the deadline allows, and then
    answers UNAVAILABLE with A2UI_HOST_UNAVAILABLE; the reset script is not
    evaluated. *)
Theorem a2ui_reset_without_host :
  forall sv st req,
    command req = canvasA2UIReset ->
    Mac.canvasEnabled st = true ->
    (forall history, ~ answeredReady sv history) ->
    let resolved :=
      match gatewayCanvasHostUrl sv with
      | Some raw =>
          if Text.isEmpty (SwiftText.trimmingWhitespace raw) then None
          else appendingA2UIPath sv (SwiftText.trimmingWhitespace raw)
      | None => None
      end in
    (resolved = None ->
       handleInvoke sv st req =
         ([Evaluate ReadyProbe; CanvasHostUrl],
          errorResponse req unavailable
            "A2UI_HOST_NOT_CONFIGURED: gateway did not advertise canvas host"))
    /\ (forall absoluteString,
         resolved = Some absoluteString ->
         show sv (absoluteString ++ "?platform=macos") = inl tt ->
         handleInvoke sv st req =
           (([Evaluate ReadyProbe; CanvasHostUrl; ShowPath (absoluteString ++ "?platform=macos")]
             ++ pollTrace (pollBudget sv))%list,
            errorResponse req unavailable
              "A2UI_HOST_UNAVAILABLE: A2UI host not reachable")).
Proof.
  intros sv st req Hc Hen Hnever. cbv zeta.
  rewrite (proj1 (dispatch_a2ui sv st req Hen) Hc).
  unfold run, handleA2UIReset, ensureA2UIHost, isA2UIReady, resolveA2UIHostUrl,
    bind, perform, call, throw, ret.
  rewrite (probeLoop_never sv O [] Hnever). cbn beta iota zeta.
  destruct (gatewayCanvasHostUrl sv) as [raw|]; cbn beta iota zeta.
  2:{ split; [reflexivity | discriminate]. }
  destruct (Text.isEmpty (SwiftText.trimmingWhitespace raw)); cbn beta iota.
  { split; [reflexivity | discriminate]. }
  destruct (appendingA2UIPath sv _) as [abs|]; cbn beta iota.
  2:{ split; [reflexivity | discriminate]. }
  split; [discriminate|]. intros abs' [= <-] Hshow.
  rewrite Hshow. cbn beta iota.
  rewrite (probeLoop_never sv (pollBudget sv) _ Hnever).
  cbn [pollTrace app]. rewrite app_nil_r. reflexivity.
Qed.

Lemma a2ui_reset_without_host_witness :
  let sv := servicesWith "false" (Some " http://gw:18793 ") in
  let req := Mac.request "canvas.a2ui.reset" None in
  handleInvoke sv Mac.defaults req =
    ([Evaluate ReadyProbe; CanvasHostUrl;
      ShowPath "http://gw:18793/__clawdis__/a2ui/?platform=macos";
      Evaluate ReadyProbe; Sleep 120000000; Evaluate ReadyProbe; Sleep 120000000;
      Evaluate ReadyProbe],
     errorResponse req unavailable "A2UI_HOST_UNAVAILABLE: A2UI host not reachable").
Proof.
  intros sv req.
  refine (proj2 (a2ui_reset_without_host sv Mac.defaults req eq_refl eq_refl _)
            "http://gw:18793/__clawdis__/a2ui/" eq_refl eq_refl).
  intros history (text & Ht & Htrue). injection Ht as <-. discriminate Htrue.
Defined.

End MacA2UI.

Section IOSResponses.
Import Kit Effects IOSRuntime.

Lemma ios_run_yields (P : BridgeInvokeResponse -> Prop) req
    (m : Run BridgeInvokeResponse) :
  yields P m ->
  (forall text, P (errorResponse req unavailable text)) ->
  P (snd (run req m)).
Proof.
  intros Hm He. unfold run. specialize (Hm []).
  destruct (m []) as [calls [response|err]]; cbn [snd] in *.
  - apply Hm. reflexivity.
  - apply He.
Qed.

Lemma ios_embedded_responses (sv : IOS.Services) req
    (P : BridgeInvokeResponse -> Prop) :
  (forall p, P (okResponse req p)) ->
  (forall m, P (errorResponse req unavailable m)) ->
  P (snd (IOS.snapshotCase sv req))
  /\ P (snd (IOS.snapCase sv req))
  /\ P (snd (IOS.clipCase sv req)).
Proof.
  intros Hok Herr. split; [|split].
  - unfold IOS.snapshotCase, IOS.decodeParams, IOS.caught.
    destruct (IOS.snapshotBase64 sv _ _ _) as [b64|e]; [|apply Herr].
    destruct (IOS.encodePayload sv _) as [payload|e]; [apply Hok | apply Herr].
  - unfold IOS.snapCase, IOS.decodeParams, IOS.caught.
    destruct (IOS.cameraSnapService sv _) as [res|e]; [|apply Herr].
    destruct (IOS.encodePayload sv _) as [payload|e]; [apply Hok | apply Herr].
  - unfold IOS.clipCase, IOS.decodeParams, IOS.caught.
    destruct (IOS.cameraClipService sv _) as [res|e]; [|apply Herr].
    destruct (IOS.encodePayload sv _) as [payload|e]; [apply Hok | apply Herr].
Qed.

Lemma ios_response_shape sv st req :
  wellFormed req (snd (handleInvoke sv st req))
  /\ iosCode st (snd (handleInvoke sv st req)).
Proof.
  set (P := fun r => wellFormed req r /\ iosCode st r).
  assert (Hok : forall p, P (okResponse req p)).
  { intros p. split; [apply wellFormed_ok|]. intros e [=]. }
  assert (Herr : forall c m, c <> backgroundUnavailable -> P (errorResponse req c m)).
  { intros c m Hc. split; [apply wellFormed_error|].
    intros e [= <-] Hcode. destruct (Hc Hcode). }
  assert (Hun : forall m, P (errorResponse req unavailable m))
    by (intros; apply Herr; discriminate).
  assert (Hrun : forall m, yields P m -> P (snd (run req m))).
  { intros m Hm. apply ios_run_yields; [exact Hm | exact Hun]. }
  destruct (ios_embedded_responses (base sv) req P Hok Hun) as (Hs1 & Hs2 & Hs3).
  change (P (snd (handleInvoke sv st req))).
  unfold handleInvoke.
  destruct ((hasPrefix (command req) "canvas." || hasPrefix (command req) "camera."
             || hasPrefix (command req) "screen.") && IOS.isBackgrounded st) eqn:Hgate.
  { apply andb_prop in Hgate as [_ Hbg]. cbn [snd].
    split; [apply wellFormed_error|]. intros e _ _. exact Hbg. }
  repeat match goal with
         | |- P (snd (if ?b then _ else _)) => destruct b
         end;
    try (apply Hok; fail);
    try (apply Herr; discriminate);
    try (unfold embedded; cbn [snd]; assumption);
    apply Hrun;
    unfold presentCase, navigateCase, evalCase, resetCase, pushCase, recordCase;
    yields_all; first [apply Hok | apply Hun].
Qed.

(** X21. Every answer of the iOS model is well formed, whatever the
    request and whatever the services do: it carries the id of the request
    and is either [ok] without error, or not [ok] with an error and without
    payload; and the code NODE_BACKGROUND_UNAVAILABLE is given only while
    the app is in the background. *)
Theorem ios_response_well_formed :
  forall sv st req,
    let r := snd (handleInvoke sv st req) in
    wellFormed req r /\ iosCode st r.
Proof. intros sv st req. exact (ios_response_shape sv st req). Qed.

(** X22. While the app is in the background the model performs nothing:
    whatever the request, no call is made; a canvas, camera or screen
    command is refused with NODE_BACKGROUND_UNAVAILABLE, and any other
    command is unknown (INVALID_REQUEST). Back in the foreground, active or
    inactive, no request is refused for that reason. *)
Theorem ios_background_performs_nothing :
  forall sv st req,
    let bg := setScenePhase background st in
    fst (handleInvoke sv bg req) = []
    /\ snd (handleInvoke sv bg req) =
         (if needsForeground (command req)
          then errorResponse req backgroundUnavailable
                 "NODE_BACKGROUND_UNAVAILABLE: canvas/camera/screen commands require foreground"
          else errorResponse req invalidRequest "INVALID_REQUEST: unknown command")
    /\ (forall phase e,
          phase <> background ->
          error (snd (handleInvoke sv (setScenePhase phase st) req)) = Some e ->
          code e <> backgroundUnavailable).
Proof.
  intros sv st req. cbv zeta. split_ands.
  - unfold handleInvoke, needsForeground. cbn [setScenePhase IOS.isBackgrounded].
    rewrite andb_true_r.
    destruct (hasPrefix (command req) "canvas." || hasPrefix (command req) "camera."
              || hasPrefix (command req) "screen.") eqn:Hp; [reflexivity|].
    apply orb_false_elim in Hp as [Hp Hscreen].
    apply orb_false_elim in Hp as [Hcanvas Hcamera].
    rewrite Hcamera. cbn [andb].
    repeat match goal with
           | |- context [String.eqb (command req) ?c] =>
               destruct (String.eqb_spec (command req) c) as [Heq|_];
               [exfalso; rewrite Heq in Hcanvas, Hcamera, Hscreen;
                first [discriminate Hcanvas | discriminate Hcamera
                      | discriminate Hscreen]|]
           end.
    reflexivity.
  - unfold handleInvoke, needsForeground. cbn [setScenePhase IOS.isBackgrounded].
    rewrite andb_true_r.
    destruct (hasPrefix (command req) "canvas." || hasPrefix (command req) "camera."
              || hasPrefix (command req) "screen.") eqn:Hp; [reflexivity|].
    apply orb_false_elim in Hp as [Hp Hscreen].
    apply orb_false_elim in Hp as [Hcanvas Hcamera].
    rewrite Hcamera. cbn [andb].
    repeat match goal with
           | |- context [String.eqb (command req) ?c] =>
               destruct (String.eqb_spec (command req) c) as [Heq|_];
               [exfalso; rewrite Heq in Hcanvas, Hcamera, Hscreen;
                first [discriminate Hcanvas | discriminate Hcamera
                      | discriminate Hscreen]|]
           end.
    reflexivity.
  - intros phase e Hphase He Hcode.
    pose proof (proj2 (ios_response_shape sv (setScenePhase phase st) req) e He Hcode)
      as Hbg.
    destruct phase; [destruct (Hphase eq_refl)| | |]; discriminate Hbg.
Qed.

Lemma ios_background_performs_nothing_witness :
  code {| code := unavailable;
          message := "CAMERA_DISABLED: enable Camera in iOS Settings → Camera → Allow Camera" |}
  <> backgroundUnavailable.
Proof.
  exact (proj2 (proj2 (ios_background_performs_nothing sampleServices
                         {| IOS.isBackgrounded := true;
                            IOS.cameraEnabledPref := Some false |}
                         (IOS.request "camera.snap")))
           active _ ltac:(discriminate) eq_refl).
Defined.

End IOSResponses.

(** In [H : l = pre ++ x :: post] with [l] a list of known calls, finds
    every place where [x] can be. *)
Ltac locate H pre :=
  destruct pre as [|? pre]; cbn in H;
  [ try discriminate H; simplify_eq
  | first [ discriminate H | (injection H as <- H; locate H pre) ] ].

Section IOSVoiceWake.
Import Kit.

(** X23. A clip always gives voice wake back. For every [camera.clip] that
    passes the gates of the iOS model, whether the capture and the encoding
    succeed or throw, the camera is called once and voice wake is resumed
    exactly once, after the camera was called and before the error is
    shown; it is told that it had been suspended only when it had been; and
    it is suspended, before the camera is called and never after, exactly
    when the clip wants audio (the default). *)
Theorem ios_voice_wake_resumed :
  forall sv st req,
    command req = cameraClip ->
    IOS.isBackgrounded st = false ->
    IOS.isCameraEnabled st = true ->
    let calls := fst (IOS.handleInvoke sv st req) in
    let params := match paramsJSON req ≫= IOS.decodeClipParams sv with
                  | Some p => p
                  | None => IOS.defaultClipParams sv
                  end in
    let wantsAudio := match IOS.includeAudio sv params with
                      | Some b => b
                      | None => true
                      end in
    (exists flag, In (IOS.ResumeVoiceWake flag) calls)
    /\ (forall pre flag post,
          calls = (pre ++ IOS.ResumeVoiceWake flag :: post)%list ->
          flag = (if wantsAudio then IOS.suspendForExternalAudioCapture sv else false)
          /\ (forall f, ~ In (IOS.ResumeVoiceWake f) pre
                        /\ ~ In (IOS.ResumeVoiceWake f) post)
          /\ In IOS.CameraClip pre
          /\ (In IOS.SuspendVoiceWake pre <-> wantsAudio = true)
          /\ (post = [] \/ exists text, post = [IOS.ShowCameraHUD text]))
    /\ In IOS.CameraClip calls
    /\ (forall pre post,
          calls = (pre ++ IOS.CameraClip :: post)%list ->
          (In IOS.SuspendVoiceWake pre <-> wantsAudio = true)
          /\ ~ In IOS.SuspendVoiceWake post
          /\ ~ In IOS.CameraClip pre
          /\ ~ In IOS.CameraClip post
          /\ In (IOS.ShowCameraHUD "Recording…") pre).
Proof.
  intros sv st req Hc Hfg Hcam. cbv zeta.
  unfold IOS.handleInvoke. rewrite Hc, Hfg, Hcam. rewrite andb_false_r.
  cbn [negb andb].
  change (String.eqb cameraClip canvasHide) with false.
  change (String.eqb cameraClip canvasSnapshot) with false.
  change (String.eqb cameraClip cameraSnap) with false.
  change (String.eqb cameraClip cameraClip) with true.
  cbv iota.
  unfold IOS.clipCase, IOS.decodeParams, IOS.caught. rewrite Hc.
  change (hasPrefix cameraClip "camera.") with true. cbv iota.
  change (match paramsJSON req with
          | Some j => IOS.decodeClipParams sv j
          | None => None
          end) with (paramsJSON req ≫= IOS.decodeClipParams sv).
  set (params := match paramsJSON req ≫= IOS.decodeClipParams sv with
                 | Some p => p
                 | None => IOS.defaultClipParams sv
                 end).
  destruct (match IOS.includeAudio sv params with Some b => b | None => true end);
    (destruct (IOS.cameraClipService sv params) as [res|e];
     [destruct (IOS.encodePayload sv _) as [payload|e]|]);
    cbn [fst app];
    (split; [eexists; simpl; eauto 10|]);
    (split;
     [ intros pre flag post H; locate H pre;
       (split_ands;
        [ reflexivity
        | intros f; split; simpl; intuition discriminate
        | simpl; auto 10
        | simpl; split; [try reflexivity; intuition discriminate
                        | intros; try discriminate; auto 10]
        | first [left; reflexivity | right; eexists; reflexivity] ])
     | split;
       [ simpl; auto 10
       | intros pre post H; locate H pre;
         (split_ands;
          [ simpl; split; [try reflexivity; intuition discriminate
                          | intros; try discriminate; auto 10]
          | simpl; intuition discriminate
          | simpl; intuition discriminate
          | simpl; intuition discriminate
          | simpl; auto 10 ]) ] ]).
Qed.

Lemma ios_voice_wake_resumed_witness :
  let calls :=
    fst (IOS.handleInvoke IOS.sampleServices
           {| IOS.isBackgrounded := false; IOS.cameraEnabledPref := None |}
           (IOS.request "camera.clip")) in
  calls = [IOS.DecodeParams (Some "{}"); IOS.SuspendVoiceWake;
           IOS.ShowCameraHUD "Recording…"; IOS.CameraClip; IOS.EncodePayload;
           IOS.ShowCameraHUD "Clip captured"; IOS.ResumeVoiceWake true]
  /\ (In IOS.SuspendVoiceWake [IOS.DecodeParams (Some "{}"); IOS.SuspendVoiceWake;
                               IOS.ShowCameraHUD "Recording…"]
      <-> true = true)
  /\ ~ In IOS.SuspendVoiceWake [IOS.EncodePayload; IOS.ShowCameraHUD "Clip captured";
                                IOS.ResumeVoiceWake true].
Proof.
  intros calls. split; [reflexivity|].
  destruct (proj2 (proj2 (proj2
              (ios_voice_wake_resumed IOS.sampleServices
                 {| IOS.isBackgrounded := false; IOS.cameraEnabledPref := None |}
                 (IOS.request "camera.clip") eq_refl eq_refl eq_refl)))
              [IOS.DecodeParams (Some "{}"); IOS.SuspendVoiceWake;
               IOS.ShowCameraHUD "Recording…"]
              [IOS.EncodePayload; IOS.ShowCameraHUD "Clip captured";
               IOS.ResumeVoiceWake true] eq_refl) as (H1 & H2 & _).
  split; [exact H1|exact H2].
Defined.

End IOSVoiceWake.

Section ScreenRecording.
Import Kit Effects.

Lemma dispatch_record :
  (forall sv st req,
      command req = MacRuntime.screenRecord ->
      MacRuntime.handleInvoke sv st req
      = MacRuntime.run req (MacRuntime.recordCase sv req))
  /\ (forall sv st req,
      command req = MacRuntime.screenRecord ->
      IOS.isBackgrounded st = false ->
      IOSRuntime.handleInvoke sv st req
      = IOSRuntime.run req (IOSRuntime.recordCase sv req)).
Proof.
  split.
  - intros sv st req H. unfold MacRuntime.handleInvoke. rewrite H. reflexivity.
  - intros sv st req H Hfg. unfold IOSRuntime.handleInvoke.
    rewrite H, Hfg. reflexivity.
Qed.

(** X24. The format of a screen recording. The macOS runtime records when
    the format is absent, empty or [mp4] in any case, and refuses any other
    format with INVALID_REQUEST before recording. The iOS model records
    when the format is absent or [mp4] in any case; it refuses every other
    format, the empty one included, before recording and before the
    recording indicator is set, and its refusal carries the code
    UNAVAILABLE, the words INVALID_REQUEST being in the message only. *)
Theorem screen_record_format :
  (forall sv st req,
      command req = MacRuntime.screenRecord ->
      let params :=
        match paramsJSON req ≫= (fun j => Some (MacRuntime.decodeScreenRecordParams sv j)) with
        | Some (inl p) => p
        | _ => MacRuntime.defaultScreenRecordParams sv
        end in
      let accepted :=
        match MacRuntime.recordFormat sv params with
        | Some f => Text.isEmpty (SwiftText.lowercased f)
                    || String.eqb (SwiftText.lowercased f) "mp4"
        | None => true
        end in
      if accepted
      then In MacRuntime.ScreenRecord (fst (MacRuntime.handleInvoke sv st req))
      else MacRuntime.handleInvoke sv st req =
             ([MacRuntime.Base (Mac.DecodeParams (paramsJSON req))],
              errorResponse req invalidRequest
                "INVALID_REQUEST: screen format must be mp4"))
  /\ (forall sv st req,
      command req = MacRuntime.screenRecord ->
      IOS.isBackgrounded st = false ->
      let params :=
        match paramsJSON req ≫= (fun j => Some (IOSRuntime.decodeScreenRecordParams sv j)) with
        | Some (inl p) => p
        | _ => IOSRuntime.defaultScreenRecordParams sv
        end in
      let accepted :=
        match IOSRuntime.recordFormat sv params with
        | Some f => String.eqb (SwiftText.lowercased f) "mp4"
        | None => true
        end in
      if accepted
      then In IOSRuntime.ScreenRecord (fst (IOSRuntime.handleInvoke sv st req))
      else IOSRuntime.handleInvoke sv st req =
             ([IOSRuntime.Base (IOS.DecodeParams (paramsJSON req))],
              errorResponse req unavailable
                "INVALID_REQUEST: screen format must be mp4")).
Proof.
  split.
  - intros sv st req Hc. cbv zeta.
    rewrite (proj1 dispatch_record sv st req Hc).
    unfold MacRuntime.run, MacRuntime.recordCase, MacRuntime.decodeParams,
      MacRuntime.encodePayload, tryOptional, deferring, bind, call, ret.
    destruct (paramsJSON req) as [j|]; cbn [mbind option_bind];
      [destruct (MacRuntime.decodeScreenRecordParams sv j) as [p|e]|];
      cbn beta iota.
    all: destruct (MacRuntime.recordFormat sv _) as [f|]; cbn [option_map].
    all: try (destruct (Text.isEmpty (SwiftText.lowercased f));
              destruct (String.eqb (SwiftText.lowercased f) "mp4")).
    all: cbn [negb andb orb]; try reflexivity.
    all: destruct (MacRuntime.record sv _) as [[path rec]|e1]; cbn [fst snd].
    all: try destruct (Mac.contentsOf (MacRuntime.base sv) _) as [data|e2].
    all: try destruct (MacRuntime.encodeScreenPayload sv _ _ _) as [payload|e3].
    all: simpl; auto.
  - intros sv st req Hc Hfg. cbv zeta.
    rewrite (proj2 dispatch_record sv st req Hc Hfg).
    unfold IOSRuntime.run, IOSRuntime.recordCase, IOSRuntime.decodeParams,
      IOSRuntime.encodePayload, tryOptional, deferring, bind, call, perform,
      throw, ret.
    rewrite Hc. change (hasPrefix MacRuntime.screenRecord "camera.") with false.
    destruct (paramsJSON req) as [j|]; cbn [mbind option_bind];
      [destruct (IOSRuntime.decodeScreenRecordParams sv j) as [p|e]|];
      cbn beta iota.
    all: destruct (IOSRuntime.recordFormat sv _) as [f|].
    all: try destruct (String.eqb (SwiftText.lowercased f) "mp4").
    all: cbn [negb]; try reflexivity.
    all: destruct (IOSRuntime.record sv _) as [path|e1]; cbn [fst snd].
    all: try destruct (IOSRuntime.contentsOf sv _) as [data|e2].
    all: try destruct (IOSRuntime.encodeScreenPayload sv _ _) as [payload|e3].
    all: simpl; auto.
Qed.

Lemma screen_record_format_witness :
  let req := Mac.request "screen.record" (Some EmptyString) in
  let foreground := {| IOS.isBackgrounded := false; IOS.cameraEnabledPref := None |} in
  In MacRuntime.ScreenRecord
     (fst (MacRuntime.handleInvoke MacRuntime.sampleServices Mac.defaults req))
  /\ IOSRuntime.handleInvoke IOSRuntime.sampleServices foreground req =
       ([IOSRuntime.Base (IOS.DecodeParams (Some EmptyString))],
        errorResponse req unavailable "INVALID_REQUEST: screen format must be mp4").
Proof.
  exact (conj (proj1 screen_record_format MacRuntime.sampleServices Mac.defaults
                 (Mac.request "screen.record" (Some EmptyString)) eq_refl)
              (proj2 screen_record_format IOSRuntime.sampleServices
                 {| IOS.isBackgrounded := false; IOS.cameraEnabledPref := None |}
                 (Mac.request "screen.record" (Some EmptyString)) eq_refl eq_refl)).
Defined.

End ScreenRecording.

Section IOSRecording.
Import Kit Effects IOSRuntime.

Lemma ios_run_calls req (m : Run BridgeInvokeResponse) (Q : Call -> Prop) :
  callsAll Q m -> (forall c, Q (Base c)) -> Forall Q (fst (run req m)).
Proof.
  intros Hm Hbase. unfold run. specialize (Hm []).
  destruct (m []) as [calls [r|e]]; cbn [fst] in *; [exact Hm|].
  apply Forall_app. split; [exact Hm|].
  destruct (hasPrefix (command req) "camera."); repeat constructor. apply Hbase.
Qed.

Lemma ios_embedded_calls (r : list IOS.Call * BridgeInvokeResponse)
    (Q : Call -> Prop) :
  (forall c, Q (Base c)) -> Forall Q (fst (embedded r)).
Proof.
  intros Hbase. unfold embedded. cbn [fst]. apply List.Forall_forall.
  intros c Hc. apply in_map_iff in Hc as (x & <- & _). apply Hbase.
Qed.

Ltac not_recording :=
  cbv beta;
  match goal with
  | |- ~ recordingCall _ => intros [?|[?|[? ?]]]; discriminate
  | |- forall _, ~ recordingCall _ => intros ? [?|[?|[? ?]]]; discriminate
  end.

Lemma ios_record_trace sv req :
  command req = MacRuntime.screenRecord ->
  let calls := fst (run req (recordCase sv req)) in
  (In (SetScreenRecordActive true) calls ->
     exists mid,
       calls = (Base (IOS.DecodeParams (paramsJSON req))
                :: SetScreenRecordActive true
                :: mid ++ [SetScreenRecordActive false])%list
       /\ (forall active, ~ In (SetScreenRecordActive active) mid))
  /\ (In ReadFile calls ->
      exists pre, calls = (pre ++ [RemoveFile; SetScreenRecordActive false])%list
                  /\ ~ In RemoveFile pre)
  /\ (In RemoveFile calls -> In ReadFile calls)
  /\ (In (SetScreenRecordActive false) calls -> In (SetScreenRecordActive true) calls).
Proof.
  intros Hc. cbv zeta.
  unfold run, recordCase, decodeParams, encodePayload, tryOptional, deferring,
    bind, call, perform, throw, ret.
  rewrite Hc. change (hasPrefix MacRuntime.screenRecord "camera.") with false.
  destruct (match paramsJSON req with
            | Some j => decodeScreenRecordParams sv j
            | None => inr (plainError "INVALID_REQUEST: paramsJSON required")
            end) as [p|e]; cbn beta iota.
  all: destruct (match recordFormat sv _ with
                 | Some format => negb (String.eqb (SwiftText.lowercased format) "mp4")
                 | None => false
                 end); cbn beta iota.
  all: try destruct (record sv _) as [path|e1]; cbn beta iota.
  all: try destruct (contentsOf sv _) as [data|e2]; cbn beta iota.
  all: try destruct (encodeScreenPayload sv _ _) as [payload|e3]; cbn beta iota.
  all: cbn [fst app]; rewrite ?app_nil_r.
  all: split_ands.
  all: try (intros H; exfalso; simpl in H; intuition discriminate).
  all: try (intros _; simpl; auto 10; fail).
  all: intros _;
    match goal with
    | |- exists mid, ?L = _ /\ _ =>
        exists (removelast (skipn 2 L)); split;
        [reflexivity | intros active; simpl; intuition discriminate]
    | |- exists pre, ?L = _ /\ _ =>
        exists (removelast (removelast L)); split;
        [reflexivity | simpl; intuition discriminate]
    end.
Qed.

(** X25. A screen recording on iOS cleans up after itself, however it
    ends. Once the recording indicator is set, the last thing the invoke
    does is to clear it, and it is set and cleared once; a recording that
    produced a file has the file removed, once, just before the indicator
    is cleared, also when reading or encoding the file fails. No other
    command touches the indicator or removes a file. *)
Theorem ios_recording_cleanup :
  forall sv st req,
    let calls := fst (handleInvoke sv st req) in
    (In (SetScreenRecordActive true) calls ->
       exists pre mid,
         calls = (pre ++ SetScreenRecordActive true
                      :: mid ++ [SetScreenRecordActive false])%list
         /\ (forall active, ~ In (SetScreenRecordActive active) pre
                            /\ ~ In (SetScreenRecordActive active) mid))
    /\ (In ReadFile calls ->
        exists pre, calls = (pre ++ [RemoveFile; SetScreenRecordActive false])%list
                    /\ ~ In RemoveFile pre)
    /\ (In RemoveFile calls -> In ReadFile calls)
    /\ (In (SetScreenRecordActive false) calls ->
        In (SetScreenRecordActive true) calls).
Proof.
  intros sv st req. cbv zeta.
  assert (Hnone : forall calls : list Call,
             Forall (fun c => ~ recordingCall c) calls ->
             (In (SetScreenRecordActive true) calls ->
                exists pre mid,
                  calls = (pre ++ SetScreenRecordActive true
                               :: mid ++ [SetScreenRecordActive false])%list
                  /\ (forall active, ~ In (SetScreenRecordActive active) pre
                                     /\ ~ In (SetScreenRecordActive active) mid))
             /\ (In ReadFile calls ->
                 exists pre, calls = (pre ++ [RemoveFile; SetScreenRecordActive false])%list
                             /\ ~ In RemoveFile pre)
             /\ (In RemoveFile calls -> In ReadFile calls)
             /\ (In (SetScreenRecordActive false) calls ->
                 In (SetScreenRecordActive true) calls)).
  { intros calls Hall. rewrite List.Forall_forall in Hall.
    split_ands; intros H; exfalso; apply (Hall _ H); unfold recordingCall; eauto. }
  assert (Hbase : forall c, ~ recordingCall (Base c)) by (intros c; not_recording).
  unfold handleInvoke.
  repeat match goal with
         | |- context [if String.eqb ?a MacRuntime.screenRecord then _ else _] =>
             destruct (String.eqb_spec a MacRuntime.screenRecord)
         | |- context [if ?b then _ else _] => destruct b
         end;
    try (apply Hnone; constructor; fail);
    try (apply Hnone; apply ios_embedded_calls; exact Hbase);
    try (apply Hnone; apply ios_run_calls; [|exact Hbase];
         unfold presentCase, navigateCase, evalCase, resetCase, pushCase,
           messagesFromJSONL, resolveA2UIHostURL, decodeParams, encodePayload;
         calls_all; not_recording; fail).
  destruct (ios_record_trace sv req) as (H1 & H2 & H3 & H4); [assumption|].
  split_ands; [|exact H2|exact H3|exact H4].
  intros H. destruct (H1 H) as (mid & -> & Hmid).
  exists [Base (IOS.DecodeParams (paramsJSON req))], mid.
  split; [reflexivity|]. intros active. split; [|apply Hmid].
  simpl. intuition discriminate.
Qed.

End IOSRecording.

Section IOSA2UI.
Import Kit Effects IOSRuntime.

Lemma plainCallIOS_facts :
  (forall c, plainCallIOS (Base c))
  /\ (forall c, (forall js, c <> Evaluate js) -> plainCallIOS c).
Proof.
  unfold plainCallIOS. split.
  - intros c js [=].
  - intros c Hc js ->. destruct (Hc js eq_refl).
Qed.

Lemma ios_no_script (c pre post : list Call) (js : MacRuntime.Script) :
  Forall plainCallIOS c -> a2uiScript js ->
  c <> (pre ++ Evaluate js :: post)%list.
Proof.
  intros Hc Hjs ->. apply Forall_app in Hc as [_ Hc].
  apply Forall_inv in Hc. exact (Hc js eq_refl Hjs).
Qed.

Ltac after_wait H pre :=
  locate H pre;
  try match goal with
      | Hjs : a2uiScript _ |- _ =>
          solve [destruct Hjs as [Hjs|[? Hjs]]; discriminate Hjs]
      end;
  (split; [reflexivity|]; split; [first [assumption | reflexivity]|];
   match goal with
   | |- exists pre' a, ?P = _ =>
       exists (removelast (removelast (removelast P)));
       eexists; reflexivity
   end).

Lemma ios_reset_scripts sv req pre js post :
  hasPrefix (command req) "camera." = false ->
  fst (run req (resetCase sv req)) = (pre ++ Evaluate js :: post)%list ->
  a2uiScript js ->
  post = [] /\ waitForA2UIReady sv 5000 = true
  /\ exists pre' absoluteString,
       pre = (pre' ++ [CanvasHostUrl; Navigate (absoluteString ++ "?platform=ios");
                       WaitForA2UIReady 5000])%list.
Proof.
  intros Hcam.
  unfold run, resetCase, resolveA2UIHostURL, bind, call, perform, ret.
  rewrite Hcam.
  destruct (currentCanvasHostUrl sv) as [raw|]; cbn beta iota zeta.
  all: try destruct (Text.isEmpty (SwiftText.trimmingWhitespace raw)); cbn beta iota.
  all: try destruct (appendingA2UIPath sv _) as [abs|]; cbn beta iota.
  all: try destruct (waitForA2UIReady sv 5000) eqn:Hw; cbn beta iota.
  all: try destruct (evalJS sv MacRuntime.ResetScript) as [json|e]; cbn beta iota.
  all: cbn [fst app]; intros H Hjs; after_wait H pre.
Qed.

Lemma ios_push_scripts sv req pre js post :
  hasPrefix (command req) "camera." = false ->
  fst (run req (pushCase sv req)) = (pre ++ Evaluate js :: post)%list ->
  a2uiScript js ->
  post = [] /\ waitForA2UIReady sv 5000 = true
  /\ exists pre' absoluteString,
       pre = (pre' ++ [CanvasHostUrl; Navigate (absoluteString ++ "?platform=ios");
                       WaitForA2UIReady 5000])%list.
Proof.
  intros Hcam.
  unfold run, pushCase, messagesFromJSONL, decodeParams, resolveA2UIHostURL,
    catching, lift.
  rewrite Hcam.
  destruct (String.eqb (command req) MacRuntime.canvasA2UIPushJSONL);
    unfold bind, call, perform, ret.
  all: destruct (paramsJSON req) as [j|]; cbn beta iota.
  all: try destruct (decodePushParams sv j) as [messages|e0]; cbn beta iota.
  all: try destruct (decodePushJSONLParams sv j) as [jsonl|e1]; cbn beta iota.
  all: try destruct (decodeMessagesFromJSONL sv _) as [messages'|e2]; cbn beta iota.
  all: destruct (currentCanvasHostUrl sv) as [raw|]; cbn beta iota zeta.
  all: try destruct (Text.isEmpty (SwiftText.trimmingWhitespace raw)); cbn beta iota.
  all: try destruct (appendingA2UIPath sv _) as [abs|]; cbn beta iota.
  all: try destruct (waitForA2UIReady sv 5000) eqn:Hw; cbn beta iota.
  all: try destruct (encodeMessagesJSONArray sv _) as [messagesJSON|e3]; cbn beta iota.
  all: try destruct (evalJS sv (MacRuntime.ApplyMessages _)) as [json|e4]; cbn beta iota.
  all: cbn [fst app]; intros H Hjs; after_wait H pre.
Qed.

(** X26. The iOS model evaluates an A2UI script (the reset script, or the
    script applying pushed messages) only after it has looked up the canvas
    host, navigated to the host's A2UI page with [?platform=ios] and waited
    for the page, and only when the wait succeeded; these are the three
    calls right before the script, and the script is the last call of the
    invoke. No command evaluates such a script in any other way. *)
Theorem ios_a2ui_scripts_after_wait :
  forall sv st req pre js post,
    fst (handleInvoke sv st req) = (pre ++ Evaluate js :: post)%list ->
    a2uiScript js ->
    post = [] /\ waitForA2UIReady sv 5000 = true
    /\ exists pre' absoluteString,
         pre = (pre' ++ [CanvasHostUrl; Navigate (absoluteString ++ "?platform=ios");
                         WaitForA2UIReady 5000])%list.
Proof.
  intros sv st req pre js post H Hjs.
  destruct plainCallIOS_facts as (Hbase & Hplain).
  assert (Hnone : forall calls : list Call,
             Forall plainCallIOS calls -> calls <> (pre ++ Evaluate js :: post)%list).
  { intros calls Hall. apply ios_no_script; assumption. }
  revert H. unfold handleInvoke.
  destruct (hasPrefix (command req) "camera.") eqn:Hcam.
  - (* a camera command is none of the A2UI commands *)
    repeat match goal with
           | |- context [String.eqb ?a ?b] =>
               destruct (String.eqb_spec a b) as [Heq|_];
               [try (rewrite Heq in Hcam; discriminate Hcam)|];
               cbn [orb]
           | |- context [if ?b then _ else _] => destruct b
           end;
      intros H;
      try (exfalso; destruct pre; discriminate H);
      exfalso; revert H; apply Hnone; apply ios_embedded_calls; exact Hbase.
  - cbn [orb andb].
    repeat match goal with
           | |- context [if ?b then _ else _] => destruct b
           end;
      intros H;
      try (exfalso; destruct pre; discriminate H);
      try (exfalso; revert H; apply Hnone; apply ios_embedded_calls; exact Hbase);
      try (exact (ios_reset_scripts sv req pre js post Hcam H Hjs));
      try (exact (ios_push_scripts sv req pre js post Hcam H Hjs));
      exfalso; revert H; apply Hnone; (apply ios_run_calls; [|exact Hbase]);
      unfold presentCase, navigateCase, evalCase, recordCase, decodeParams,
        encodePayload;
      calls_all; try apply Hbase; try (apply Hplain; discriminate);
      try (repeat constructor; apply Hplain; discriminate).
    intros js0 [= <-] [H0|[m0 H0]]; discriminate.
Qed.

Lemma ios_a2ui_scripts_after_wait_witness :
  @nil Call = [] /\ waitForA2UIReady sampleServices 5000 = true
  /\ exists pre' absoluteString,
       [CanvasHostUrl; Navigate "http://gw:18793/__clawdis__/a2ui/?platform=ios";
        WaitForA2UIReady 5000]
       = (pre' ++ [CanvasHostUrl; Navigate (absoluteString ++ "?platform=ios");
                   WaitForA2UIReady 5000])%list.
Proof.
  exact (ios_a2ui_scripts_after_wait sampleServices
           {| IOS.isBackgrounded := false; IOS.cameraEnabledPref := None |}
           (IOS.request "canvas.a2ui.reset")
           [CanvasHostUrl; Navigate "http://gw:18793/__clawdis__/a2ui/?platform=ios";
            WaitForA2UIReady 5000]
           MacRuntime.ResetScript [] eq_refl (or_introl eq_refl)).
Defined.

End IOSA2UI.

Section IOSBackoff.
Import Kit IOSSupervisor.

Lemma superviseFrom_lookup (ends : list IOS.ConnectEnd) (attempt : Z) (k : nat)
    (e : IOS.ConnectEnd) :
  ends !! k = Some e ->
  superviseFrom attempt ends !! k =
    Some (fst (fst (IOS.superviseTurn (attempt + Z.of_nat k) e)),
          snd (IOS.superviseTurn (attempt + Z.of_nat k) e)).
Proof.
  revert attempt k. induction ends as [|e0 rest IH]; intros attempt k H.
  - destruct k; discriminate H.
  - destruct k as [|k]; cbn [superviseFrom].
    + cbn in H. injection H as ->. rewrite Z.add_0_r.
      destruct e; reflexivity.
    + cbn in H.
      assert (Hn : snd (fst (IOS.superviseTurn attempt e0)) = attempt + 1)
        by (destruct e0; reflexivity).
      destruct (IOS.superviseTurn attempt e0) as [[status attempt'] sleep].
      cbn [fst snd] in Hn. subst attempt'.
      change (((status, sleep) :: superviseFrom (attempt + 1) rest) !! S k)
        with (superviseFrom (attempt + 1) rest !! k).
      rewrite (IH (attempt + 1) k H).
      replace (attempt + 1 + Z.of_nat k) with (attempt + Z.of_nat (S k)) by lia.
      reflexivity.
Qed.

Lemma swiftMin_bounds (limit x low : Q) :
  (low <= limit)%Q -> (low <= x)%Q ->
  (low <= swiftMin limit x <= limit)%Q.
Proof.
  intros Hl Hx. unfold swiftMin. destruct (Qle_bool limit x) eqn:E.
  - split; [exact Hl | apply Qle_refl].
  - split; [exact Hx|].
    apply Qlt_le_weak. apply Qnot_le_lt. intros H.
    apply Qle_bool_iff in H. congruence.
Qed.

Lemma swiftMin_capped (limit x : Q) : (limit <= x)%Q -> swiftMin limit x = limit.
Proof.
  intros H. unfold swiftMin. apply Qle_bool_iff in H. rewrite H. reflexivity.
Qed.

Lemma power_from (n m : Z) : n <= m -> ((17 # 10) ^ n <= (17 # 10) ^ m)%Q.
Proof. intros H. apply Qpower_le_compat_l; [exact H | discriminate]. Qed.

(** X27. The iOS reconnection loop never puts its counter back, not even
    after a session that was connected: the status is [Connecting…] before
    the first call of [bridge.connect] of a task and [Reconnecting…] before
    every later one; the sleep after the k-th call depends only on k and on
    how that call ended, [min(6, 0.35 * 1.7^k)] seconds after a return and
    [min(8, 0.5 * 1.7^k)] after a throw; every sleep lies between 0.595 s
    and its cap, and from the sixth call on every sleep is the cap. *)
Theorem ios_backoff_never_resets :
  forall (ends : list IOS.ConnectEnd) (k : nat) (e : IOS.ConnectEnd),
    ends !! k = Some e ->
    exists sleep,
      connectToBridge ends !! k =
        Some (match k with O => "Connecting…" | S _ => "Reconnecting…" end, sleep)
      /\ sleep = swiftMin (cap e)
                   ((match e with
                     | IOS.ConnectReturned => 35 # 100
                     | IOS.ConnectThrew _ => 5 # 10
                     end) * (17 # 10) ^ (Z.of_nat k + 1))%Q
      /\ (595 # 1000 <= sleep <= cap e)%Q
      /\ ((5 <= k)%nat -> sleep = cap e).
Proof.
  intros ends k e H.
  unfold connectToBridge. rewrite (superviseFrom_lookup ends 0 k e H).
  rewrite Z.add_0_l.
  assert (Hone : ((17 # 10) ^ 1 <= (17 # 10) ^ (Z.of_nat k + 1))%Q)
    by (apply power_from; lia).
  assert (Hsix : (5 <= k)%nat -> ((17 # 10) ^ 6 <= (17 # 10) ^ (Z.of_nat k + 1))%Q)
    by (intros Hk; apply power_from; lia).
  set (p := ((17 # 10) ^ (Z.of_nat k + 1))%Q) in *.
  assert (Hstatus : (if Z.of_nat k =? 0 then "Connecting…" else "Reconnecting…")
                    = match k with O => "Connecting…" | S _ => "Reconnecting…" end)
    by (destruct k; reflexivity).
  destruct e as [|err]; cbn [IOS.superviseTurn fst snd cap]; fold p;
    rewrite Hstatus; eexists; (split; [reflexivity|]); (split; [reflexivity|]); split.
  - apply swiftMin_bounds; [discriminate|].
    apply Qle_trans with ((35 # 100) * (17 # 10) ^ 1)%Q; [discriminate|].
    apply Qmult_le_l; [reflexivity | exact Hone].
  - intros Hk. apply swiftMin_capped.
    apply Qle_trans with ((35 # 100) * (17 # 10) ^ 6)%Q; [discriminate|].
    apply Qmult_le_l; [reflexivity | exact (Hsix Hk)].
  - apply swiftMin_bounds; [discriminate|].
    apply Qle_trans with ((5 # 10) * (17 # 10) ^ 1)%Q; [discriminate|].
    apply Qmult_le_l; [reflexivity | exact Hone].
  - intros Hk. apply swiftMin_capped.
    apply Qle_trans with ((5 # 10) * (17 # 10) ^ 6)%Q; [discriminate|].
    apply Qmult_le_l; [reflexivity | exact (Hsix Hk)].
Qed.

Lemma ios_backoff_never_resets_witness :
  exists sleep,
    connectToBridge
      [IOS.ConnectThrew (plainError "refused"); IOS.ConnectReturned;
       IOS.ConnectReturned; IOS.ConnectReturned; IOS.ConnectReturned;
       IOS.ConnectReturned] !! 5%nat
    = Some ("Reconnecting…", sleep)
    /\ sleep = swiftMin 6 ((35 # 100) * (17 # 10) ^ 6)%Q
    /\ (595 # 1000 <= sleep <= 6)%Q
    /\ ((5 <= 5)%nat -> sleep = 6%Q).
Proof.
  exact (ios_backoff_never_resets
           [IOS.ConnectThrew (plainError "refused"); IOS.ConnectReturned;
            IOS.ConnectReturned; IOS.ConnectReturned; IOS.ConnectReturned;
            IOS.ConnectReturned] 5 IOS.ConnectReturned eq_refl).
Defined.

End IOSBackoff.
